(** * blysbackend: task-manager REST backend

    A shallow embedding of the Express application: the auth gate
    ([protect]), the express-validator chains with the [validate]
    middleware, the auth and task controllers, and the Sequelize models
    over a two-table store.

    Conventions of the embedding.
    - A JavaScript number is an integer-valued double, an infinity or
      [NaN] ([Js.num]).  An integer that is not a double is rounded to the
      nearest one where the code converts or computes ([Js.of_integer]);
      up to 2^53 every integer is a double.
    - Strings are [string]: sequences of characters below 256, each
      standing for the code unit of that number (so character 160 is the
      no-break space U+00A0).
    - The persistent store is an explicit value threaded through every
      handler; [Date.now()], [CURRENT_TIMESTAMP] of the database, the
      order in which the database meets rows, and the salt drawn by
      [bcrypt.genSalt] are explicit inputs of a request ([World]).
    - Functions whose text is not part of the repository (validator.js
      predicates, the Blowfish core of bcrypt, the text of a large number,
      the range of PostgreSQL's dates) are parameters, collected in the
      record [Lib]. *)

From Stdlib Require Import ZArith List String Ascii Bool Lia DecimalString.
From Stdlib Require Import Sorted Permutation.
Import ListNotations.

Local Open Scope string_scope.
Local Open Scope Z_scope.

(** ** JavaScript and validator.js helpers on strings *)

Module Js.

Definition is_digit (c : ascii) : bool :=
  let n := N_of_ascii c in (48 <=? n)%N && (n <=? 57)%N.

Definition digit_val (c : ascii) : Z := Z.of_N (N_of_ascii c) - 48.

(** White space and line terminators of JavaScript (what [\s] matches and
    what [trim] and [parseInt] skip) among the characters below 256: TAB
    to CR, SPACE and NO-BREAK SPACE. *)
Definition is_space (c : ascii) : bool :=
  let n := N_of_ascii c in
  (n =? 32)%N || ((9 <=? n)%N && (n <=? 13)%N) || (n =? 160)%N.

Fixpoint all_digits (s : string) : bool :=
  match s with
  | EmptyString => true
  | String c r => is_digit c && all_digits r
  end.

(** Value of a run of decimal digits, most significant first. *)
Fixpoint digits_val (acc : Z) (s : string) : Z :=
  match s with
  | EmptyString => acc
  | String c r => digits_val (10 * acc + digit_val c) r
  end.

(** The longest prefix of decimal digits. *)
Fixpoint take_digits (s : string) : string :=
  match s with
  | EmptyString => EmptyString
  | String c r => if is_digit c then String c (take_digits r) else EmptyString
  end.

Fixpoint ltrim (s : string) : string :=
  match s with
  | EmptyString => EmptyString
  | String c r => if is_space c then ltrim r else s
  end.

Fixpoint rtrim (s : string) : string :=
  match s with
  | EmptyString => EmptyString
  | String c r =>
      match rtrim r with
      | EmptyString => if is_space c then EmptyString else String c EmptyString
      | r' => String c r'
      end
  end.

(** validator.js [trim(str)] without a character set. *)
Definition trim (s : string) : string := ltrim (rtrim s).

(** A JavaScript number as the code can meet it in a query parameter:
    an integer-valued double, [Infinity] or [-Infinity], or [NaN]. *)
Inductive num := Int (z : Z) | Inf (negative : bool) | NaN.

Definition two53 : Z := 2 ^ 53.

(** The double nearest to an integer, ties to the even significand: the
    53 leading bits are kept and the rest is rounded. *)
Definition round_double (z : Z) : Z :=
  let a := Z.abs z in
  if a <=? two53 then z
  else
    let e := Z.log2 a - 52 in
    let q := a / 2 ^ e in
    let r := a mod 2 ^ e in
    let half := 2 ^ (e - 1) in
    let q' := if (half <? r) || ((r =? half) && Z.odd q) then q + 1 else q in
    Z.sgn z * (q' * 2 ^ e).

(** The largest double. *)
Definition max_double : Z := (2 ^ 53 - 1) * 2 ^ 971.

(** The number an integer result is held as. *)
Definition of_integer (z : Z) : num :=
  let r := round_double z in
  if Z.abs r <=? max_double then Int r else Inf (z <? 0).

(** [/^[-+]?[0-9]+$/], the expression validator.js [isInt] tests when
    leading zeroes are allowed (the default); the result is the value
    the literal denotes. *)
Definition int_literal (s : string) : option Z :=
  match s with
  | EmptyString => None
  | String c r =>
      if Ascii.eqb c "-"%char then
        match r with
        | EmptyString => None
        | _ => if all_digits r then Some (- digits_val 0 r) else None
        end
      else if Ascii.eqb c "+"%char then
        match r with
        | EmptyString => None
        | _ => if all_digits r then Some (digits_val 0 r) else None
        end
      else if all_digits s then Some (digits_val 0 s) else None
  end.

(** validator.js [isInt(str, { min, max })]: the expression matches and
    the number the string converts to lies within the given bounds. *)
Definition isInt (s : string) (min max : option Z) : bool :=
  match int_literal s with
  | None => false
  | Some v =>
      match min with Some lo => lo <=? v | None => true end
      && match max with Some hi => v <=? hi | None => true end
  end.

(** [parseInt(str, 10)] on a string: leading white space, an optional
    sign, then the longest run of decimal digits; [NaN] without one. *)
Definition parseInt10 (s : string) : num :=
  let s := ltrim s in
  let '(neg, r) :=
    match s with
    | String c r =>
        if Ascii.eqb c "-"%char then (true, r)
        else if Ascii.eqb c "+"%char then (false, r)
        else (false, s)
    | EmptyString => (false, s)
    end in
  match take_digits r with
  | EmptyString => NaN
  | ds => of_integer (if neg then - digits_val 0 ds else digits_val 0 ds)
  end.

Definition is_hex_digit (c : ascii) : bool :=
  let n := N_of_ascii c in
  is_digit c || ((65 <=? n)%N && (n <=? 70)%N) || ((97 <=? n)%N && (n <=? 102)%N).

Definition hex_val (c : ascii) : Z :=
  let n := Z.of_N (N_of_ascii c) in
  if is_digit c then n - 48 else if n <=? 70 then n - 55 else n - 87.

Fixpoint take_hex (s : string) : string :=
  match s with
  | EmptyString => EmptyString
  | String c r => if is_hex_digit c then String c (take_hex r) else EmptyString
  end.

Fixpoint hex_digits_val (acc : Z) (s : string) : Z :=
  match s with
  | EmptyString => acc
  | String c r => hex_digits_val (16 * acc + hex_val c) r
  end.

(** [parseInt(str)] without a radix: as [parseInt10], except that after
    the sign a [0x] or [0X] prefix selects base 16. *)
Definition parseInt (s : string) : num :=
  let s := ltrim s in
  let '(neg, r) :=
    match s with
    | String c r =>
        if Ascii.eqb c "-"%char then (true, r)
        else if Ascii.eqb c "+"%char then (false, r)
        else (false, s)
    | EmptyString => (false, s)
    end in
  let sign (v : Z) := if neg then - v else v in
  let hex :=
    match r with
    | String z (String x h) =>
        if Ascii.eqb z "0"%char
           && (Ascii.eqb x "x"%char || Ascii.eqb x "X"%char)
        then Some h else None
    | _ => None
    end in
  match hex with
  | Some h =>
      match take_hex h with
      | EmptyString => NaN
      | hs => of_integer (sign (hex_digits_val 0 hs))
      end
  | None =>
      match take_digits r with
      | EmptyString => NaN
      | ds => of_integer (sign (digits_val 0 ds))
      end
  end.

(** [String(n)] for a number.  Up to 2^53 the text of an integer is its
    decimal form; beyond, it is the shortest decimal that reads back as the
    number, in exponent notation from 1e21 on, here [big z]. *)
Definition num_to_string (big : Z -> string) (n : num) : string :=
  match n with
  | NaN => "NaN"
  | Inf false => "Infinity"
  | Inf true => "-Infinity"
  | Int z =>
      if Z.abs z <=? two53 then NilZero.string_of_int (Z.to_int z) else big z
  end.

(** [parseInt(n)] for a number [n] parses the text of [n].  Below 1e21
    that text is a decimal integer which reads back as [n]; from 1e21 on it
    is in exponent notation and only the digits before the point or the
    exponent are read; the text of an infinity or of [NaN] has no digits. *)
Definition parseInt_number (big : Z -> string) (n : num) : num :=
  match n with
  | Int z => if Z.abs z <? 10 ^ 21 then Int z else parseInt (big z)
  | Inf _ => NaN
  | NaN => NaN
  end.

(** [x || d] for a number [x]: [NaN] and [0] are falsy. *)
Definition num_or (x : num) (d : Z) : num :=
  match x with
  | NaN => Int d
  | Int z => if z =? 0 then Int d else x
  | Inf _ => x
  end.

(** [a - b] and [a * b]: the exact result, rounded. *)
Definition sub (a b : num) : num :=
  match a, b with
  | Int x, Int y => of_integer (x - y)
  | Inf n, Int _ => Inf n
  | Int _, Inf n => Inf (negb n)
  | Inf n, Inf m => if Bool.eqb n m then NaN else Inf n
  | _, _ => NaN
  end.

Definition mul (a b : num) : num :=
  match a, b with
  | Int x, Int y => of_integer (x * y)
  | Inf n, Int y => if y =? 0 then NaN else Inf (xorb n (y <? 0))
  | Int x, Inf n => if x =? 0 then NaN else Inf (xorb n (x <? 0))
  | Inf n, Inf m => Inf (xorb n m)
  | _, _ => NaN
  end.

(** [a < b]; false when either is [NaN]. *)
Definition ltb (a b : num) : bool :=
  match a, b with
  | Int x, Int y => x <? y
  | Int _, Inf n => negb n
  | Inf n, Int _ => n
  | Inf n, Inf m => n && negb m
  | _, _ => false
  end.

(** [Math.ceil(count / d)] for a count of rows. *)
Definition ceil_quot (count : Z) (d : num) : num :=
  match d with
  | Int l =>
      if 0 <? l then Int ((count + l - 1) / l)
      else if l <? 0 then Int (- (count / - l))
      else if count =? 0 then NaN
      else Inf (count <? 0)
  | Inf _ => Int 0
  | NaN => NaN
  end.

(** [s || d] for an optional string: [undefined] and the empty string
    are falsy. *)
Definition str_or (x : option string) (d : string) : string :=
  match x with
  | None => d
  | Some EmptyString => d
  | Some s => s
  end.

Definition upper_char (c : ascii) : ascii :=
  let n := N_of_ascii c in
  if (97 <=? n)%N && (n <=? 122)%N then ascii_of_N (n - 32) else c.

Fixpoint toUpperCase (s : string) : string :=
  match s with
  | EmptyString => EmptyString
  | String c r => String (upper_char c) (toUpperCase r)
  end.

(** [isIn(values)]: membership in a list of strings. *)
Definition isIn (s : string) (vs : list string) : bool :=
  existsb (String.eqb s) vs.

Definition startsWith (s p : string) : bool := String.prefix p s.

End Js.

(** ** Session tokens

    A token travels as a string.  The strings are split into those that
    are a JSON Web Token carrying [{ id, iat, exp }] under an HMAC key,
    and all the others; [jwt.sign] builds the former, and [jwt.verify]
    accepts one only under the key it was signed with. *)

Inductive Token :=
| Jwt (id iat exp : Z) (key : string)
| Opaque (s : string).

(** The empty string is the only falsy token string. *)
Definition token_truthy (t : Token) : bool :=
  match t with
  | Opaque EmptyString => false
  | _ => true
  end.

Inductive VerifyResult :=
| Decoded (id : Z)
| TokenExpiredError
| JsonWebTokenError.

(** [jwt.verify(token, secret)] at clock [now] (milliseconds): structure
    and signature are checked before the expiry, and a token has expired
    once the clock in seconds has reached [exp]. *)
Definition jwt_verify (now : Z) (t : Token) (secret : string) : VerifyResult :=
  match t with
  | Opaque _ => JsonWebTokenError
  | Jwt id _ exp key =>
      if String.eqb key secret then
        if now / 1000 >=? exp then TokenExpiredError else Decoded id
      else JsonWebTokenError
  end.

(** ** Response bodies *)

#[warnings="-register-all"]
Inductive json :=
| JNull
| JBool (b : bool)
| JNum (z : Z)
| JStr (s : string)
| JTok (t : Token)
| JArr (l : list json)
| JObj (fields : list (string * json)).

(** Every property name that occurs in a serialized value, at any depth. *)
Fixpoint json_keys (j : json) : list string :=
  match j with
  | JArr l => flat_map json_keys l
  | JObj fields => flat_map (fun kv => fst kv :: json_keys (snd kv)) fields
  | _ => []
  end.

(** Property lookup on an object. *)
Fixpoint assoc (k : string) (fields : list (string * json)) : option json :=
  match fields with
  | [] => None
  | (k', v) :: r => if String.eqb k k' then Some v else assoc k r
  end.

Definition get (k : string) (j : json) : option json :=
  match j with
  | JObj fields => assoc k fields
  | _ => None
  end.

Record Cookie := {
  c_name : string;
  c_value : Token;
  c_expires : Z;
  c_httpOnly : bool;
  c_sameSite : option string;
  c_secure : option bool
}.

Record Response := {
  status : Z;
  cookies : list Cookie;
  body : json
}.

(** [res.status(code).json(body)] *)
Definition respond (code : Z) (b : json) : Response :=
  {| status := code; cookies := []; body := b |}.

Definition failure (code : Z) (message : string) : Response :=
  respond code (JObj [("success", JBool false); ("message", JStr message)]).

(** ** Persisted records (migrations 001 and 002, models User and Task) *)

Record User := {
  u_id : Z;
  u_name : string;
  u_email : string;
  u_password : string;
  u_createdAt : Z
}.

(** A [User] instance as a query returns it; [ui_password] is absent when
    the query excludes the attribute. *)
Record UserInstance := {
  ui_id : Z;
  ui_name : string;
  ui_email : string;
  ui_password : option string;
  ui_createdAt : Z
}.

(** A row of [tasks]; [t_createdAt] and [t_updatedAt] are the columns
    [created_at] and [updated_at]. *)
Record Task := {
  t_id : Z;
  t_userId : Z;
  t_title : string;
  t_description : option string;
  t_priority : string;
  t_endDate : Z;
  t_createdAt : Z;
  t_updatedAt : Z
}.

(** A [Task] instance.  The model declares the attributes [createdAt] and
    [updatedAt] over the columns [created_at] and [updated_at], and names
    its timestamps [created_at] and [updated_at], so that Sequelize keeps
    two more attributes of these names over the same columns. *)
Record TaskInstance := {
  i_id : Z;
  i_userId : Z;
  i_title : string;
  i_description : option string;
  i_priority : string;
  i_endDate : Z;
  i_createdAt : Z;
  i_updatedAt : Z;
  i_created_at : Z;
  i_updated_at : Z
}.

(** The instance a query builds from a row. *)
Definition loaded (t : Task) : TaskInstance :=
  {| i_id := t_id t; i_userId := t_userId t; i_title := t_title t;
     i_description := t_description t; i_priority := t_priority t;
     i_endDate := t_endDate t;
     i_createdAt := t_createdAt t; i_updatedAt := t_updatedAt t;
     i_created_at := t_createdAt t; i_updated_at := t_updatedAt t |}.

(** The two tables, each in insertion order, and their SERIAL counters. *)
Record Store := {
  users : list User;
  tasks : list Task;
  users_seq : Z;
  tasks_seq : Z
}.

(** ** Requests *)

(** A query parameter: the string Express parsed, or the number a
    sanitizer wrote back. *)
Inductive qval :=
| QStr (s : string)
| QNum (n : Js.num).

Record Query := {
  q_page : option qval;
  q_limit : option qval;
  q_sortBy : option string;
  q_order : option string
}.

(** A date-valued body field: the string received, or the [Date] (here a
    calendar day number) that [toDate()] wrote back; [DNull] is what
    [toDate()] leaves for a string that is not a date. *)
Inductive dval :=
| DStr (s : string)
| DDate (d : Z)
| DNull.

Record Body := {
  b_name : option string;
  b_email : option string;
  b_password : option string;
  b_title : option string;
  b_description : option string;
  b_priority : option string;
  b_endDate : option dval
}.

(** The [Authorization] header cut at its spaces: the first piece, and the
    second piece when there is one (what [split(' ')[1]] reads). *)
Record AuthHeader := {
  ah_first : string;
  ah_second : option Token
}.

Record Request := {
  cookies_token : option Token;
  headers_authorization : option AuthHeader;
  query : Query;
  params_id : option Z;
  body_in : Body;
  user : option UserInstance
}.

(** [params_id] is [None] for a path segment that PostgreSQL does not read
    as an integer; the lookup then fails in the storage layer. *)

Definition set_user (req : Request) (u : UserInstance) : Request :=
  {| cookies_token := cookies_token req;
     headers_authorization := headers_authorization req;
     query := query req;
     params_id := params_id req;
     body_in := body_in req;
     user := Some u |}.

Definition set_query (req : Request) (q : Query) : Request :=
  {| cookies_token := cookies_token req;
     headers_authorization := headers_authorization req;
     query := q;
     params_id := params_id req;
     body_in := body_in req;
     user := user req |}.

Definition set_body (req : Request) (b : Body) : Request :=
  {| cookies_token := cookies_token req;
     headers_authorization := headers_authorization req;
     query := query req;
     params_id := params_id req;
     body_in := b;
     user := user req |}.

(** A non-empty [JWT_EXPIRE] as [jsonwebtoken] reads it: a time span, in
    seconds, or text that is no time span. *)
Inductive Expiry :=
| Span (seconds : Z)
| NoSpan.

(** [process.env]: the signing secret (empty when it is not set),
    [JWT_EXPIRE] ([None] when it is not set or empty), and [NODE_ENV]. *)
Record Env := {
  JWT_SECRET : string;
  JWT_EXPIRE : option Expiry;
  NODE_ENV : option string
}.

(** What one request draws from outside the program: the clock of the
    server ([Date.now()], milliseconds), the clock of the database
    ([CURRENT_TIMESTAMP]), the 22-character salt text of [bcrypt.genSalt],
    and the position at which the database meets the row of a given id
    when it executes a query, which decides the order of rows that the
    ORDER BY clause leaves tied. *)
Record World := {
  now : Z;
  db_now : Z;
  salt_text : string;
  scan_position : Z -> Z
}.

(** ** Library functions taken as parameters *)

Record Lib := {
  (** validator.js *)
  isEmail : string -> bool;
  normalizeEmail : string -> string;
  isISO8601 : string -> bool;
  toDate : string -> option Z;
  (** bcrypt: the Blowfish-based digest of a key of at most 72 bytes under
      a salt string that carries version and cost. *)
  bcrypt_digest : string -> string -> string;
  (** JavaScript: the text of an integer-valued number beyond 2^53. *)
  number_text : Z -> string;
  (** PostgreSQL: whether a day lies in the range of the type DATE (which
      has no year 0). *)
  date_in_range : Z -> bool
}.

Definition verr : Type := string * string.

Section App.

Context (L : Lib).

(** ** bcrypt *)

Definition digit_char (d : Z) : ascii := ascii_of_N (Z.to_N (48 + d)).

Definition two_digits (n : Z) : string :=
  String (digit_char (n / 10)) (String (digit_char (n mod 10)) EmptyString).

(** [bcrypt.genSalt(rounds)]: version, cost, and the salt text drawn. *)
Definition bcrypt_genSalt (rounds : Z) (text : string) : string :=
  "$2b$" ++ two_digits rounds ++ "$" ++ text.

(** The key Blowfish is set up with: the NUL-terminated password, of
    which only the first 72 bytes are used. *)
Definition bcrypt_key (pw : string) : string :=
  substring 0 72 (pw ++ String zero EmptyString).

(** [bcrypt.hash(pw, salt)]: the salt string followed by the digest. *)
Definition bcrypt_hash (pw salt : string) : string :=
  salt ++ bcrypt_digest L salt (bcrypt_key pw).

(** [bcrypt.compare(pw, hash)]: hash again under the 29-character salt
    string the stored value starts with, and compare. *)
Definition bcrypt_compare (pw hash : string) : bool :=
  String.eqb (bcrypt_hash pw (substring 0 29 hash)) hash.

(** ** Model User *)

Definition len (s : string) : Z := Z.of_nat (String.length s).

Fixpoint all_spaces (s : string) : bool :=
  match s with
  | EmptyString => true
  | String c r => Js.is_space c && all_spaces r
  end.

(** Sequelize validator [notEmpty]: not only white space. *)
Definition seq_notEmpty (s : string) : bool := negb (all_spaces s).

Definition check (ok : bool) (field msg : string) : list verr :=
  if ok then [] else [(field, msg)].

Inductive SaveResult (A : Type) :=
| Saved (x : A) (db : Store)
| SequelizeValidationError (errors : list verr)
| OtherError.
Arguments Saved {A}.
Arguments SequelizeValidationError {A}.
Arguments OtherError {A}.

Definition User_validate (name email password : option string) : list verr :=
  match name with
  | None => [("name", "User.name cannot be null")]
  | Some n =>
      check (seq_notEmpty n) "name" "Name cannot be empty"
      ++ check ((2 <=? len n) && (len n <=? 100)) "name"
           "Name must be between 2 and 100 characters"
  end
  ++ match email with
     | None => [("email", "User.email cannot be null")]
     | Some e => check (isEmail L e) "email" "Must be a valid email address"
     end
  ++ match password with
     | None => [("password", "User.password cannot be null")]
     | Some p =>
         check ((6 <=? len p) && (len p <=? 255)) "password"
           "Password must be at least 6 characters"
     end.

(** Hook [beforeCreate]. *)
Definition beforeCreate (w : World) (password : string) : string :=
  match password with
  | EmptyString => password
  | _ =>
      let salt := bcrypt_genSalt 10 (salt_text w) in
      bcrypt_hash password salt
  end.

Definition instance_of (u : User) : UserInstance :=
  {| ui_id := u_id u; ui_name := u_name u; ui_email := u_email u;
     ui_password := Some (u_password u); ui_createdAt := u_createdAt u |}.

Definition exclude_password (u : User) : UserInstance :=
  {| ui_id := u_id u; ui_name := u_name u; ui_email := u_email u;
     ui_password := None; ui_createdAt := u_createdAt u |}.

(** [User.findOne({ where: { email } })] *)
Definition User_findOne_email (db : Store) (email : string) : option UserInstance :=
  option_map instance_of
    (find (fun u => String.eqb (u_email u) email) (users db)).

(** [User.findByPk(id, { attributes: { exclude: ['password'] } })] *)
Definition User_findByPk (db : Store) (id : Z) : option UserInstance :=
  option_map exclude_password (find (fun u => u_id u =? id) (users db)).

(** PostgreSQL takes no text with a NUL character. *)
Fixpoint storable_text (s : string) : bool :=
  match s with
  | EmptyString => true
  | String c r => negb (Ascii.eqb c zero) && storable_text r
  end.

Definition storable_opt (x : option string) : bool :=
  match x with
  | Some s => storable_text s
  | None => true
  end.

(** [User.create({ name, email, password })]: validation, the hashing
    hook, then the INSERT, which the unique index on [email] can refuse,
    as the database refuses a NUL character in name or email. *)
Definition User_create (db : Store) (w : World)
    (name email password : option string) : SaveResult UserInstance :=
  match User_validate name email password, name, email, password with
  | [], Some n, Some e, Some p =>
      if existsb (fun u => String.eqb (u_email u) e) (users db)
         || negb (storable_text n && storable_text e)
      then OtherError
      else
        let row := {| u_id := users_seq db; u_name := n; u_email := e;
                      u_password := beforeCreate w p;
                      u_createdAt := now w |} in
        Saved (instance_of row)
          {| users := users db ++ [row]; tasks := tasks db;
             users_seq := users_seq db + 1; tasks_seq := tasks_seq db |}
  | [], _, _, _ => OtherError
  | errors, _, _, _ => SequelizeValidationError errors
  end.

(** [user.comparePassword(enteredPassword)]; [bcrypt.compare] throws when
    the instance carries no hash, which is [None] here. *)
Definition comparePassword (u : UserInstance) (enteredPassword : string)
  : option bool :=
  match ui_password u with
  | Some h => Some (bcrypt_compare enteredPassword h)
  | None => None
  end.

(** ** Model Task *)

(** The values a handler assigns to a task before [save()]. *)
Record TaskValues := {
  v_title : string;
  v_description : option string;
  v_priority : string;
  v_endDate : dval
}.

Definition priorities : list string := ["low"; "medium"; "high"].

(** A DATEONLY attribute takes a [Date], or a string that [Date.parse]
    reads; this is also what the model validator [isDate] accepts. *)
Definition date_value (d : dval) : option Z :=
  match d with
  | DDate z => Some z
  | DStr s => toDate L s
  | DNull => None
  end.

Definition title_errors (title : string) : list verr :=
  check (seq_notEmpty title) "title" "Title cannot be empty"
  ++ check ((1 <=? len title) && (len title <=? 255)) "title"
       "Title must be between 1 and 255 characters".

Definition priority_errors (priority : string) : list verr :=
  check (Js.isIn priority priorities) "priority"
    "Priority must be low, medium, or high".

Definition endDate_errors (d : dval) : list verr :=
  match d with
  | DNull => [("endDate", "Task.endDate cannot be null")]
  | _ =>
      match date_value d with
      | Some _ => []
      | None => [("endDate", "End date must be a valid date")]
      end
  end.

(** [Task.findOne({ where: { id, userId } })] *)
Definition Task_findOne (db : Store) (id userId : Z) : option Task :=
  find (fun t => (t_id t =? id) && (t_userId t =? userId)) (tasks db).

(** [Task.create({ userId, title, description, priority, endDate })]:
    [priority] falls back to the column default, the other required
    attributes must be present.  The INSERT fails when the foreign key
    names no user, when title or description holds a NUL character, or
    when the day is outside the range of DATE.  Both pairs of timestamp
    attributes of the instance hold the time of the call, which is also
    what the row gets. *)
Definition Task_create (db : Store) (w : World) (userId : Z)
    (title description priority : option string) (endDate : option dval)
  : SaveResult TaskInstance :=
  let prio := match priority with Some p => p | None => "medium" end in
  let errors : list verr :=
    (match title with
     | None => [("title", "Task.title cannot be null")]
     | Some t => title_errors t
     end
     ++ priority_errors prio
     ++ match endDate with
        | None => [("endDate", "Task.endDate cannot be null")]
        | Some d => endDate_errors d
        end)%list in
  match errors, title, option_map date_value endDate with
  | [], Some t, Some (Some day) =>
      if existsb (fun u => u_id u =? userId) (users db)
         && storable_text t && storable_opt description
         && date_in_range L day
      then
        let row := {| t_id := tasks_seq db; t_userId := userId; t_title := t;
                      t_description := description; t_priority := prio;
                      t_endDate := day; t_createdAt := now w;
                      t_updatedAt := now w |} in
        Saved (loaded row)
          {| users := users db; tasks := tasks db ++ [row];
             users_seq := users_seq db; tasks_seq := tasks_seq db + 1 |}
      else OtherError
  | [], _, _ => OtherError
  | errors, _, _ => SequelizeValidationError errors
  end.

Definition option_string_eqb (a b : option string) : bool :=
  match a, b with
  | Some x, Some y => String.eqb x y
  | None, None => true
  | _, _ => false
  end.

(** Whether assigning [d] to the DATEONLY attribute changes it. *)
Definition endDate_changed (old : Z) (d : dval) : bool :=
  match date_value d with
  | Some z => negb (z =? old)
  | None => true
  end.

(** UPDATE of the row with the task's primary key.  Sequelize sends its
    own time for [updated_at]; the trigger [update_tasks_updated_at] of
    migration 002 replaces it by [CURRENT_TIMESTAMP]. *)
Definition write_task (w : World) (id : Z) (v : TaskValues) (day : Z)
    (t : Task) : Task :=
  if t_id t =? id then
    {| t_id := t_id t; t_userId := t_userId t; t_title := v_title v;
       t_description := v_description v; t_priority := v_priority v;
       t_endDate := day; t_createdAt := t_createdAt t;
       t_updatedAt := db_now w |}
  else t.

(** The instance after a [save()] that wrote: the assigned values, the
    timestamp attribute [updated_at] refreshed with the time of the call,
    and the declared attribute [updatedAt] as it was loaded. *)
Definition saved_instance (w : World) (v : TaskValues) (day : Z) (task : Task)
  : TaskInstance :=
  {| i_id := t_id task; i_userId := t_userId task; i_title := v_title v;
     i_description := v_description v; i_priority := v_priority v;
     i_endDate := day;
     i_createdAt := t_createdAt task; i_updatedAt := t_updatedAt task;
     i_created_at := t_createdAt task; i_updated_at := now w |}.

(** [task.save()] on a loaded instance after assignments [v]: only the
    attributes that changed are validated and written; when none changed
    no statement is issued.  The UPDATE fails on a NUL character in a
    written text and on a written day outside the range of DATE. *)
Definition Task_save (db : Store) (w : World) (task : Task) (v : TaskValues)
  : SaveResult TaskInstance :=
  let c_title := negb (String.eqb (v_title v) (t_title task)) in
  let c_desc := negb (option_string_eqb (v_description v) (t_description task)) in
  let c_prio := negb (String.eqb (v_priority v) (t_priority task)) in
  let c_date := endDate_changed (t_endDate task) (v_endDate v) in
  if negb (c_title || c_desc || c_prio || c_date) then Saved (loaded task) db
  else
    let errors : list verr :=
      ((if c_title then title_errors (v_title v) else [])
       ++ (if c_prio then priority_errors (v_priority v) else [])
       ++ (if c_date then endDate_errors (v_endDate v) else []))%list in
    match errors, date_value (v_endDate v) with
    | [], Some day =>
        if (c_title && negb (storable_text (v_title v)))
           || (c_desc && negb (storable_opt (v_description v)))
           || (c_date && negb (date_in_range L day))
        then OtherError
        else
          Saved (saved_instance w v day task)
            {| users := users db;
               tasks := map (write_task w (t_id task) v day) (tasks db);
               users_seq := users_seq db; tasks_seq := tasks_seq db |}
    | [], None => OtherError
    | errors, _ => SequelizeValidationError errors
    end.

(** [task.destroy()]: DELETE of the row with the task's primary key. *)
Definition Task_destroy (db : Store) (task : Task) : Store :=
  {| users := users db;
     tasks := filter (fun t => negb (t_id t =? t_id task)) (tasks db);
     users_seq := users_seq db; tasks_seq := tasks_seq db |}.

(** Removal of a user row by the database administrator; the foreign key
    of [tasks] is declared ON DELETE CASCADE. *)
Definition delete_user (db : Store) (id : Z) : Store :=
  {| users := filter (fun u => negb (u_id u =? id)) (users db);
     tasks := filter (fun t => negb (t_userId t =? id)) (tasks db);
     users_seq := users_seq db; tasks_seq := tasks_seq db |}.

(** ** Task listing query *)

Inductive Column := EndDate | Priority | CreatedAt.

Inductive OrderExpr :=
| PriorityCase              (**r the CASE literal of [getTasks] *)
| Col (c : Column).

Inductive Direction := Asc | Desc.

(** [CASE WHEN priority = 'high' THEN 1 WHEN priority = 'medium' THEN 2
    WHEN priority = 'low' THEN 3 END]; without a matching branch the value
    is NULL, here [None]. *)
Definition priority_rank (priority : string) : option Z :=
  if String.eqb priority "high" then Some 1
  else if String.eqb priority "medium" then Some 2
  else if String.eqb priority "low" then Some 3
  else None.

(** Ascending comparison of nullable integers as PostgreSQL orders them:
    NULL counts as larger than every value. *)
Definition null_last_leb (a b : option Z) : bool :=
  match a, b with
  | Some x, Some y => x <=? y
  | _, None => true
  | None, Some _ => false
  end.

Definition expr_leb (e : OrderExpr) (a b : Task) : bool :=
  match e with
  | PriorityCase =>
      null_last_leb (priority_rank (t_priority a)) (priority_rank (t_priority b))
  | Col EndDate => t_endDate a <=? t_endDate b
  | Col CreatedAt => t_createdAt a <=? t_createdAt b
  | Col Priority => String.leb (t_priority a) (t_priority b)
  end.

(** [a] may stand before [b] under ORDER BY [e] [d]. *)
Definition order_leb (e : OrderExpr) (d : Direction) (a b : Task) : bool :=
  match d with
  | Asc => expr_leb e a b
  | Desc => expr_leb e b a
  end.

Fixpoint insert_row (leb : Task -> Task -> bool) (x : Task) (l : list Task)
  : list Task :=
  match l with
  | [] => [x]
  | y :: r => if leb x y then x :: l else y :: insert_row leb x r
  end.

(** Sorting by insertion: rows with equal keys stay in the order in
    which the list gives them. *)
Fixpoint order_by (leb : Task -> Task -> bool) (l : list Task) : list Task :=
  match l with
  | [] => []
  | x :: r => insert_row leb x (order_by leb r)
  end.

(** The rows in the order in which the database meets them. *)
Definition scanned (w : World) (l : list Task) : list Task :=
  order_by (fun a b => scan_position w (t_id a) <=? scan_position w (t_id b)) l.

(** ORDER BY [e] [d]: the rows sorted by the order expression; SQL leaves
    the order of rows with equal keys to the executor, so they come in the
    order of the scan. *)
Definition ordered_rows (w : World) (e : OrderExpr) (d : Direction)
    (l : list Task) : list Task :=
  order_by (order_leb e d) (scanned w l).

(** The direction word of an order item, which Sequelize reads without
    regard to case. *)
Definition direction_of (word : string) : option Direction :=
  let u := Js.toUpperCase word in
  if String.eqb u "ASC" then Some Asc
  else if String.eqb u "DESC" then Some Desc
  else None.

Definition owned_by (userId : Z) (t : Task) : bool := t_userId t =? userId.

(** The largest value of PostgreSQL's type bigint. *)
Definition max_bigint : Z := 2 ^ 63 - 1.

(** [Task.findAndCountAll({ where: { userId }, limit, offset, order })]:
    the count of all matching rows and the requested window of them.
    An order item whose direction is no direction word is not a valid
    query, and PostgreSQL takes for LIMIT and OFFSET only a number that is
    not negative and fits the type bigint. *)
Definition Task_findAndCountAll (db : Store) (w : World) (userId : Z)
    (limit offset : Js.num) (e : OrderExpr) (word : string)
  : option (Z * list Task) :=
  match direction_of word, limit, offset with
  | Some d, Js.Int l, Js.Int o =>
      if (0 <=? l) && (l <=? max_bigint) && (0 <=? o) && (o <=? max_bigint)
      then
        let matching := filter (owned_by userId) (tasks db) in
        Some (Z.of_nat (List.length matching),
              firstn (Z.to_nat l)
                (skipn (Z.to_nat o) (ordered_rows w e d matching)))
      else None
  | _, _, _ => None
  end.

(** ** Controllers *)

Definition json_opt_string (x : option string) : json :=
  match x with
  | Some s => JStr s
  | None => JNull
  end.

(** The attributes [getTasks] selects. *)
Definition task_attributes (t : Task) : json :=
  JObj [("id", JNum (t_id t));
        ("title", JStr (t_title t));
        ("description", json_opt_string (t_description t));
        ("priority", JStr (t_priority t));
        ("endDate", JNum (t_endDate t));
        ("createdAt", JNum (t_createdAt t));
        ("updatedAt", JNum (t_updatedAt t))].

(** A whole task instance in a response: every attribute of the
    instance. *)
Definition task_json (t : TaskInstance) : json :=
  JObj [("id", JNum (i_id t));
        ("userId", JNum (i_userId t));
        ("title", JStr (i_title t));
        ("description", json_opt_string (i_description t));
        ("priority", JStr (i_priority t));
        ("endDate", JNum (i_endDate t));
        ("createdAt", JNum (i_createdAt t));
        ("updatedAt", JNum (i_updatedAt t));
        ("created_at", JNum (i_created_at t));
        ("updated_at", JNum (i_updated_at t))].

(** A number in a response; JSON has no infinities and no [NaN]. *)
Definition json_num (n : Js.num) : json :=
  match n with
  | Js.Int z => JNum z
  | _ => JNull
  end.

Definition errors_json (errors : list verr) : json :=
  JArr (map (fun e => JObj [("field", JStr (fst e)); ("message", JStr (snd e))])
          errors).

(** [parseInt(req.query.x)] *)
Definition parseInt_query (x : option qval) : Js.num :=
  match x with
  | None => Js.NaN
  | Some (QStr s) => Js.parseInt s
  | Some (QNum n) => Js.parseInt_number (number_text L) n
  end.

Definition sortMapping (sortBy : string) : option Column :=
  if String.eqb sortBy "end_date" then Some EndDate
  else if String.eqb sortBy "priority" then Some Priority
  else if String.eqb sortBy "created_at" then Some CreatedAt
  else None.

Definition page_of (q : Query) : Js.num := Js.num_or (parseInt_query (q_page q)) 1.
Definition limit_of (q : Query) : Js.num := Js.num_or (parseInt_query (q_limit q)) 10.
Definition offset_of (q : Query) : Js.num :=
  Js.mul (Js.sub (page_of q) (Js.Int 1)) (limit_of q).
Definition sortBy_of (q : Query) : string := Js.str_or (q_sortBy q) "end_date".
Definition order_of (q : Query) : string := Js.str_or (q_order q) "asc".

Definition orderClause (q : Query) : OrderExpr * string :=
  if String.eqb (sortBy_of q) "priority" then (PriorityCase, order_of q)
  else
    (Col (match sortMapping (sortBy_of q) with Some c => c | None => EndDate end),
     Js.toUpperCase (order_of q)).

(** The rows and the count [getTasks] obtains for a user. *)
Definition getTasks_rows (db : Store) (w : World) (userId : Z) (q : Query)
  : option (Z * list Task) :=
  Task_findAndCountAll db w userId (limit_of q) (offset_of q)
    (fst (orderClause q)) (snd (orderClause q)).

Definition getTasks (db : Store) (w : World) (req : Request) : Response :=
  let q := query req in
  let page := page_of q in
  let limit := limit_of q in
  match user req with
  | None => failure 500 "Server error. Could not fetch tasks."
  | Some u =>
      match getTasks_rows db w (ui_id u) q with
      | None => failure 500 "Server error. Could not fetch tasks."
      | Some (count, rows) =>
          let totalPages := Js.ceil_quot count limit in
          respond 200
            (JObj [("success", JBool true);
                   ("count", JNum (Z.of_nat (List.length rows)));
                   ("pagination",
                    JObj [("currentPage", json_num page);
                          ("totalPages", json_num totalPages);
                          ("totalTasks", JNum count);
                          ("limit", json_num limit);
                          ("hasNext", JBool (Js.ltb page totalPages));
                          ("hasPrev", JBool (Js.ltb (Js.Int 1) page))]);
                   ("tasks", JArr (map task_attributes rows))])
      end
  end.

Definition getTask (db : Store) (req : Request) : Response :=
  match user req, params_id req with
  | Some u, Some id =>
      match Task_findOne db id (ui_id u) with
      | None =>
          failure 404 "Task not found or you do not have permission to view it."
      | Some task =>
          respond 200
            (JObj [("success", JBool true); ("task", task_json (loaded task))])
      end
  | _, _ => failure 500 "Server error. Could not fetch task."
  end.

Definition validation_error (errors : list verr) : Response :=
  respond 400
    (JObj [("success", JBool false);
           ("message", JStr "Validation error");
           ("errors", errors_json errors)]).

Definition createTask (db : Store) (w : World) (req : Request)
  : Response * Store :=
  let b := body_in req in
  match user req with
  | None => (failure 500 "Server error. Could not create task.", db)
  | Some u =>
      match Task_create db w (ui_id u) (b_title b) (b_description b)
              (b_priority b) (b_endDate b) with
      | Saved task db' =>
          (respond 201
             (JObj [("success", JBool true);
                    ("message", JStr "Task created successfully");
                    ("task", task_json task)]), db')
      | SequelizeValidationError errors => (validation_error errors, db)
      | OtherError => (failure 500 "Server error. Could not create task.", db)
      end
  end.

(** [x || old] for a date-valued field. *)
Definition date_or (x : option dval) (old : Z) : dval :=
  match x with
  | Some (DDate d) => DDate d
  | Some (DStr EmptyString) => DDate old
  | Some (DStr s) => DStr s
  | Some DNull => DDate old
  | None => DDate old
  end.

Definition updateTask (db : Store) (w : World) (req : Request)
  : Response * Store :=
  let b := body_in req in
  match user req, params_id req with
  | Some u, Some id =>
      match Task_findOne db id (ui_id u) with
      | None =>
          (failure 404
             "Task not found or you do not have permission to update it.", db)
      | Some task =>
          let v :=
            {| v_title := Js.str_or (b_title b) (t_title task);
               v_description :=
                 match b_description b with
                 | Some d => Some d
                 | None => t_description task
                 end;
               v_priority := Js.str_or (b_priority b) (t_priority task);
               v_endDate := date_or (b_endDate b) (t_endDate task) |} in
          match Task_save db w task v with
          | Saved task' db' =>
              (respond 200
                 (JObj [("success", JBool true);
                        ("message", JStr "Task updated successfully");
                        ("task", task_json task')]), db')
          | SequelizeValidationError errors => (validation_error errors, db)
          | OtherError =>
              (failure 500 "Server error. Could not update task.", db)
          end
      end
  | _, _ => (failure 500 "Server error. Could not update task.", db)
  end.

Definition deleteTask (db : Store) (req : Request) : Response * Store :=
  match user req, params_id req with
  | Some u, Some id =>
      match Task_findOne db id (ui_id u) with
      | None =>
          (failure 404
             "Task not found or you do not have permission to delete it.", db)
      | Some task =>
          (respond 200
             (JObj [("success", JBool true);
                    ("message", JStr "Task deleted successfully")]),
           Task_destroy db task)
      end
  | _, _ => (failure 500 "Server error. Could not delete task.", db)
  end.

(** ** Validation chains (express-validator) and [validate]

    A chain reads one field.  Validators see the field as a string
    ([undefined] as the empty string) and each failing validator records
    one error under the message that follows it; sanitizers write their
    result back to the request.  A chain marked [optional()] is skipped
    when the field is [undefined]. *)

Definition str_of (x : option string) : string :=
  match x with
  | Some s => s
  | None => EmptyString
  end.

Definition notEmpty (s : string) : bool :=
  match s with
  | EmptyString => false
  | _ => true
  end.

Definition registerValidation (b : Body) : Body * list verr :=
  let name := Js.trim (str_of (b_name b)) in
  let email := Js.trim (str_of (b_email b)) in
  let password := str_of (b_password b) in
  ({| b_name := Some name;
      b_email := Some (normalizeEmail L email);
      b_password := b_password b;
      b_title := b_title b; b_description := b_description b;
      b_priority := b_priority b; b_endDate := b_endDate b |},
   (check (notEmpty name) "name" "Name is required"
    ++ check ((2 <=? len name) && (len name <=? 100)) "name"
         "Name must be between 2 and 100 characters"
    ++ check (notEmpty email) "email" "Email is required"
    ++ check (isEmail L email) "email" "Please provide a valid email address"
    ++ check (notEmpty password) "password" "Password is required"
    ++ check (6 <=? len password) "password"
         "Password must be at least 6 characters long")%list).

Definition loginValidation (b : Body) : Body * list verr :=
  let email := Js.trim (str_of (b_email b)) in
  let password := str_of (b_password b) in
  ({| b_name := b_name b;
      b_email := Some (normalizeEmail L email);
      b_password := b_password b;
      b_title := b_title b; b_description := b_description b;
      b_priority := b_priority b; b_endDate := b_endDate b |},
   (check (notEmpty email) "email" "Email is required"
    ++ check (isEmail L email) "email" "Please provide a valid email address"
    ++ check (notEmpty password) "password" "Password is required")%list).

(** The string validators read from a date-valued field. *)
Definition dval_str (x : option dval) : string :=
  match x with
  | Some (DStr s) => s
  | _ => EmptyString
  end.

(** Sanitizer [toDate()] *)
Definition toDate_sanitizer (s : string) : dval :=
  match toDate L s with
  | Some d => DDate d
  | None => DNull
  end.

Definition taskValidation (b : Body) : Body * list verr :=
  let title := Js.trim (str_of (b_title b)) in
  let priority := str_of (b_priority b) in
  let endDate := dval_str (b_endDate b) in
  ({| b_name := b_name b; b_email := b_email b; b_password := b_password b;
      b_title := Some title;
      b_description := option_map Js.trim (b_description b);
      b_priority := b_priority b;
      b_endDate := Some (toDate_sanitizer endDate) |},
   (check (notEmpty title) "title" "Title is required"
    ++ check (len title <=? 255) "title" "Title cannot exceed 255 characters"
    ++ check (notEmpty priority) "priority" "Priority is required"
    ++ check (Js.isIn priority priorities) "priority"
         "Priority must be low, medium, or high"
    ++ check (notEmpty endDate) "endDate" "End date is required"
    ++ check (isISO8601 L endDate) "endDate"
         "End date must be a valid date (YYYY-MM-DD)")%list).

(** The string validators read from a query parameter. *)
Definition qval_str (v : qval) : string :=
  match v with
  | QStr s => s
  | QNum n => Js.num_to_string (number_text L) n
  end.

(** Sanitizer [toInt()] *)
Definition toInt (v : qval) : qval := QNum (Js.parseInt10 (qval_str v)).

Definition paginationValidation (q : Query) : Query * list verr :=
  ({| q_page := option_map toInt (q_page q);
      q_limit := option_map toInt (q_limit q);
      q_sortBy := q_sortBy q;
      q_order := q_order q |},
   (match q_page q with
    | None => []
    | Some v =>
        check (Js.isInt (qval_str v) (Some 1) None) "page"
          "Page must be a positive integer"
    end
    ++ match q_limit q with
       | None => []
       | Some v =>
           check (Js.isInt (qval_str v) (Some 1) (Some 100)) "limit"
             "Limit must be between 1 and 100"
       end
    ++ match q_sortBy q with
       | None => []
       | Some s =>
           check (Js.isIn s ["end_date"; "priority"; "created_at"]) "sortBy"
             "SortBy must be end_date, priority, or created_at"
       end
    ++ match q_order q with
       | None => []
       | Some s => check (Js.isIn s ["asc"; "desc"]) "order"
                     "Order must be asc or desc"
       end)%list).

(** Middleware [validate]: [Some] response when it answers itself, [None]
    when it calls [next()]. *)
Definition validate (errors : list verr) : option Response :=
  match errors with
  | [] => None
  | _ =>
      Some (respond 400
              (JObj [("success", JBool false);
                     ("message", JStr "Validation failed");
                     ("errors", errors_json errors)]))
  end.

(** ** Auth gate *)

(** The token [protect] picks: the cookie when it is set, else the piece
    after the first space of a header that starts with [Bearer]. *)
Definition pick_token (req : Request) : option Token :=
  let from_header :=
    match headers_authorization req with
    | Some h => if Js.startsWith (ah_first h) "Bearer" then ah_second h else None
    | None => None
    end in
  match cookies_token req with
  | Some t => if token_truthy t then Some t else from_header
  | None => from_header
  end.

(** Middleware [protect]: a response when it answers itself, the request
    with [req.user] set when it calls [next()]. *)
Definition protect (env : Env) (db : Store) (w : World) (req : Request)
  : Response + Request :=
  let no_token :=
    failure 401 "Not authorized to access this route. Please login." in
  match pick_token req with
  | None => inl no_token
  | Some token =>
      if negb (token_truthy token) then inl no_token
      else
        match jwt_verify (now w) token (JWT_SECRET env) with
        | Decoded id =>
            match User_findByPk db id with
            | None => inl (failure 401 "User not found. Token is invalid.")
            | Some u => inr (set_user req u)
            end
        | TokenExpiredError =>
            inl (failure 401 "Token has expired. Please login again.")
        | JsonWebTokenError =>
            inl (failure 401 "Invalid token. Please login again.")
        end
  end.

(** ** Auth controller *)

Definition seven_days : Z := 7 * 24 * 60 * 60.

(** [generateToken(id)]: [jwt.sign({ id }, secret, { expiresIn })], which
    throws ([None]) for an empty secret and for an [expiresIn] that is no
    time span. *)
Definition generateToken (env : Env) (w : World) (id : Z) : option Token :=
  let iat := now w / 1000 in
  match JWT_SECRET env, JWT_EXPIRE env with
  | EmptyString, _ => None
  | _, Some NoSpan => None
  | secret, Some (Span s) => Some (Jwt id iat (iat + s) secret)
  | secret, None => Some (Jwt id iat (iat + seven_days) secret)
  end.

Definition optional_string_eqb (a : option string) (b : string) : bool :=
  match a with
  | Some s => String.eqb s b
  | None => false
  end.

Definition sendTokenResponse (env : Env) (w : World) (token : Token)
    (statusCode : Z) (u : UserInstance) : Response :=
  {| status := statusCode;
     cookies :=
       [{| c_name := "token"; c_value := token;
           c_expires := now w + seven_days * 1000;
           c_httpOnly := true;
           c_sameSite := Some "strict";
           c_secure := Some (optional_string_eqb (NODE_ENV env) "production") |}];
     body :=
       JObj [("success", JBool true);
             ("message",
              JStr (if statusCode =? 201 then "Registration successful"
                    else "Login successful"));
             ("token", JTok token);
             ("user",
              JObj [("id", JNum (ui_id u));
                    ("name", JStr (ui_name u));
                    ("email", JStr (ui_email u))])] |}.

Definition register (env : Env) (db : Store) (w : World) (req : Request)
  : Response * Store :=
  let b := body_in req in
  let server_error :=
    failure 500 "Server error during registration. Please try again." in
  match b_email b with
  | None => (server_error, db)
  | Some email =>
      match User_findOne_email db email with
      | Some _ =>
          (failure 400 "Email already registered. Please login instead.", db)
      | None =>
          match User_create db w (b_name b) (b_email b) (b_password b) with
          | Saved u db' =>
              match generateToken env w (ui_id u) with
              | Some token => (sendTokenResponse env w token 201 u, db')
              | None => (server_error, db')
              end
          | SequelizeValidationError errors => (validation_error errors, db)
          | OtherError => (server_error, db)
          end
      end
  end.

Definition login (env : Env) (db : Store) (w : World) (req : Request)
  : Response :=
  let b := body_in req in
  let server_error := failure 500 "Server error during login. Please try again." in
  let invalid :=
    failure 401 "Invalid credentials. Please check your email and password." in
  match b_email b with
  | None => server_error
  | Some email =>
      match User_findOne_email db email with
      | None => invalid
      | Some u =>
          match b_password b with
          | None => server_error
          | Some password =>
              match comparePassword u password with
              | None => server_error
              | Some false => invalid
              | Some true =>
                  match generateToken env w (ui_id u) with
                  | Some token => sendTokenResponse env w token 200 u
                  | None => server_error
                  end
              end
          end
      end
  end.

Definition logout (w : World) (req : Request) : Response :=
  {| status := 200;
     cookies :=
       [{| c_name := "token"; c_value := Opaque "none";
           c_expires := now w + 10 * 1000;
           c_httpOnly := true;
           c_sameSite := None;
           c_secure := None |}];
     body := JObj [("success", JBool true);
                   ("message", JStr "Logout successful")] |}.

Definition getMe (db : Store) (req : Request) : Response :=
  let server_error := failure 500 "Server error. Could not fetch user data." in
  match user req with
  | None => server_error
  | Some requester =>
      match User_findByPk db (ui_id requester) with
      | None => server_error
      | Some u =>
          respond 200
            (JObj [("success", JBool true);
                   ("user",
                    JObj [("id", JNum (ui_id u));
                          ("name", JStr (ui_name u));
                          ("email", JStr (ui_email u));
                          ("createdAt", JNum (ui_createdAt u))])])
      end
  end.

(** ** Routes (authRoutes, taskRoutes) *)

Inductive Endpoint :=
| POST_auth_register
| POST_auth_login
| POST_auth_logout
| GET_auth_me
| GET_tasks
| POST_tasks
| GET_tasks_id
| PUT_tasks_id
| DELETE_tasks_id.

(** [protect] followed by the rest of a route. *)
Definition protected (env : Env) (db : Store) (w : World) (req : Request)
    (next : Request -> Response * Store) : Response * Store :=
  match protect env db w req with
  | inl r => (r, db)
  | inr req' => next req'
  end.

(** [validate] followed by the rest of a route. *)
Definition validated (db : Store) (errors : list verr)
    (next : Response * Store) : Response * Store :=
  match validate errors with
  | Some r => (r, db)
  | None => next
  end.

Definition route (env : Env) (e : Endpoint) (db : Store) (w : World)
    (req : Request) : Response * Store :=
  match e with
  | POST_auth_register =>
      let '(b, errors) := registerValidation (body_in req) in
      validated db errors (register env db w (set_body req b))
  | POST_auth_login =>
      let '(b, errors) := loginValidation (body_in req) in
      validated db errors (login env db w (set_body req b), db)
  | POST_auth_logout =>
      protected env db w req (fun req => (logout w req, db))
  | GET_auth_me =>
      protected env db w req (fun req => (getMe db req, db))
  | GET_tasks =>
      protected env db w req (fun req =>
        let '(q, errors) := paginationValidation (query req) in
        validated db errors (getTasks db w (set_query req q), db))
  | POST_tasks =>
      protected env db w req (fun req =>
        let '(b, errors) := taskValidation (body_in req) in
        validated db errors (createTask db w (set_body req b)))
  | GET_tasks_id =>
      protected env db w req (fun req => (getTask db req, db))
  | PUT_tasks_id =>
      protected env db w req (fun req =>
        let '(b, errors) := taskValidation (body_in req) in
        validated db errors (updateTask db w (set_body req b)))
  | DELETE_tasks_id =>
      protected env db w req (fun req => deleteTask db req)
  end.

End App.

Arguments Saved {A}.
Arguments SequelizeValidationError {A}.
Arguments OtherError {A}.

(** ** A concrete instance of the library parameters and sample data

    Used to run the model on examples.  Dates are read in the form
    YYYY-MM-DD and numbered so that the order of days is kept; the digest
    and the text of large numbers are stand-ins with none of the
    properties of the real ones. *)

Definition sample_isISO8601 (s : string) : bool :=
  match s with
  | String y1 (String y2 (String y3 (String y4 (String d1
      (String m1 (String m2 (String d2 (String a1 (String a2 EmptyString))))))))) =>
      Js.is_digit y1 && Js.is_digit y2 && Js.is_digit y3 && Js.is_digit y4
      && Ascii.eqb d1 "-" && Js.is_digit m1 && Js.is_digit m2
      && Ascii.eqb d2 "-" && Js.is_digit a1 && Js.is_digit a2
  | _ => false
  end.

Definition sample_toDate (s : string) : option Z :=
  if sample_isISO8601 s then
    Some (Js.digits_val 0 (substring 0 4 s) * 10000
          + Js.digits_val 0 (substring 5 2 s) * 100
          + Js.digits_val 0 (substring 8 2 s))
  else None.

Fixpoint has_at (s : string) : bool :=
  match s with
  | EmptyString => false
  | String c r => Ascii.eqb c "@" || has_at r
  end.

Definition sample_lib : Lib :=
  {| isEmail := has_at;
     normalizeEmail := fun s => s;
     isISO8601 := sample_isISO8601;
     toDate := sample_toDate;
     bcrypt_digest := fun salt key => "digest(" ++ key ++ ")";
     number_text := fun z => "1e+21";
     date_in_range := fun day => 10000 <? day |}.

Definition sample_env : Env :=
  {| JWT_SECRET := "s3cret"; JWT_EXPIRE := None; NODE_ENV := None |}.

(** The database clock runs 7 ms ahead of the server's, and rows are met
    in the order of their ids. *)
Definition sample_world (t : Z) : World :=
  {| now := t; db_now := t + 7; salt_text := "abcdefghijklmnopqrstuv";
     scan_position := fun id => id |}.

Definition empty_store : Store :=
  {| users := []; tasks := []; users_seq := 1; tasks_seq := 1 |}.

Definition no_query : Query :=
  {| q_page := None; q_limit := None; q_sortBy := None; q_order := None |}.

Definition no_body : Body :=
  {| b_name := None; b_email := None; b_password := None; b_title := None;
     b_description := None; b_priority := None; b_endDate := None |}.

Definition blank_request : Request :=
  {| cookies_token := None; headers_authorization := None; query := no_query;
     params_id := None; body_in := no_body; user := None |}.

(** A query as Express hands it over: every parameter a string. *)
Definition from_strings (page limit sortBy order : option string) : Query :=
  {| q_page := option_map QStr page; q_limit := option_map QStr limit;
     q_sortBy := sortBy; q_order := order |}.

Definition bearer (t : Token) : option AuthHeader :=
  Some {| ah_first := "Bearer"; ah_second := Some t |}.

Definition with_bearer (t : Token) (req : Request) : Request :=
  {| cookies_token := cookies_token req;
     headers_authorization := bearer t;
     query := query req; params_id := params_id req;
     body_in := body_in req; user := user req |}.

Definition with_query (q : Query) (req : Request) : Request := set_query req q.

Definition with_id (id : Z) (req : Request) : Request :=
  {| cookies_token := cookies_token req;
     headers_authorization := headers_authorization req;
     query := query req; params_id := Some id;
     body_in := body_in req; user := user req |}.

Definition task_body (title description priority endDate : option string) : Body :=
  {| b_name := None; b_email := None; b_password := None;
     b_title := title; b_description := description;
     b_priority := priority; b_endDate := option_map DStr endDate |}.

Definition user_body (name email password : option string) : Body :=
  {| b_name := name; b_email := email; b_password := password;
     b_title := None; b_description := None; b_priority := None;
     b_endDate := None |}.

Definition sample_hash (password : string) : string :=
  bcrypt_hash sample_lib password (bcrypt_genSalt 10 "abcdefghijklmnopqrstuv").

Definition jane : User :=
  {| u_id := 1; u_name := "Jane"; u_email := "jane@x.com";
     u_password := sample_hash "secret1"; u_createdAt := 1000 |}.

Definition bob : User :=
  {| u_id := 2; u_name := "Bob"; u_email := "bob@x.com";
     u_password := sample_hash "hunter22"; u_createdAt := 2000 |}.

Definition mk_task (id owner : Z) (title priority : string) (day created : Z) : Task :=
  {| t_id := id; t_userId := owner; t_title := title; t_description := None;
     t_priority := priority; t_endDate := day; t_createdAt := created;
     t_updatedAt := created |}.

Definition sample_store : Store :=
  {| users := [jane; bob];
     tasks := [mk_task 1 1 "low one" "low" 20250101 3000;
               mk_task 2 2 "bob's" "high" 20250102 3100;
               mk_task 3 1 "high one" "high" 20250301 3200;
               mk_task 4 1 "medium one" "medium" 20250201 3300;
               mk_task 5 1 "high two" "high" 20250105 3400];
     users_seq := 3; tasks_seq := 6 |}.

Definition jane_token : Token := Jwt 1 1 604801 "s3cret".

(** ** Vocabulary of the statements *)

(** Priority [p] is more urgent than priority [q]. *)
Definition outranks (p q : string) : Prop :=
  (p = "high" /\ (q = "medium" \/ q = "low")) \/ (p = "medium" /\ q = "low").

(** Position [i] of the list holds [x]. *)
Definition at_index {A : Type} (l : list A) (i : nat) (x : A) : Prop :=
  nth_error l i = Some x.

(** No property named [password] anywhere in a serialized value. *)
Definition no_password_key (j : json) : Prop := ~ In "password" (json_keys j).

(** The window of a listing: skip [offset] rows, take [limit]. *)
Definition window (limit offset : Z) (l : list Task) : list Task :=
  firstn (Z.to_nat limit) (skipn (Z.to_nat offset) l).

(** Property [k2] of the object under property [k1]. *)
Definition get2 (k1 k2 : string) (j : json) : option json :=
  match get k1 j with
  | Some o => get k2 o
  | None => None
  end.

(** Jane's request for a listing, her token in the Authorization header. *)
Definition jane_lists (page limit sortBy order : option string) : Request :=
  with_query (from_strings page limit sortBy order)
    (with_bearer jane_token blank_request).

(** The number a supplied parameter denotes, or the default. *)
Definition supplied (x : option string) (d : Z) : Z :=
  match x with
  | Some s => match Js.int_literal s with Some v => v | None => d end
  | None => d
  end.

(** The order a listing is asked for: by the priority rank, by the
    creation time, or (also by default) by the end date; descending when
    asked so, ascending otherwise. *)
Definition requested_expr (sortBy : option string) : OrderExpr :=
  if optional_string_eqb sortBy "priority" then PriorityCase
  else if optional_string_eqb sortBy "created_at" then Col CreatedAt
  else Col EndDate.

Definition requested_direction (order : option string) : Direction :=
  if optional_string_eqb order "desc" then Desc else Asc.

(** [l'] holds the rows of [l], each as often as [l] does, in an order in
    which every row may stand before all the rows after it. *)
Definition arranged (leb : Task -> Task -> bool) (l l' : list Task) : Prop :=
  Permutation l' l /\ StronglySorted (fun a b => leb a b = true) l'.

(** What [paginationValidation] lets through, parameter by parameter. *)
Definition acceptable_page (page : option string) : Prop :=
  forall s, page = Some s -> exists v, Js.int_literal s = Some v /\ 1 <= v.

Definition acceptable_limit (limit : option string) : Prop :=
  forall s, limit = Some s -> exists v, Js.int_literal s = Some v /\ 1 <= v <= 100.

Definition acceptable_sortBy (sortBy : option string) : Prop :=
  forall s, sortBy = Some s -> In s ["end_date"; "priority"; "created_at"].

Definition acceptable_order (order : option string) : Prop :=
  forall s, order = Some s -> In s ["asc"; "desc"].

(** An entry of the [errors] array of a validation failure. *)
Definition error_entry (field message : string) : json :=
  JObj [("field", JStr field); ("message", JStr message)].

(** The message each single-task endpoint gives when [findOne] finds
    nothing. *)
Definition not_found_message (e : Endpoint) : string :=
  match e with
  | GET_tasks_id => "Task not found or you do not have permission to view it."
  | PUT_tasks_id => "Task not found or you do not have permission to update it."
  | _ => "Task not found or you do not have permission to delete it."
  end.

(** Seconds a token issued under [env] stays valid. *)
Definition token_lifetime (env : Env) : Z :=
  match JWT_EXPIRE env with
  | Some (Span s) => s
  | _ => seven_days
  end.

(** The request carries token [t], in the cookie or, without a cookie, in
    a Bearer header. *)
Definition presents (req : Request) (t : Token) : Prop :=
  cookies_token req = Some t
  \/ (cookies_token req = None /\ headers_authorization req = bearer t).

(** The cookie [logout] sets. *)
Definition logout_cookie (w : World) : Cookie :=
  {| c_name := "token"; c_value := Opaque "none";
     c_expires := now w + 10 * 1000; c_httpOnly := true;
     c_sameSite := None; c_secure := None |}.

(** The sample store before Bob created his task. *)
Definition store_without_task_2 : Store :=
  {| users := users sample_store;
     tasks := filter (fun t => negb (t_id t =? 2)) (tasks sample_store);
     users_seq := 3; tasks_seq := 6 |}.

(** Every property name the application ever writes into a response. *)
Definition response_keys : list string :=
  ["success"; "message"; "errors"; "field"; "token"; "user"; "id"; "name";
   "email"; "createdAt"; "count"; "pagination"; "currentPage"; "totalPages";
   "totalTasks"; "limit"; "hasNext"; "hasPrev"; "tasks"; "task"; "userId";
   "title"; "description"; "priority"; "endDate"; "updatedAt";
   "created_at"; "updated_at"].

Definition keys_within (r : Response) : Prop :=
  incl (json_keys (body r)) response_keys.

(** The user object of register and login, and that of GET /auth/me, for
    a user row: its id, name and email, and its creation time. *)
Definition user_summary (row : User) : json :=
  JObj [("id", JNum (u_id row)); ("name", JStr (u_name row));
        ("email", JStr (u_email row))].

Definition user_profile (row : User) : json :=
  JObj [("id", JNum (u_id row)); ("name", JStr (u_name row));
        ("email", JStr (u_email row)); ("createdAt", JNum (u_createdAt row))].

(** Kinds of response: without user or tasks, with the user object of a
    row of the store, with a listing of task rows of the store. *)
Definition plain (r : Response) : Prop :=
  keys_within r /\ get "user" (body r) = None /\ get "tasks" (body r) = None.

Definition with_user (form : User -> json) (db : Store) (r : Response) : Prop :=
  keys_within r /\ get "tasks" (body r) = None /\
  exists row, In row (users db) /\ get "user" (body r) = Some (form row).

Definition with_listing (db : Store) (r : Response) : Prop :=
  keys_within r /\ get "user" (body r) = None /\
  exists rows,
    Forall (fun t => In t (tasks db)) rows /\
    get "tasks" (body r) = Some (JArr (map task_attributes rows)).

(** What each endpoint may answer, [db] being the store it leaves. *)
Definition answer_form (e : Endpoint) (db : Store) (r : Response) : Prop :=
  match e with
  | POST_auth_register | POST_auth_login => plain r \/ with_user user_summary db r
  | GET_auth_me => plain r \/ with_user user_profile db r
  | GET_tasks => plain r \/ with_listing db r
  | _ => plain r
  end.

(** Two user rows that differ at most in the password column, and two
    stores that differ at most in the password columns. *)
Definition same_but_password (a b : User) : Prop :=
  u_id a = u_id b /\ u_name a = u_name b /\ u_email a = u_email b /\
  u_createdAt a = u_createdAt b.

Definition differ_in_passwords_only (db1 db2 : Store) : Prop :=
  Forall2 same_but_password (users db1) (users db2) /\
  tasks db1 = tasks db2 /\
  users_seq db1 = users_seq db2 /\ tasks_seq db1 = tasks_seq db2.

(** What [login] learns from the password column: whether the submitted
    password verifies against the hash of the user with the submitted
    email. *)
Definition login_check (L : Lib) (db : Store) (req : Request) : option bool :=
  let b := fst (loginValidation L (body_in req)) in
  match b_email b, b_password b with
  | Some email, Some password =>
      match User_findOne_email db email with
      | Some u => comparePassword L u password
      | None => None
      end
  | _, _ => None
  end.

Definition subset_check (l m : list string) : bool :=
  forallb (fun k => existsb (String.eqb k) m) l.

(** Two passwords of 73 characters that differ in the last one. *)
Definition seventy_two_a : string := string_of_list_ascii (repeat "a"%char 72).
Definition long_password_b : string := seventy_two_a ++ "b".
Definition long_password_c : string := seventy_two_a ++ "c".

Definition registration (name email password : string) : Request :=
  set_body blank_request (user_body (Some name) (Some email) (Some password)).

Definition credentials (email password : string) : Request :=
  set_body blank_request (user_body None (Some email) (Some password)).

(** Jane's PUT on her task 1 with the given body fields. *)
Definition jane_updates (title description priority endDate : option string)
  : Request :=
  with_id 1 (set_body (with_bearer jane_token blank_request)
               (task_body title description priority endDate)).

(** The rows of a user, in table order. *)
Definition owned_rows (db : Store) (userId : Z) : list Task :=
  filter (owned_by userId) (tasks db).

(** The response of a route, and the store it leaves. *)
Definition response_of (r : Response * Store) : Response := fst r.
Definition store_of (r : Response * Store) : Store := snd r.

(** ** CORS origin check (server.js) *)

(** [s.includes(sub)] *)
Fixpoint includes (s sub : string) : bool :=
  String.prefix sub s
  || match s with
     | EmptyString => false
     | String _ r => includes r sub
     end.

Inductive CorsDecision :=
| OriginAllowed
| NotAllowedByCORS.

(** [allowedOrigins], with [process.env.FRONTEND_URL] as a parameter. *)
Definition allowedOrigins (FRONTEND_URL : option string) : list string :=
  [Js.str_or FRONTEND_URL "http://localhost:5173";
   "http://localhost:5173";
   "http://localhost:3000"].

(** The [origin] function handed to [cors]: the decision it passes to its
    callback for the [Origin] header of a request. *)
Definition cors_origin (FRONTEND_URL : option string) (origin : option string)
  : CorsDecision :=
  match origin with
  | None => OriginAllowed
  | Some EmptyString => OriginAllowed
  | Some o =>
      if existsb (String.eqb o) (allowedOrigins FRONTEND_URL)
         || includes o "netlify.app"
      then OriginAllowed
      else NotAllowedByCORS
  end.

(** ** Further vocabulary *)

Definition set_authorization (req : Request) (h : option AuthHeader) : Request :=
  {| cookies_token := cookies_token req;
     headers_authorization := h;
     query := query req; params_id := params_id req;
     body_in := body_in req; user := user req |}.

Definition set_cookie_token (req : Request) (t : option Token) : Request :=
  {| cookies_token := t;
     headers_authorization := headers_authorization req;
     query := query req; params_id := params_id req;
     body_in := body_in req; user := user req |}.

(** What the auth gate decides, apart from the request it passes on: the
    response it gives, or the user it attaches. *)
Definition gate_outcome (x : Response + Request) : Response + option UserInstance :=
  match x with
  | inl r => inl r
  | inr req => inr (user req)
  end.

(** The constraints the schema and the SERIAL counters put on a store:
    primary keys and emails are unique, every key was drawn from its
    counter, and every task names an existing user. *)
Definition well_formed (db : Store) : Prop :=
  NoDup (map u_id (users db)) /\
  NoDup (map u_email (users db)) /\
  (forall u, In u (users db) -> u_id u < users_seq db) /\
  NoDup (map t_id (tasks db)) /\
  (forall t, In t (tasks db) -> t_id t < tasks_seq db) /\
  (forall t, In t (tasks db) -> exists u, In u (users db) /\ u_id u = t_userId t).

(** The ways a request can change the store, with the id of the user it
    acts for ([None] for a request that acts for nobody). *)
Inductive effect (db : Store) (w : World) : option Z -> Store -> Prop :=
| no_effect who : effect db w who db
| user_added row :
    u_id row = users_seq db ->
    (forall u, In u (users db) -> u_email u <> u_email row) ->
    effect db w None
      {| users := users db ++ [row]; tasks := tasks db;
         users_seq := users_seq db + 1; tasks_seq := tasks_seq db |}
| task_added uid row :
    t_id row = tasks_seq db ->
    t_userId row = uid ->
    (exists u, In u (users db) /\ u_id u = uid) ->
    effect db w (Some uid)
      {| users := users db; tasks := tasks db ++ [row];
         users_seq := users_seq db; tasks_seq := tasks_seq db + 1 |}
| task_written uid task v day :
    Task_findOne db (t_id task) uid = Some task ->
    effect db w (Some uid)
      {| users := users db;
         tasks := map (write_task w (t_id task) v day) (tasks db);
         users_seq := users_seq db; tasks_seq := tasks_seq db |}
| task_removed uid task :
    Task_findOne db (t_id task) uid = Some task ->
    effect db w (Some uid) (Task_destroy db task).

(** The request is answered for user id [uid]: it passes the auth gate,
    which attaches a user with that id. *)
Definition acts_for (env : Env) (db : Store) (w : World) (req : Request)
    (uid : Z) : Prop :=
  exists req' u,
    protect env db w req = inr req' /\ user req' = Some u /\ ui_id u = uid.

(** The environment lets [jwt.sign] make a token: the secret is not empty
    and [JWT_EXPIRE], when set, is a time span. *)
Definition signs (env : Env) : Prop :=
  JWT_SECRET env <> "" /\ JWT_EXPIRE env <> Some NoSpan.

(** Endpoints whose handlers issue no write. *)
Definition read_only (e : Endpoint) : Prop :=
  e = POST_auth_login \/ e = POST_auth_logout \/ e = GET_auth_me
  \/ e = GET_tasks \/ e = GET_tasks_id.

(** The column a listing not ordered by priority is ordered by. *)
Definition sort_key (sortBy : option string) (t : Task) : Z :=
  if optional_string_eqb sortBy "created_at" then t_createdAt t else t_endDate t.

(** * Properties *)

(** ** Strings and numbers *)

Lemma digit_not_space c : Js.is_digit c = true -> Js.is_space c = false.
Proof.
  unfold Js.is_digit, Js.is_space. intros H.
  apply andb_true_iff in H as [H1 H2].
  apply N.leb_le in H1. apply N.leb_le in H2.
  apply orb_false_iff. split; [apply orb_false_iff; split|].
  - apply N.eqb_neq. lia.
  - apply andb_false_iff. right. apply N.leb_gt. lia.
  - apply N.eqb_neq. lia.
Qed.

Lemma take_digits_all s : Js.all_digits s = true -> Js.take_digits s = s.
Proof.
  induction s as [|c r IH]; simpl; intros H; [reflexivity|].
  apply andb_true_iff in H as [Hc Hr]. rewrite Hc, IH; auto.
Qed.

Lemma ltrim_head s c r : Js.ltrim s = String c r -> Js.is_space c = false.
Proof.
  induction s as [|a t IH]; simpl; [discriminate|].
  destruct (Js.is_space a) eqn:E; auto.
  intros H. inversion H; subst. exact E.
Qed.

Lemma trim_not_blank s : notEmpty (Js.trim s) = true -> seq_notEmpty (Js.trim s) = true.
Proof.
  unfold Js.trim, seq_notEmpty.
  destruct (Js.ltrim (Js.rtrim s)) as [|c r] eqn:E; simpl; [discriminate|].
  intros _. rewrite (ltrim_head _ _ _ E). reflexivity.
Qed.

(** On a string that [isInt] accepts, [parseInt(str, 10)] is the number the
    literal denotes. *)
Lemma int_literal_parseInt10 s v :
  Js.int_literal s = Some v -> Js.parseInt10 s = Js.of_integer v.
Proof.
  destruct s as [|c r]; simpl; [discriminate|].
  unfold Js.parseInt10.
  destruct (Ascii.eqb c "-") eqn:Em.
  - apply Ascii.eqb_eq in Em; subst c.
    destruct r as [|d r']; [discriminate|].
    destruct (Js.all_digits (String d r')) eqn:Ed; [|discriminate].
    intros H; inversion H; subst; clear H.
    change (Js.ltrim (String "-" (String d r'))) with (String "-" (String d r')).
    cbv beta iota. change (Ascii.eqb "-" "-") with true. cbv iota beta.
    rewrite (take_digits_all _ Ed). reflexivity.
  - destruct (Ascii.eqb c "+") eqn:Ep.
    + apply Ascii.eqb_eq in Ep; subst c.
      destruct r as [|d r']; [discriminate|].
      destruct (Js.all_digits (String d r')) eqn:Ed; [|discriminate].
      intros H; inversion H; subst; clear H.
      change (Js.ltrim (String "+" (String d r'))) with (String "+" (String d r')).
      cbv beta iota. change (Ascii.eqb "+" "-") with false.
      change (Ascii.eqb "+" "+") with true. cbv iota beta.
      rewrite (take_digits_all _ Ed). reflexivity.
    + destruct (Js.is_digit c && Js.all_digits r) eqn:Ed; [|discriminate].
      intros H; inversion H; subst; clear H.
      pose proof Ed as Ed'. apply andb_true_iff in Ed' as [Hc Hr].
      assert (Hl : Js.ltrim (String c r) = String c r).
      { simpl. rewrite (digit_not_space _ Hc). reflexivity. }
      rewrite Hl. cbv beta iota. rewrite Em, Ep. cbv iota beta.
      assert (Ht : Js.take_digits (String c r) = String c r).
      { apply take_digits_all. simpl. exact Ed. }
      rewrite Ht. reflexivity.
Qed.

(** ** ORDER BY *)

Section Ordering.

Variable leb : Task -> Task -> bool.
Hypothesis leb_total : forall a b, leb a b = false -> leb b a = true.
Hypothesis leb_trans : forall a b c, leb a b = true -> leb b c = true -> leb a c = true.

Let R (a b : Task) : Prop := leb a b = true.

Lemma insert_row_In x y l : In y (insert_row leb x l) <-> y = x \/ In y l.
Proof.
  induction l as [|z r IH]; simpl.
  - intuition.
  - destruct (leb x z); simpl; rewrite ?IH; intuition.
Qed.

Lemma order_by_In y l : In y (order_by leb l) <-> In y l.
Proof.
  induction l as [|x r IH]; simpl; [tauto|].
  rewrite insert_row_In, IH. intuition.
Qed.

Lemma insert_row_perm x l : Permutation (insert_row leb x l) (x :: l).
Proof.
  induction l as [|y r IH]; simpl; [apply Permutation_refl|].
  destruct (leb x y); [apply Permutation_refl|].
  apply perm_trans with (y :: x :: r); [apply perm_skip, IH|apply perm_swap].
Qed.

(** ORDER BY neither drops nor repeats a row. *)
Lemma order_by_perm l : Permutation (order_by leb l) l.
Proof.
  induction l as [|x r IH]; simpl; [apply perm_nil|].
  apply perm_trans with (x :: order_by leb r);
    [apply insert_row_perm|apply perm_skip, IH].
Qed.

Lemma insert_row_sorted x l :
  StronglySorted R l -> StronglySorted R (insert_row leb x l).
Proof.
  induction 1 as [|y r Hs IH Hy]; simpl.
  - constructor; constructor.
  - destruct (leb x y) eqn:E.
    + constructor; [constructor; assumption|].
      constructor; [exact E|].
      rewrite Forall_forall in *. intros z Hz.
      apply (leb_trans x y z E). apply Hy, Hz.
    + constructor; [exact IH|].
      rewrite Forall_forall in *. intros z Hz.
      apply insert_row_In in Hz as [->|Hz]; [apply leb_total, E|apply Hy, Hz].
Qed.

Lemma order_by_sorted l : StronglySorted R (order_by leb l).
Proof.
  induction l as [|x r IH]; simpl; [constructor|].
  apply insert_row_sorted, IH.
Qed.

End Ordering.

Lemma In_firstn {A} (x : A) n l : In x (firstn n l) -> In x l.
Proof.
  revert l. induction n as [|n IH]; intros [|y r]; simpl; try tauto.
  intros [->|H]; auto.
Qed.

Lemma In_skipn {A} (x : A) n l : In x (skipn n l) -> In x l.
Proof.
  revert l. induction n as [|n IH]; intros [|y r]; simpl; try tauto.
  intros H. right. apply IH, H.
Qed.

Lemma sorted_skipn {A} (R : A -> A -> Prop) n l :
  StronglySorted R l -> StronglySorted R (skipn n l).
Proof.
  revert l. induction n as [|n IH]; intros l H; simpl; [exact H|].
  destruct l as [|x r]; [constructor|].
  apply IH. inversion H; assumption.
Qed.

Lemma sorted_firstn {A} (R : A -> A -> Prop) n l :
  StronglySorted R l -> StronglySorted R (firstn n l).
Proof.
  revert l. induction n as [|n IH]; intros l H; simpl; [constructor|].
  destruct l as [|x r]; [constructor|].
  inversion H; subst. constructor; [apply IH; assumption|].
  rewrite Forall_forall in *. intros z Hz.
  match goal with Hf : forall _, In _ r -> _ |- _ => apply Hf end.
  eapply In_firstn; eauto.
Qed.

Lemma sorted_index {A} (R : A -> A -> Prop) l :
  StronglySorted R l ->
  forall i j a b, (i < j)%nat -> at_index l i a -> at_index l j b -> R a b.
Proof.
  unfold at_index.
  induction 1 as [|x r Hs IH Hx]; intros i j a b Hij Ha Hb.
  - destruct i; discriminate.
  - destruct j as [|j]; [lia|]. simpl in Hb.
    destruct i as [|i]; simpl in Ha.
    + inversion Ha; subst. rewrite Forall_forall in Hx.
      apply Hx. eapply nth_error_In; eauto.
    + apply (IH i j); auto. lia.
Qed.

Lemma null_last_total a b : null_last_leb a b = false -> null_last_leb b a = true.
Proof.
  destruct a, b; simpl; try congruence. intros H.
  apply Z.leb_gt in H. apply Z.leb_le. lia.
Qed.

Lemma null_last_trans a b c :
  null_last_leb a b = true -> null_last_leb b c = true -> null_last_leb a c = true.
Proof.
  destruct a, b, c; simpl; try congruence. intros H1 H2.
  apply Z.leb_le in H1. apply Z.leb_le in H2. apply Z.leb_le. lia.
Qed.

Lemma priority_order_total d a b :
  order_leb PriorityCase d a b = false -> order_leb PriorityCase d b a = true.
Proof. destruct d; simpl; apply null_last_total. Qed.

Lemma priority_order_trans d a b c :
  order_leb PriorityCase d a b = true -> order_leb PriorityCase d b c = true ->
  order_leb PriorityCase d a c = true.
Proof.
  destruct d; simpl; intros H1 H2.
  - eapply null_last_trans; eauto.
  - eapply null_last_trans; eauto.
Qed.

Lemma column_order_total c d a b :
  c <> Priority ->
  order_leb (Col c) d a b = false -> order_leb (Col c) d b a = true.
Proof.
  intros Hc. destruct c; [|congruence|]; destruct d; simpl;
    rewrite Z.leb_gt, Z.leb_le; lia.
Qed.

Lemma column_order_trans c d x y z :
  c <> Priority ->
  order_leb (Col c) d x y = true -> order_leb (Col c) d y z = true ->
  order_leb (Col c) d x z = true.
Proof.
  intros Hc. destruct c; [|congruence|]; destruct d; simpl;
    rewrite !Z.leb_le; lia.
Qed.

Lemma requested_expr_cases sortBy :
  requested_expr sortBy = PriorityCase
  \/ exists c, requested_expr sortBy = Col c /\ c <> Priority.
Proof.
  unfold requested_expr.
  destruct (optional_string_eqb sortBy "priority"); [left; reflexivity|].
  destruct (optional_string_eqb sortBy "created_at"); right;
    eexists; (split; [reflexivity|discriminate]).
Qed.

(** ORDER BY puts the rows in the requested order, whatever the order of
    the scan. *)
Lemma ordered_rows_perm w e d l : Permutation (ordered_rows w e d l) l.
Proof.
  unfold ordered_rows, scanned.
  eapply perm_trans; apply order_by_perm.
Qed.

Lemma ordered_rows_In w e d l x : In x (ordered_rows w e d l) <-> In x l.
Proof.
  split; intros H.
  - eapply Permutation_in; [apply ordered_rows_perm|exact H].
  - eapply Permutation_in; [apply Permutation_sym, ordered_rows_perm|exact H].
Qed.

Lemma ordered_rows_arranged w sortBy d l :
  arranged (order_leb (requested_expr sortBy) d) l
    (ordered_rows w (requested_expr sortBy) d l).
Proof.
  split; [apply ordered_rows_perm|].
  unfold ordered_rows. apply order_by_sorted.
  - destruct (requested_expr_cases sortBy) as [->|(c & -> & Hc)];
      [apply priority_order_total|intros a b; apply column_order_total, Hc].
  - destruct (requested_expr_cases sortBy) as [->|(c & -> & Hc)];
      [apply priority_order_trans|intros a b c'; apply column_order_trans, Hc].
Qed.

Lemma window_sorted {R : Task -> Task -> Prop} limit offset l :
  StronglySorted R l -> StronglySorted R (window limit offset l).
Proof. intros H. unfold window. apply sorted_firstn, sorted_skipn, H. Qed.

Lemma window_In limit offset l x : In x (window limit offset l) -> In x l.
Proof.
  unfold window. intros H. apply In_firstn, In_skipn in H. exact H.
Qed.

Lemma window_length limit offset (l : list Task) :
  0 <= limit -> 0 <= offset ->
  Z.of_nat (List.length (window limit offset l))
  = Z.min limit (Z.max 0 (Z.of_nat (List.length l) - offset)).
Proof.
  intros Hl Ho. unfold window. rewrite length_firstn, length_skipn. lia.
Qed.

Lemma outranks_rank p q :
  outranks p q ->
  exists x y, priority_rank p = Some x /\ priority_rank q = Some y /\ x < y.
Proof.
  intros [[-> [->| ->]]|[-> ->]]; cbv [priority_rank]; simpl;
    do 2 eexists; repeat split; lia.
Qed.


(** Positions in a list ordered by the priority rank. *)
Lemma ranked_positions d rows :
  StronglySorted (fun a b => order_leb PriorityCase d a b = true) rows ->
  forall i j a b, at_index rows i a -> at_index rows j b ->
    ((i < j)%nat -> order_leb PriorityCase d a b = true) /\
    (outranks (t_priority a) (t_priority b) ->
     match d with Asc => (i < j)%nat | Desc => (j < i)%nat end).
Proof.
  intros Hsorted i j a b Hi Hj.
  pose proof (sorted_index _ _ Hsorted) as Hidx.
  split; [intros Hlt; apply (Hidx i j a b Hlt Hi Hj)|].
  intros Hout.
  destruct (outranks_rank _ _ Hout) as (x & y & Ex & Ey & Hxy).
  assert (Hne : i <> j).
  { intros ->. unfold at_index in *. rewrite Hi in Hj. inversion Hj; subst b.
    rewrite Ex in Ey. inversion Ey. lia. }
  destruct d.
  - destruct (Nat.lt_trichotomy i j) as [Hlt|[Heq|Hgt]]; [exact Hlt|contradiction|].
    pose proof (Hidx j i b a Hgt Hj Hi) as Hle. simpl in Hle.
    rewrite Ex, Ey in Hle. simpl in Hle. apply Z.leb_le in Hle. lia.
  - destruct (Nat.lt_trichotomy j i) as [Hlt|[Heq|Hgt]];
      [exact Hlt|symmetry in Heq; contradiction|].
    pose proof (Hidx i j a b Hgt Hi Hj) as Hle. simpl in Hle.
    rewrite Ex, Ey in Hle. simpl in Hle. apply Z.leb_le in Hle. lia.
Qed.

(** ** Middleware *)

Lemma protect_inr env db w req req' :
  protect env db w req = inr req' ->
  exists token id u,
    pick_token req = Some token /\ token_truthy token = true /\
    jwt_verify (now w) token (JWT_SECRET env) = Decoded id /\
    User_findByPk db id = Some u /\ req' = set_user req u.
Proof.
  unfold protect.
  destruct (pick_token req) as [token|]; [|discriminate].
  destruct (token_truthy token) eqn:Et; simpl; [|discriminate].
  destruct (jwt_verify (now w) token (JWT_SECRET env)) as [id| |] eqn:Ev;
    try discriminate.
  destruct (User_findByPk db id) as [u|] eqn:Eu; [|discriminate].
  intros H. inversion H; subst. exists token, id, u. auto.
Qed.

Lemma protect_inl_401 env db w req r :
  protect env db w req = inl r -> status r = 401 /\ get "tasks" (body r) = None.
Proof.
  unfold protect.
  destruct (pick_token req) as [token|];
    [|intros H; inversion H; subst; split; reflexivity].
  destruct (token_truthy token); simpl;
    [|intros H; inversion H; subst; split; reflexivity].
  destruct (jwt_verify (now w) token (JWT_SECRET env)) as [id| |];
    try (intros H; inversion H; subst; split; reflexivity).
  destruct (User_findByPk db id);
    intros H; inversion H; subst; split; reflexivity.
Qed.

Lemma check_nil ok field msg : check ok field msg = [] -> ok = true.
Proof. destruct ok; [reflexivity|discriminate]. Qed.

Lemma validate_nil errors : errors = [] -> validate errors = None.
Proof. intros ->. reflexivity. Qed.

Lemma validate_some errors :
  errors <> [] ->
  validate errors =
    Some (respond 400
            (JObj [("success", JBool false);
                   ("message", JStr "Validation failed");
                   ("errors", errors_json errors)])).
Proof. destruct errors; [congruence|reflexivity]. Qed.

Lemma route_GET_tasks L env db w req req' :
  protect env db w req = inr req' ->
  route L env GET_tasks db w req =
    validated db (snd (paginationValidation L (query req)))
      (getTasks L db w (set_query req' (fst (paginationValidation L (query req)))), db).
Proof.
  intros H. destruct (protect_inr _ _ _ _ _ H) as (t & id & u & _ & _ & _ & _ & ->).
  unfold route, protected. rewrite H. simpl query.
  destruct (paginationValidation L (query req)); reflexivity.
Qed.

(** ** Numbers *)

Lemma two53_below_max : Js.two53 <= Js.max_double.
Proof. apply Z.leb_le. vm_compute. reflexivity. Qed.

Lemma two53_below_1e21 : Js.two53 < 10 ^ 21.
Proof. apply Z.ltb_lt. vm_compute. reflexivity. Qed.

Lemma two53_below_bigint : Js.two53 <= max_bigint.
Proof. apply Z.leb_le. vm_compute. reflexivity. Qed.

Lemma hundred_below_two53 : 100 <= Js.two53.
Proof. apply Z.leb_le. vm_compute. reflexivity. Qed.

(** Up to 2^53 every integer is a number. *)
Lemma of_integer_exact z : Z.abs z <= Js.two53 -> Js.of_integer z = Js.Int z.
Proof.
  intros H. unfold Js.of_integer, Js.round_double. cbv zeta.
  destruct (Z.abs z <=? Js.two53) eqn:E; [|apply Z.leb_gt in E; lia].
  destruct (Z.abs z <=? Js.max_double) eqn:E2; [reflexivity|].
  apply Z.leb_gt in E2. pose proof two53_below_max. lia.
Qed.

(** ** Pagination parameters *)

Lemma isInt_inv s lo hi :
  Js.isInt s (Some lo) hi = true ->
  exists v, Js.int_literal s = Some v /\ lo <= v /\
            match hi with Some h => v <= h | None => True end.
Proof.
  unfold Js.isInt. destruct (Js.int_literal s) as [v|]; [|discriminate].
  intros H. apply andb_true_iff in H as [H1 H2]. apply Z.leb_le in H1.
  exists v. repeat split; auto.
  destruct hi; [apply Z.leb_le; exact H2|exact I].
Qed.

Lemma isIn_inv s vs : Js.isIn s vs = true -> In s vs.
Proof.
  unfold Js.isIn. intros H. apply existsb_exists in H as (x & Hx & E).
  apply String.eqb_eq in E. subst. exact Hx.
Qed.

Lemma sanitized_query L page limit sortBy order :
  fst (paginationValidation L (from_strings page limit sortBy order)) =
    {| q_page := option_map (fun s => QNum (Js.parseInt10 s)) page;
       q_limit := option_map (fun s => QNum (Js.parseInt10 s)) limit;
       q_sortBy := sortBy; q_order := order |}.
Proof. destruct page, limit; reflexivity. Qed.

Lemma pagination_accepts L page limit sortBy order :
  snd (paginationValidation L (from_strings page limit sortBy order)) = [] ->
  (forall s, page = Some s -> Js.isInt s (Some 1) None = true) /\
  (forall s, limit = Some s -> Js.isInt s (Some 1) (Some 100) = true) /\
  (forall s, sortBy = Some s -> In s ["end_date"; "priority"; "created_at"]) /\
  (forall s, order = Some s -> In s ["asc"; "desc"]).
Proof.
  unfold paginationValidation, from_strings.
  cbn [snd q_page q_limit q_sortBy q_order].
  intros H.
  apply app_eq_nil in H as [Hp H].
  apply app_eq_nil in H as [Hl H].
  apply app_eq_nil in H as [Hs Ho].
  repeat split; intros s ->.
  - apply check_nil in Hp. exact Hp.
  - apply check_nil in Hl. exact Hl.
  - apply check_nil in Hs. apply isIn_inv, Hs.
  - apply check_nil in Ho. apply isIn_inv, Ho.
Qed.

(** The number an accepted parameter denotes. *)
Lemma supplied_accepted x lo hi d :
  (forall s, x = Some s -> Js.isInt s (Some lo) hi = true) ->
  lo <= d -> match hi with Some h => d <= h | None => True end ->
  (x = None -> supplied x d = d) /\
  (forall s, x = Some s -> Js.int_literal s = Some (supplied x d)) /\
  lo <= supplied x d /\
  match hi with Some h => supplied x d <= h | None => True end.
Proof.
  intros Hx Hlo Hhi. destruct x as [s|]; cbn [supplied].
  - destruct (isInt_inv _ _ _ (Hx s eq_refl)) as (v & Ev & Hv & Hh).
    rewrite Ev. split; [discriminate|]. split; [|split; assumption].
    intros s' E. injection E as <-. exact Ev.
  - split; [reflexivity|]. split; [discriminate|]. split; assumption.
Qed.

(** What a handler computes from the number the sanitizer wrote back, for
    a parameter that is a number as it stands. *)
Lemma sanitized_number L x lo hi d :
  (forall s, x = Some s -> Js.isInt s (Some lo) hi = true) ->
  1 <= lo -> lo <= d ->
  supplied x d <= Js.two53 ->
  Js.num_or (parseInt_query L (option_map (fun s => QNum (Js.parseInt10 s)) x)) d
  = Js.Int (supplied x d).
Proof.
  intros Hx Hlo Hd Hb. destruct x as [s|]; cbn [option_map parseInt_query supplied].
  - destruct (isInt_inv _ _ _ (Hx s eq_refl)) as (v & Ev & Hv & _).
    cbn [supplied] in Hb. rewrite Ev in Hb |- *.
    rewrite (int_literal_parseInt10 _ _ Ev).
    rewrite of_integer_exact by lia.
    unfold Js.parseInt_number.
    pose proof two53_below_1e21.
    destruct (Z.abs v <? 10 ^ 21) eqn:E; [|apply Z.ltb_ge in E; lia].
    cbn [Js.num_or].
    destruct (v =? 0) eqn:E0; [apply Z.eqb_eq in E0; lia|reflexivity].
  - reflexivity.
Qed.

Lemma accepted_page_limit L page limit sortBy order :
  snd (paginationValidation L (from_strings page limit sortBy order)) = [] ->
  let q := fst (paginationValidation L (from_strings page limit sortBy order)) in
  let p := supplied page 1 in
  let l := supplied limit 10 in
  (page = None -> p = 1) /\
  (forall s, page = Some s -> Js.int_literal s = Some p) /\
  1 <= p /\
  (limit = None -> l = 10) /\
  (forall s, limit = Some s -> Js.int_literal s = Some l) /\
  1 <= l <= 100 /\
  limit_of L q = Js.Int l /\
  (p * l <= Js.two53 ->
   page_of L q = Js.Int p /\ offset_of L q = Js.Int ((p - 1) * l)).
Proof.
  intros H q p l. destruct (pagination_accepts _ _ _ _ _ H) as (Hp & Hl & _ & _).
  destruct (supplied_accepted page 1 None 1 Hp ltac:(lia) I) as (P1 & P2 & P3 & _).
  destruct (supplied_accepted limit 1 (Some 100) 10 Hl ltac:(lia) ltac:(simpl; lia))
    as (Q1 & Q2 & Q3 & Q4).
  fold p in P1, P2, P3. fold l in Q1, Q2, Q3, Q4.
  pose proof hundred_below_two53 as H100.
  assert (El : limit_of L q = Js.Int l).
  { subst q. rewrite sanitized_query. unfold limit_of. cbn [q_limit].
    apply (sanitized_number L limit 1 (Some 100) 10 Hl); fold l; lia. }
  split; [exact P1|]. split; [exact P2|]. split; [exact P3|].
  split; [exact Q1|]. split; [exact Q2|]. split; [lia|]. split; [exact El|].
  intros Hb.
  assert (Ep : page_of L q = Js.Int p).
  { subst q. rewrite sanitized_query. unfold page_of. cbn [q_page].
    apply (sanitized_number L page 1 None 1 Hp); fold p; nia. }
  split; [exact Ep|].
  unfold offset_of. rewrite Ep, El. cbn [Js.sub].
  rewrite of_integer_exact by nia. cbn [Js.mul].
  rewrite of_integer_exact by nia. reflexivity.
Qed.

(** The order clause of an accepted query is the requested order. *)
Lemma accepted_order L page limit sortBy order :
  snd (paginationValidation L (from_strings page limit sortBy order)) = [] ->
  let q := fst (paginationValidation L (from_strings page limit sortBy order)) in
  fst (orderClause q) = requested_expr sortBy /\
  direction_of (snd (orderClause q)) = Some (requested_direction order) /\
  (order = None \/ order = Some "asc" \/ order = Some "desc").
Proof.
  intros H. destruct (pagination_accepts _ _ _ _ _ H) as (_ & _ & Hs & Ho).
  rewrite sanitized_query. cbv zeta.
  assert (Hs' : sortBy = None \/ sortBy = Some "end_date"
                \/ sortBy = Some "priority" \/ sortBy = Some "created_at").
  { destruct sortBy as [s|]; [|auto].
    destruct (Hs s eq_refl) as [<-|[<-|[<-|[]]]]; auto. }
  assert (Ho' : order = None \/ order = Some "asc" \/ order = Some "desc").
  { destruct order as [o|]; [|auto].
    destruct (Ho o eq_refl) as [<-|[<-|[]]]; auto. }
  split; [|split; [|exact Ho']].
  - destruct Hs' as [->|[->|[->| ->]]]; reflexivity.
  - destruct Hs' as [->|[->|[->| ->]]]; destruct Ho' as [->|[->| ->]]; reflexivity.
Qed.

Lemma requested_direction_cases order :
  (order = None \/ order = Some "asc" -> requested_direction order = Asc) /\
  (order = Some "desc" -> requested_direction order = Desc).
Proof.
  split; [intros [->| ->]|intros ->]; reflexivity.
Qed.

(** ** The listing *)

Lemma getTasks_rows_inv L db w uid q count rows :
  getTasks_rows L db w uid q = Some (count, rows) ->
  count = Z.of_nat (List.length (owned_rows db uid)) /\
  exists d l o,
    direction_of (snd (orderClause q)) = Some d /\
    limit_of L q = Js.Int l /\ offset_of L q = Js.Int o /\
    rows = window l o (ordered_rows w (fst (orderClause q)) d (owned_rows db uid)).
Proof.
  unfold getTasks_rows, Task_findAndCountAll.
  destruct (direction_of (snd (orderClause q))) as [d|]; [|discriminate].
  destruct (limit_of L q) as [l| |]; try discriminate.
  destruct (offset_of L q) as [o| |]; try discriminate.
  destruct ((0 <=? l) && (l <=? max_bigint) && (0 <=? o) && (o <=? max_bigint));
    [|discriminate].
  intros H. inversion H; subst. split; [reflexivity|].
  exists d, l, o. repeat split.
Qed.

Lemma getTasks_rows_ok L db w uid q d l o :
  direction_of (snd (orderClause q)) = Some d ->
  limit_of L q = Js.Int l -> offset_of L q = Js.Int o ->
  0 <= l <= max_bigint -> 0 <= o <= max_bigint ->
  getTasks_rows L db w uid q =
    Some (Z.of_nat (List.length (owned_rows db uid)),
          window l o (ordered_rows w (fst (orderClause q)) d (owned_rows db uid))).
Proof.
  intros Hd El Eo Hl Ho. unfold getTasks_rows, Task_findAndCountAll.
  rewrite Hd, El, Eo.
  destruct (0 <=? l) eqn:E1; [|apply Z.leb_gt in E1; lia].
  destruct (l <=? max_bigint) eqn:E2; [|apply Z.leb_gt in E2; lia].
  destruct (0 <=? o) eqn:E3; [|apply Z.leb_gt in E3; lia].
  destruct (o <=? max_bigint) eqn:E4; [|apply Z.leb_gt in E4; lia].
  reflexivity.
Qed.

Lemma getTasks_tasks L db w req js :
  get "tasks" (body (getTasks L db w req)) = Some (JArr js) ->
  exists u count rows,
    user req = Some u /\
    getTasks_rows L db w (ui_id u) (query req) = Some (count, rows) /\
    js = map task_attributes rows /\
    get2 "pagination" "totalTasks" (body (getTasks L db w req)) = Some (JNum count).
Proof.
  unfold getTasks.
  destruct (user req) as [u|]; [|discriminate].
  destruct (getTasks_rows L db w (ui_id u) (query req)) as [[count rows]|] eqn:E;
    [|discriminate].
  intros H. exists u, count, rows. repeat split; auto.
  cbn in H. congruence.
Qed.

(** An authenticated request whose query passes the validation chains:
    whatever listing it is answered with is a window of the requester's
    rows in the requested order, and when page times limit is at most 2^53
    the answer is the listing of that page. *)
Lemma accepted_listing L env db w req req' page limit sortBy order :
  protect env db w req = inr req' ->
  query req = from_strings page limit sortBy order ->
  snd (paginationValidation L (query req)) = [] ->
  let r := route L env GET_tasks db w req in
  let p := supplied page 1 in
  let l := supplied limit 10 in
  exists u sorted,
    user req' = Some u /\
    arranged (order_leb (requested_expr sortBy) (requested_direction order))
      (owned_rows db (ui_id u)) sorted /\
    store_of r = db /\
    (forall js, get "tasks" (body (response_of r)) = Some (JArr js) ->
       exists l' o', js = map task_attributes (window l' o' sorted)) /\
    (p * l <= Js.two53 ->
     let total := Z.of_nat (List.length (owned_rows db (ui_id u))) in
     let rows := window l ((p - 1) * l) sorted in
     let totalPages := (total + l - 1) / l in
     response_of r =
       respond 200
         (JObj [("success", JBool true);
                ("count", JNum (Z.of_nat (List.length rows)));
                ("pagination",
                 JObj [("currentPage", JNum p);
                       ("totalPages", JNum totalPages);
                       ("totalTasks", JNum total);
                       ("limit", JNum l);
                       ("hasNext", JBool (p <? totalPages));
                       ("hasPrev", JBool (1 <? p))]);
                ("tasks", JArr (map task_attributes rows))])).
Proof.
  intros Hp Hq Hv r p l.
  destruct (protect_inr _ _ _ _ _ Hp) as (t & id & u & _ & _ & _ & _ & Hr').
  pose proof Hv as Hv'. rewrite Hq in Hv'.
  destruct (accepted_order L _ _ _ _ Hv') as (He & Hd & _).
  destruct (accepted_page_limit L _ _ _ _ Hv')
    as (_ & _ & P3 & _ & _ & Q3 & El & Hexact).
  rewrite <- Hq in He, Hd, El, Hexact. cbv zeta in He, Hd, El, Hexact.
  fold p l in P3, Q3, El, Hexact.
  set (q := fst (paginationValidation L (query req))) in *.
  set (sorted := ordered_rows w (requested_expr sortBy) (requested_direction order)
                   (owned_rows db (ui_id u))).
  assert (Hr : r = (getTasks L db w (set_query req' q), db)).
  { subst r. rewrite (route_GET_tasks L _ _ _ _ _ Hp). fold q.
    unfold validated. rewrite (validate_nil _ Hv). reflexivity. }
  assert (Hu : user (set_query req' q) = Some u) by (subst req'; reflexivity).
  assert (Hqq : query (set_query req' q) = q) by reflexivity.
  exists u, sorted.
  split; [subst req'; reflexivity|].
  split; [apply ordered_rows_arranged|].
  split; [rewrite Hr; reflexivity|].
  split.
  - intros js Hjs. rewrite Hr in Hjs. unfold response_of in Hjs. cbn [fst] in Hjs.
    destruct (getTasks_tasks _ _ _ _ _ Hjs) as (u' & count & rows & Hu' & Hrows & -> & _).
    rewrite Hu in Hu'. injection Hu' as <-. rewrite Hqq in Hrows.
    destruct (getTasks_rows_inv _ _ _ _ _ _ _ Hrows)
      as (_ & d & l' & o' & Hd' & _ & _ & ->).
    rewrite Hd in Hd'. injection Hd' as <-. rewrite He.
    exists l', o'. reflexivity.
  - intros Hb. destruct (Hexact Hb) as [Ep Eo]. cbv zeta.
    pose proof two53_below_bigint as Hbig.
    pose proof hundred_below_two53 as H100.
    assert (Hrows := getTasks_rows_ok L db w (ui_id u) q _ l ((p - 1) * l)
                       Hd El Eo ltac:(lia) ltac:(nia)).
    rewrite He in Hrows. fold sorted in Hrows.
    rewrite Hr. unfold response_of. cbn [fst].
    unfold getTasks. rewrite Hu, Hqq, Hrows, Ep, El.
    cbn [Js.ceil_quot Js.ltb json_num].
    destruct (0 <? l) eqn:E; [reflexivity|apply Z.ltb_ge in E; lia].
Qed.

(** C1. GET /tasks with sortBy=priority: the page is ordered by the rank
    high -> 1, medium -> 2, low -> 3.  The page is a window of the
    requester's tasks put in rank order (tasks of equal rank in an order
    the database chooses): with order=asc (also the default) ranks never
    decrease along the page, so every high task stands before every medium
    task and every medium task before every low one; with order=desc ranks
    never increase and the positions are reversed.  This holds for every
    store, whatever the order in which tasks were inserted.  When page
    times limit is at most 2^53 the answer is 200 with the window that
    skips (page - 1) * limit tasks and takes limit. *)
Theorem priority_listing_ordered L env db w req req' page limit order :
  protect env db w req = inr req' ->
  query req = from_strings page limit (Some "priority") order ->
  snd (paginationValidation L (query req)) = [] ->
  let r := response_of (route L env GET_tasks db w req) in
  let p := supplied page 1 in
  let l := supplied limit 10 in
  priority_rank "high" = Some 1 /\
  priority_rank "medium" = Some 2 /\
  priority_rank "low" = Some 3 /\
  (order = None \/ order = Some "asc" \/ order = Some "desc") /\
  exists u sorted,
    user req' = Some u /\
    Permutation sorted (owned_rows db (ui_id u)) /\
    (forall js, get "tasks" (body r) = Some (JArr js) ->
       exists l' o', js = map task_attributes (window l' o' sorted)) /\
    (p * l <= Js.two53 ->
     status r = 200 /\
     get "tasks" (body r)
     = Some (JArr (map task_attributes (window l ((p - 1) * l) sorted)))) /\
    (order = None \/ order = Some "asc" ->
     forall l' o' i j a b,
       at_index (window l' o' sorted) i a -> at_index (window l' o' sorted) j b ->
       ((i < j)%nat ->
        null_last_leb (priority_rank (t_priority a))
                      (priority_rank (t_priority b)) = true) /\
       (outranks (t_priority a) (t_priority b) -> (i < j)%nat)) /\
    (order = Some "desc" ->
     forall l' o' i j a b,
       at_index (window l' o' sorted) i a -> at_index (window l' o' sorted) j b ->
       ((i < j)%nat ->
        null_last_leb (priority_rank (t_priority b))
                      (priority_rank (t_priority a)) = true) /\
       (outranks (t_priority a) (t_priority b) -> (j < i)%nat)).
Proof.
  intros Hp Hq Hv r p l.
  repeat (split; [reflexivity|]).
  pose proof Hv as Hv'. rewrite Hq in Hv'.
  destruct (accepted_order L _ _ _ _ Hv') as (_ & _ & Horder).
  split; [exact Horder|].
  destruct (accepted_listing L _ _ _ _ _ _ _ _ _ Hp Hq Hv)
    as (u & sorted & Hu & [Hperm Hsorted] & _ & Hany & Hexact).
  exists u, sorted.
  split; [exact Hu|]. split; [exact Hperm|]. split; [exact Hany|].
  split.
  { intros Hb. fold r in Hexact. rewrite (Hexact Hb). split; reflexivity. }
  change (requested_expr (Some "priority")) with PriorityCase in Hsorted.
  destruct (requested_direction_cases order) as [Hasc Hdesc].
  split.
  - intros Ho l' o' i j a b Hi Hj. rewrite (Hasc Ho) in Hsorted.
    apply (ranked_positions Asc _ (window_sorted l' o' _ Hsorted) i j a b Hi Hj).
  - intros Ho l' o' i j a b Hi Hj. rewrite (Hdesc Ho) in Hsorted.
    apply (ranked_positions Desc _ (window_sorted l' o' _ Hsorted) i j a b Hi Hj).
Qed.

Lemma priority_listing_ordered_witness :
  let req := jane_lists None None (Some "priority") (Some "desc") in
  let w := sample_world 5000 in
  let r := response_of (route sample_lib sample_env GET_tasks sample_store w req) in
  protect sample_env sample_store w req = inr (set_user req (exclude_password jane)) /\
  status r = 200 /\
  exists rows,
    get "tasks" (body r) = Some (JArr (map task_attributes rows)) /\
    map t_priority rows = ["low"; "medium"; "high"; "high"] /\
    forall i j a b, at_index rows i a -> at_index rows j b ->
      outranks (t_priority a) (t_priority b) -> (j < i)%nat.
Proof.
  intros req w r.
  assert (Hp : protect sample_env sample_store w req
               = inr (set_user req (exclude_password jane))) by reflexivity.
  split; [exact Hp|].
  destruct (priority_listing_ordered sample_lib sample_env sample_store w req _
              None None (Some "desc") Hp eq_refl eq_refl)
    as (_ & _ & _ & _ & u & sorted & _ & _ & _ & Hexact & _ & Hdesc).
  destruct Hexact as [H200 Ht]; [vm_compute; discriminate|].
  split; [exact H200|].
  exists (window 10 0 sorted). split; [exact Ht|].
  split.
  - assert (E : get "tasks" (body r)
                = Some (JArr (map task_attributes
                      [mk_task 1 1 "low one" "low" 20250101 3000;
                       mk_task 4 1 "medium one" "medium" 20250201 3300;
                       mk_task 3 1 "high one" "high" 20250301 3200;
                       mk_task 5 1 "high two" "high" 20250105 3400])))
      by reflexivity.
    fold r in Ht. rewrite Ht in E. injection E as E.
    apply (f_equal (map (fun j => get "priority" j))) in E.
    rewrite !map_map in E. cbn [map task_attributes get assoc String.eqb] in E.
    revert E. generalize (window 10 0 sorted). intros rows E.
    destruct rows as [|a [|b [|c [|d [|e rest]]]]]; try discriminate E.
    cbn in E. injection E as E1 E2 E3 E4.
    cbn [map]. congruence.
  - intros i j a b Ha Hb. apply (Hdesc eq_refl 10 0 i j a b Ha Hb).
Defined.

Lemma isIn_intro s vs : In s vs -> Js.isIn s vs = true.
Proof.
  intros H. unfold Js.isIn. apply existsb_exists. exists s.
  split; [exact H|apply String.eqb_refl].
Qed.

Lemma pagination_accepts_iff L page limit sortBy order :
  snd (paginationValidation L (from_strings page limit sortBy order)) = [] <->
  acceptable_page page /\ acceptable_limit limit /\
  acceptable_sortBy sortBy /\ acceptable_order order.
Proof.
  split.
  - intros H. destruct (pagination_accepts _ _ _ _ _ H) as (Hp & Hl & Hs & Ho).
    repeat split; auto.
    + intros s E. destruct (isInt_inv _ _ _ (Hp s E)) as (v & Ev & Hv & _).
      exists v; auto.
    + intros s E. destruct (isInt_inv _ _ _ (Hl s E)) as (v & Ev & Hv & Hh).
      exists v; auto.
  - intros (Hp & Hl & Hs & Ho).
    unfold paginationValidation, from_strings.
    cbn [snd q_page q_limit q_sortBy q_order].
    assert (Ep : match option_map QStr page with
                 | Some v => check (Js.isInt (qval_str L v) (Some 1) None) "page"
                               "Page must be a positive integer"
                 | None => []
                 end = []).
    { destruct page as [s|]; simpl; [|reflexivity].
      destruct (Hp s eq_refl) as (v & Ev & Hv).
      unfold Js.isInt. rewrite Ev.
      destruct (1 <=? v) eqn:E; [reflexivity|apply Z.leb_gt in E; lia]. }
    assert (El : match option_map QStr limit with
                 | Some v => check (Js.isInt (qval_str L v) (Some 1) (Some 100)) "limit"
                               "Limit must be between 1 and 100"
                 | None => []
                 end = []).
    { destruct limit as [s|]; simpl; [|reflexivity].
      destruct (Hl s eq_refl) as (v & Ev & Hv).
      unfold Js.isInt. rewrite Ev.
      destruct (1 <=? v) eqn:E; [|apply Z.leb_gt in E; lia].
      destruct (v <=? 100) eqn:E'; [reflexivity|apply Z.leb_gt in E'; lia]. }
    rewrite Ep, El. cbn [app].
    destruct sortBy as [s|].
    + rewrite (isIn_intro _ _ (Hs s eq_refl)). cbn [check app].
      destruct order as [o|]; [|reflexivity].
      rewrite (isIn_intro _ _ (Ho o eq_refl)). reflexivity.
    + cbn [app]. destruct order as [o|]; [|reflexivity].
      rewrite (isIn_intro _ _ (Ho o eq_refl)). reflexivity.
Qed.

(** C2. The listing of user A shows rows of A only, for every query: each
    entry of the [tasks] array is the projection of a stored task whose
    owner id is A's id, and [totalTasks] is the number of A's tasks. *)
Theorem listing_owner_only L env db w req req' u :
  protect env db w req = inr req' ->
  user req' = Some u ->
  let r := response_of (route L env GET_tasks db w req) in
  forall js, get "tasks" (body r) = Some (JArr js) ->
    exists rows,
      js = map task_attributes rows /\
      Forall (fun t => In t (tasks db) /\ t_userId t = ui_id u) rows /\
      get2 "pagination" "totalTasks" (body r) =
        Some (JNum (Z.of_nat (List.length
                (filter (fun t => t_userId t =? ui_id u) (tasks db))))).
Proof.
  intros Hp Hu r js Hjs. subst r.
  rewrite (route_GET_tasks L _ _ _ _ _ Hp) in *.
  unfold validated in *.
  destruct (snd (paginationValidation L (query req))) as [|e es] eqn:Ee.
  - simpl validate in *. unfold response_of in *. cbn [fst] in *.
    destruct (getTasks_tasks _ _ _ _ _ Hjs) as (u' & count & rows & Hu' & Hr & -> & Ht).
    assert (u' = u).
    { destruct (protect_inr _ _ _ _ _ Hp) as (? & ? & u0 & _ & _ & _ & _ & ->).
      simpl in Hu, Hu'. congruence. }
    subst u'.
    destruct (getTasks_rows_inv _ _ _ _ _ _ _ Hr) as (Hc & d & l & o & _ & _ & _ & Hrows).
    exists rows. split; [reflexivity|]. split.
    + apply Forall_forall. intros t Ht'. rewrite Hrows in Ht'.
      apply window_In, ordered_rows_In in Ht'. unfold owned_rows in Ht'.
      apply filter_In in Ht' as [Hin Ho]. split; [exact Hin|].
      unfold owned_by in Ho. apply Z.eqb_eq in Ho. exact Ho.
    + rewrite Ht, Hc. reflexivity.
  - rewrite validate_some in Hjs by discriminate.
    unfold response_of in Hjs. cbn in Hjs. discriminate.
Qed.

Lemma listing_owner_only_witness :
  let req := jane_lists (Some "1") (Some "2") (Some "created_at") (Some "desc") in
  let r := response_of (route sample_lib sample_env GET_tasks sample_store
                          (sample_world 5000) req) in
  exists js rows,
    get "tasks" (body r) = Some (JArr js) /\
    js <> [] /\
    js = map task_attributes rows /\
    Forall (fun t => In t (tasks sample_store) /\ t_userId t = 1) rows.
Proof.
  intros req r.
  assert (Hjs : get "tasks" (body r) = Some (JArr
            [task_attributes (mk_task 5 1 "high two" "high" 20250105 3400);
             task_attributes (mk_task 4 1 "medium one" "medium" 20250201 3300)]))
    by reflexivity.
  destruct (listing_owner_only sample_lib sample_env sample_store (sample_world 5000)
              req (set_user req (exclude_password jane)) (exclude_password jane)
              eq_refl eq_refl _ Hjs) as (rows & Hm & Hf & _).
  eexists; exists rows. split; [exact Hjs|]. split; [discriminate|].
  split; [exact Hm|exact Hf].
Defined.

Lemma route_GET_tasks_rejected L env db w req req' :
  protect env db w req = inr req' ->
  snd (paginationValidation L (query req)) <> [] ->
  route L env GET_tasks db w req =
    (respond 400
       (JObj [("success", JBool false);
              ("message", JStr "Validation failed");
              ("errors", errors_json (snd (paginationValidation L (query req))))]),
     db).
Proof.
  intros Hp He. rewrite (route_GET_tasks L _ _ _ _ _ Hp).
  unfold validated. rewrite (validate_some _ He). reflexivity.
Qed.

Lemma bad_limit_error L page limit sortBy order s v :
  limit = Some s -> Js.int_literal s = Some v -> v < 1 \/ 100 < v ->
  In ("limit", "Limit must be between 1 and 100")
     (snd (paginationValidation L (from_strings page limit sortBy order))).
Proof.
  intros -> Ev Hv. unfold paginationValidation, from_strings.
  cbn [snd q_page q_limit q_sortBy q_order option_map qval_str].
  apply in_or_app. right. apply in_or_app. left.
  unfold Js.isInt. rewrite Ev.
  destruct (1 <=? v) eqn:E1; simpl.
  - destruct (v <=? 100) eqn:E2; simpl; [|auto].
    apply Z.leb_le in E1. apply Z.leb_le in E2. lia.
  - auto.
Qed.

Lemma bad_page_error L page limit sortBy order s v :
  page = Some s -> Js.int_literal s = Some v -> v < 1 ->
  In ("page", "Page must be a positive integer")
     (snd (paginationValidation L (from_strings page limit sortBy order))).
Proof.
  intros -> Ev Hv. unfold paginationValidation, from_strings.
  cbn [snd q_page q_limit q_sortBy q_order option_map qval_str].
  apply in_or_app. left.
  unfold Js.isInt. rewrite Ev.
  destruct (1 <=? v) eqn:E1; simpl; [apply Z.leb_le in E1; lia|auto].
Qed.

(** C4, as the code has it.  For an authenticated GET /tasks: when every
    supplied parameter is acceptable, the page is the supplied integer
    (at least 1) or 1 by default, the limit is the supplied integer
    (within 1..100) or 10 by default, and, as long as page times limit is
    at most 2^53, the answer is 200 with the requester's rows in the
    requested order (rows the order leaves tied in an order the database
    chooses) after skipping exactly (page - 1) * limit of them, cut to
    limit rows.  A parameter that is not acceptable is not adjusted: the
    request is answered with 400 and no listing. *)
Theorem pagination_defaults_and_window L env db w req req' u page limit sortBy order :
  protect env db w req = inr req' ->
  user req' = Some u ->
  query req = from_strings page limit sortBy order ->
  let r := response_of (route L env GET_tasks db w req) in
  (acceptable_page page /\ acceptable_limit limit /\
   acceptable_sortBy sortBy /\ acceptable_order order ->
   exists p l,
     (page = None -> p = 1) /\
     (forall s, page = Some s -> Js.int_literal s = Some p) /\
     1 <= p /\
     (limit = None -> l = 10) /\
     (forall s, limit = Some s -> Js.int_literal s = Some l) /\
     1 <= l <= 100 /\
     (p * l <= Js.two53 ->
      exists sorted,
        arranged (order_leb (requested_expr sortBy) (requested_direction order))
          (owned_rows db (ui_id u)) sorted /\
        status r = 200 /\
        get "tasks" (body r) =
          Some (JArr (map task_attributes (window l ((p - 1) * l) sorted))) /\
        get2 "pagination" "currentPage" (body r) = Some (JNum p) /\
        get2 "pagination" "limit" (body r) = Some (JNum l))) /\
  (~ (acceptable_page page /\ acceptable_limit limit /\
      acceptable_sortBy sortBy /\ acceptable_order order) ->
   status r = 400 /\ get "tasks" (body r) = None).
Proof.
  intros Hp Hu Hq r. split.
  - intros Hacc. apply (pagination_accepts_iff L) in Hacc.
    pose proof Hacc as Hv. rewrite <- Hq in Hv.
    destruct (accepted_listing L _ _ _ _ _ _ _ _ _ Hp Hq Hv)
      as (u' & sorted & Hu' & Harr & _ & _ & Hexact).
    assert (u' = u) by congruence. subst u'.
    destruct (accepted_page_limit L _ _ _ _ Hacc)
      as (P1 & P2 & P3 & Q1 & Q2 & Q3 & _).
    exists (supplied page 1), (supplied limit 10).
    split; [exact P1|]. split; [exact P2|]. split; [exact P3|].
    split; [exact Q1|]. split; [exact Q2|]. split; [exact Q3|].
    intros Hb. exists sorted. split; [exact Harr|].
    fold r in Hexact. rewrite (Hexact Hb). repeat split.
  - intros Hn.
    assert (He : snd (paginationValidation L (query req)) <> []).
    { intros E. apply Hn. apply (pagination_accepts_iff L). rewrite <- Hq. exact E. }
    subst r. rewrite (route_GET_tasks_rejected L _ _ _ _ _ Hp He).
    split; reflexivity.
Qed.

Lemma pagination_defaults_and_window_witness :
  let req := jane_lists (Some "2") (Some "2") (Some "priority") None in
  let r := response_of (route sample_lib sample_env GET_tasks sample_store
                          (sample_world 5000) req) in
  status r = 200 /\
  get2 "pagination" "currentPage" (body r) = Some (JNum 2) /\
  get2 "pagination" "limit" (body r) = Some (JNum 2) /\
  get "tasks" (body r)
  = Some (JArr [task_attributes (mk_task 4 1 "medium one" "medium" 20250201 3300);
                task_attributes (mk_task 1 1 "low one" "low" 20250101 3000)]) /\
  exists sorted,
    Permutation sorted (owned_rows sample_store 1) /\
    get "tasks" (body r) = Some (JArr (map task_attributes (window 2 2 sorted))).
Proof.
  intros req r.
  destruct (pagination_defaults_and_window sample_lib sample_env sample_store
              (sample_world 5000) req (set_user req (exclude_password jane))
              (exclude_password jane) (Some "2") (Some "2") (Some "priority") None
              eq_refl eq_refl eq_refl) as [Hacc _].
  destruct Hacc as (p & l & _ & P2 & _ & _ & Q2 & _ & Hexact).
  { repeat split; intros s E; inversion E; subst.
    - exists 2. split; [reflexivity|lia].
    - exists 2. split; [reflexivity|lia].
    - right; left; reflexivity. }
  specialize (P2 _ eq_refl). injection P2 as <-.
  specialize (Q2 _ eq_refl). injection Q2 as <-.
  destruct Hexact as (sorted & [Hperm _] & Hs & Ht & Hc & Hl);
    [vm_compute; discriminate|].
  split; [exact Hs|]. split; [exact Hc|]. split; [exact Hl|].
  split; [reflexivity|].
  exists sorted. split; [exact Hperm|exact Ht].
Defined.

(** C4 as written fails.  A limit of 500 is not brought down to 100: the
    route answers 400 without a listing, and the handler on its own would
    ask the database for 500 rows.  And not every page is listed: for page
    10^18 the offset does not fit the database's bigint and the answer is
    500. *)
Lemma limit_not_clamped :
  let w := sample_world 5000 in
  let req := jane_lists None (Some "500") None None in
  let r := response_of (route sample_lib sample_env GET_tasks sample_store w req) in
  let far := jane_lists (Some "1000000000000000000") None None None in
  let r' := response_of (route sample_lib sample_env GET_tasks sample_store w far) in
  status r = 400 /\
  get "tasks" (body r) = None /\
  get2 "pagination" "limit" (body r) <> Some (JNum (Z.max 1 (Z.min 100 500))) /\
  get2 "pagination" "limit"
    (body (getTasks sample_lib sample_store w (set_user req (exclude_password jane))))
    = Some (JNum 500) /\
  status r' = 500 /\
  get "tasks" (body r') = None.
Proof.
  vm_compute. repeat split. discriminate.
Qed.

(** C5. GET /tasks with a supplied limit above 100 or below 1, or a
    supplied page below 1, never yields a listing and leaves the store as
    it was; once past the auth gate the answer is 400 with success false,
    the message of a validation failure and an entry for the offending
    field in [errors]. *)
Theorem out_of_range_rejected L env db w req page limit sortBy order :
  query req = from_strings page limit sortBy order ->
  (exists s v, limit = Some s /\ Js.int_literal s = Some v /\ (v < 1 \/ 100 < v))
  \/ (exists s v, page = Some s /\ Js.int_literal s = Some v /\ v < 1) ->
  let r := route L env GET_tasks db w req in
  store_of r = db /\
  get "tasks" (body (response_of r)) = None /\
  (status (response_of r) = 400 \/ status (response_of r) = 401) /\
  forall req', protect env db w req = inr req' ->
    status (response_of r) = 400 /\
    get "success" (body (response_of r)) = Some (JBool false) /\
    get "message" (body (response_of r)) = Some (JStr "Validation failed") /\
    exists entries,
      get "errors" (body (response_of r)) = Some (JArr entries) /\
      ((exists s v, limit = Some s /\ Js.int_literal s = Some v /\ (v < 1 \/ 100 < v)) ->
       In (error_entry "limit" "Limit must be between 1 and 100") entries) /\
      ((exists s v, page = Some s /\ Js.int_literal s = Some v /\ v < 1) ->
       In (error_entry "page" "Page must be a positive integer") entries).
Proof.
  intros Hq Hbad r.
  assert (He : snd (paginationValidation L (query req)) <> []).
  { rewrite Hq. destruct Hbad as [(s & v & E & Ev & Hv)|(s & v & E & Ev & Hv)].
    - intros C. pose proof (bad_limit_error L page limit sortBy order s v E Ev Hv) as Hin.
      rewrite C in Hin. destruct Hin.
    - intros C. pose proof (bad_page_error L page limit sortBy order s v E Ev Hv) as Hin.
      rewrite C in Hin. destruct Hin. }
  destruct (protect env db w req) as [resp|req'] eqn:Hp.
  - assert (Hr : r = (resp, db)).
    { subst r. unfold route, protected. rewrite Hp. reflexivity. }
    destruct (protect_inl_401 _ _ _ _ _ Hp) as [H401 Hnt].
    rewrite Hr. unfold store_of, response_of. cbn [fst snd].
    split; [reflexivity|]. split; [exact Hnt|]. split; [right; exact H401|].
    intros req' C. discriminate.
  - assert (Hr := route_GET_tasks_rejected L _ _ _ _ _ Hp He). fold r in Hr.
    rewrite Hr. unfold store_of, response_of. cbn [fst snd].
    split; [reflexivity|]. split; [reflexivity|]. split; [left; reflexivity|].
    intros req'' _.
    split; [reflexivity|]. split; [reflexivity|]. split; [reflexivity|].
    rewrite Hq.
    exists (map (fun e => JObj [("field", JStr (fst e)); ("message", JStr (snd e))])
              (snd (paginationValidation L (from_strings page limit sortBy order)))).
    split; [reflexivity|]. split.
    + intros (s & v & E & Ev & Hv).
      apply (in_map (fun e => JObj [("field", JStr (fst e)); ("message", JStr (snd e))])
               _ _ (bad_limit_error L page limit sortBy order s v E Ev Hv)).
    + intros (s & v & E & Ev & Hv).
      apply (in_map (fun e => JObj [("field", JStr (fst e)); ("message", JStr (snd e))])
               _ _ (bad_page_error L page limit sortBy order s v E Ev Hv)).
Qed.

Lemma out_of_range_rejected_witness :
  let req := jane_lists (Some "0") (Some "101") None None in
  let r := route sample_lib sample_env GET_tasks sample_store (sample_world 5000) req in
  status (response_of r) = 400 /\
  exists entries,
    get "errors" (body (response_of r)) = Some (JArr entries) /\
    In (error_entry "limit" "Limit must be between 1 and 100") entries /\
    In (error_entry "page" "Page must be a positive integer") entries.
Proof.
  intros req r.
  assert (Hl : exists s v, Some "101" = Some s /\ Js.int_literal s = Some v /\ (v < 1 \/ 100 < v)).
  { exists "101", 101. repeat split. right. lia. }
  assert (Hg : exists s v, Some "0" = Some s /\ Js.int_literal s = Some v /\ v < 1).
  { exists "0", 0. repeat split. }
  destruct (out_of_range_rejected sample_lib sample_env sample_store (sample_world 5000)
              req (Some "0") (Some "101") None None eq_refl (or_introl Hl))
    as (_ & _ & _ & H).
  destruct (H _ eq_refl) as (Hs & _ & _ & entries & He & H1 & H2).
  split; [exact Hs|]. exists entries. split; [exact He|].
  split; [apply H1, Hl|apply H2, Hg].
Defined.

(** ** Single-task endpoints *)

Lemma protect_users env db1 db2 w req :
  users db1 = users db2 -> protect env db1 w req = protect env db2 w req.
Proof.
  intros H. unfold protect, User_findByPk. rewrite H. reflexivity.
Qed.

Lemma findOne_none db id uid :
  (forall t, In t (tasks db) -> t_id t = id -> t_userId t <> uid) ->
  Task_findOne db id uid = None.
Proof.
  intros H. unfold Task_findOne.
  destruct (find _ (tasks db)) as [t|] eqn:E; [|reflexivity].
  apply find_some in E as [Hin Hb].
  apply andb_true_iff in Hb as [H1 H2].
  apply Z.eqb_eq in H1. apply Z.eqb_eq in H2.
  exfalso. apply (H t Hin H1 H2).
Qed.

Lemma findOne_some db id uid t :
  Task_findOne db id uid = Some t ->
  In t (tasks db) /\ t_id t = id /\ t_userId t = uid.
Proof.
  unfold Task_findOne. intros E.
  apply find_some in E as [Hin Hb].
  apply andb_true_iff in Hb as [H1 H2].
  apply Z.eqb_eq in H1. apply Z.eqb_eq in H2. auto.
Qed.

(** What a single-task route answers to an authenticated request when the
    lookup by id and owner finds nothing. *)
Lemma single_task_not_found L env db w req req' u id e :
  e = GET_tasks_id \/ e = PUT_tasks_id \/ e = DELETE_tasks_id ->
  protect env db w req = inr req' ->
  user req' = Some u ->
  params_id req = Some id ->
  Task_findOne db id (ui_id u) = None ->
  route L env e db w req =
    (match e with
     | PUT_tasks_id =>
         match validate (snd (taskValidation L (body_in req))) with
         | Some r => r
         | None => failure 404 (not_found_message e)
         end
     | _ => failure 404 (not_found_message e)
     end, db).
Proof.
  intros He Hp Hu Hid Hf.
  destruct (protect_inr _ _ _ _ _ Hp) as (t & i & u' & _ & _ & _ & _ & Hr).
  assert (u' = u) by (subst req'; simpl in Hu; congruence). subst u'.
  destruct He as [->|[->| ->]]; unfold route, protected; rewrite Hp.
  - unfold getTask. rewrite Hu. subst req'. cbn [params_id set_user].
    rewrite Hid, Hf. reflexivity.
  - subst req'. cbn [body_in set_user].
    destruct (taskValidation L (body_in req)) as [b errors] eqn:Et.
    cbn [snd]. unfold validated.
    destruct (validate errors) as [r|]; [reflexivity|].
    unfold updateTask. cbn [user set_body set_user params_id].
    rewrite Hid, Hf. reflexivity.
  - unfold deleteTask. rewrite Hu. subst req'. cbn [params_id set_user].
    rewrite Hid, Hf. reflexivity.
Qed.

(** C6. GET, PUT and DELETE /tasks/:id answer alike whether no task has
    the id or the task with that id belongs to someone else: the two
    responses are equal, neither store changes, and the response is the
    404 failure of the endpoint (for PUT, once the body has passed the
    validation chains, which do not look at the store). *)
Theorem not_found_and_not_owned_alike L env db1 db2 w req req' u id e :
  e = GET_tasks_id \/ e = PUT_tasks_id \/ e = DELETE_tasks_id ->
  users db1 = users db2 ->
  protect env db1 w req = inr req' ->
  user req' = Some u ->
  params_id req = Some id ->
  (forall t, In t (tasks db1) -> t_id t <> id) ->
  (exists t, In t (tasks db2) /\ t_id t = id) ->
  (forall t, In t (tasks db2) -> t_id t = id -> t_userId t <> ui_id u) ->
  let r1 := route L env e db1 w req in
  let r2 := route L env e db2 w req in
  response_of r1 = response_of r2 /\
  store_of r1 = db1 /\ store_of r2 = db2 /\
  get "success" (body (response_of r1)) = Some (JBool false) /\
  (e = PUT_tasks_id -> snd (taskValidation L (body_in req)) <> [] ->
   status (response_of r1) = 400) /\
  (e <> PUT_tasks_id \/ snd (taskValidation L (body_in req)) = [] ->
   response_of r1 = failure 404 (not_found_message e)).
Proof.
  intros He Hus Hp Hu Hid H1 _ H2 r1 r2.
  assert (Hp2 : protect env db2 w req = inr req')
    by (rewrite <- (protect_users env db1 db2 w req Hus); exact Hp).
  assert (F1 : Task_findOne db1 id (ui_id u) = None).
  { apply findOne_none. intros t Hin E. exfalso. apply (H1 t Hin E). }
  assert (F2 : Task_findOne db2 id (ui_id u) = None)
    by (apply findOne_none; exact H2).
  subst r1 r2.
  rewrite (single_task_not_found L env db1 w req req' u id e He Hp Hu Hid F1).
  rewrite (single_task_not_found L env db2 w req req' u id e He Hp2 Hu Hid F2).
  unfold response_of, store_of. cbn [fst snd].
  split; [reflexivity|]. split; [reflexivity|]. split; [reflexivity|].
  destruct He as [->|[->| ->]].
  - split; [reflexivity|]. split; [discriminate|]. intros _. reflexivity.
  - destruct (snd (taskValidation L (body_in req))) as [|x xs] eqn:Ev.
    + split; [reflexivity|]. split; [congruence|]. intros _. reflexivity.
    + split; [reflexivity|]. split; [reflexivity|].
      intros [C|C]; [congruence|discriminate].
  - split; [reflexivity|]. split; [discriminate|]. intros _. reflexivity.
Qed.

Lemma not_found_and_not_owned_alike_witness :
  let req := with_id 2 (with_bearer jane_token blank_request) in
  let w := sample_world 5000 in
  response_of (route sample_lib sample_env DELETE_tasks_id store_without_task_2 w req)
  = response_of (route sample_lib sample_env DELETE_tasks_id sample_store w req)
  /\ response_of (route sample_lib sample_env DELETE_tasks_id sample_store w req)
     = failure 404 "Task not found or you do not have permission to delete it.".
Proof.
  intros req w.
  assert (H1 : forall t, In t (tasks store_without_task_2) -> t_id t <> 2).
  { simpl. intros t [<-|[<-|[<-|[<-|[]]]]]; discriminate. }
  assert (H2 : exists t, In t (tasks sample_store) /\ t_id t = 2).
  { exists (mk_task 2 2 "bob's" "high" 20250102 3100). simpl. auto. }
  assert (H3 : forall t, In t (tasks sample_store) -> t_id t = 2 -> t_userId t <> 1).
  { simpl. intros t [<-|[<-|[<-|[<-|[<-|[]]]]]]; simpl; intros; congruence. }
  destruct (not_found_and_not_owned_alike sample_lib sample_env
              store_without_task_2 sample_store w req
              (set_user req (exclude_password jane)) (exclude_password jane) 2
              DELETE_tasks_id (or_intror (or_intror eq_refl)) eq_refl eq_refl eq_refl
              eq_refl H1 H2 H3) as (E & _ & _ & _ & _ & F).
  split; [exact E|]. rewrite <- E. apply F. left. discriminate.
Defined.

(** ** Auth gate *)

Lemma presents_pick req id iat exp key :
  presents req (Jwt id iat exp key) -> pick_token req = Some (Jwt id iat exp key).
Proof.
  unfold presents, pick_token, bearer.
  intros [H|[H1 H2]].
  - rewrite H. reflexivity.
  - rewrite H1, H2. reflexivity.
Qed.

Lemma findByPk_none db id :
  (forall u, In u (users db) -> u_id u <> id) -> User_findByPk db id = None.
Proof.
  intros H. unfold User_findByPk.
  destruct (find _ (users db)) as [u|] eqn:E; [|reflexivity].
  apply find_some in E as [Hin Hb]. apply Z.eqb_eq in Hb.
  exfalso. apply (H u Hin Hb).
Qed.

Lemma delete_user_gone db id u : In u (users (delete_user db id)) -> u_id u <> id.
Proof.
  unfold delete_user; simpl. intros H. apply filter_In in H as [_ H].
  apply negb_true_iff, Z.eqb_neq in H. exact H.
Qed.

Lemma verify_valid w id iat exp key :
  now w / 1000 < exp -> jwt_verify (now w) (Jwt id iat exp key) key = Decoded id.
Proof.
  intros H. unfold jwt_verify. rewrite String.eqb_refl.
  destruct (now w / 1000 >=? exp) eqn:E; [|reflexivity].
  apply Z.geb_le in E. lia.
Qed.

(** The token [generateToken] makes, when it makes one. *)
Lemma generateToken_some env w id t :
  generateToken env w id = Some t ->
  t = Jwt id (now w / 1000) (now w / 1000 + token_lifetime env) (JWT_SECRET env)
  /\ JWT_SECRET env <> "" /\ JWT_EXPIRE env <> Some NoSpan.
Proof.
  unfold generateToken, token_lifetime.
  destruct (JWT_SECRET env) as [|c s]; [discriminate|].
  destruct (JWT_EXPIRE env) as [[x|]|]; try discriminate;
    intros H; injection H as <-; repeat split; discriminate.
Qed.

Lemma generateToken_clock env w w' id t :
  generateToken env w id = Some t -> exists t', generateToken env w' id = Some t'.
Proof.
  unfold generateToken.
  destruct (JWT_SECRET env) as [|c s]; [discriminate|].
  destruct (JWT_EXPIRE env) as [[x|]|]; try discriminate; intros _; eexists; reflexivity.
Qed.

(** C7. A token that is well formed, signed with the server secret and
    not expired, but bound to a user id that the user store does not
    hold, is refused by the auth gate with 401 and the user-not-found
    message, so no identity is attached to the request; in particular
    this is the fate of every such token once its user has been
    deleted. *)
Theorem orphan_token_rejected env db w req id iat exp :
  presents req (Jwt id iat exp (JWT_SECRET env)) ->
  now w / 1000 < exp ->
  ((forall u, In u (users db) -> u_id u <> id) ->
   protect env db w req = inl (failure 401 "User not found. Token is invalid."))
  /\ protect env (delete_user db id) w req
     = inl (failure 401 "User not found. Token is invalid.").
Proof.
  intros Hp He.
  assert (G : forall db', (forall u, In u (users db') -> u_id u <> id) ->
              protect env db' w req
              = inl (failure 401 "User not found. Token is invalid.")).
  { intros db' Hn. unfold protect.
    rewrite (presents_pick _ _ _ _ _ Hp). cbn [token_truthy negb].
    rewrite (verify_valid _ _ _ _ _ He), (findByPk_none _ _ Hn). reflexivity. }
  split; [apply G|].
  apply G. intros u. apply delete_user_gone.
Qed.

Lemma orphan_token_rejected_witness :
  let req := with_bearer jane_token blank_request in
  let w := sample_world 5000 in
  (exists req', protect sample_env sample_store w req = inr req')
  /\ protect sample_env (delete_user sample_store 1) w req
     = inl (failure 401 "User not found. Token is invalid.").
Proof.
  intros req w. split; [eexists; reflexivity|].
  apply (orphan_token_rejected sample_env sample_store w req 1 1 604801).
  - right. split; reflexivity.
  - reflexivity.
Defined.

(** C10. POST /auth/logout leaves the store as it is and sets the cookie
    [token] to the literal [none], expiring ten seconds later and
    HTTP-only; nothing about any token changes: the auth gate decides
    every later request as it would have without the logout, and a token
    issued earlier, presented in a Bearer header without a cookie before
    its expiry, still resolves to its user. *)
Theorem logout_changes_nothing L env db w req req' :
  protect env db w req = inr req' ->
  let r := route L env POST_auth_logout db w req in
  store_of r = db /\
  status (response_of r) = 200 /\
  cookies (response_of r) = [logout_cookie w] /\
  (forall w' later, protect env (store_of r) w' later = protect env db w' later) /\
  (forall w0 id token u w' later,
     generateToken env w0 id = Some token ->
     cookies_token later = None ->
     headers_authorization later = bearer token ->
     now w' / 1000 < now w0 / 1000 + token_lifetime env ->
     User_findByPk db id = Some u ->
     protect env (store_of r) w' later = inr (set_user later u)).
Proof.
  intros Hp r.
  assert (Hr : r = (logout w req', db)).
  { subst r. unfold route, protected. rewrite Hp. reflexivity. }
  rewrite Hr. unfold store_of, response_of. cbn [fst snd].
  split; [reflexivity|]. split; [reflexivity|]. split; [reflexivity|].
  split; [reflexivity|].
  intros w0 id token u w' later Hg Hc Hh Ht Hu.
  destruct (generateToken_some _ _ _ _ Hg) as (-> & _ & _).
  unfold protect, pick_token. rewrite Hc, Hh. unfold bearer.
  cbn [ah_first ah_second].
  change (Js.startsWith "Bearer" "Bearer") with true. cbv iota.
  cbn [token_truthy negb].
  rewrite verify_valid by exact Ht. rewrite Hu. reflexivity.
Qed.

Lemma logout_changes_nothing_witness :
  let req := with_bearer jane_token blank_request in
  let r := route sample_lib sample_env POST_auth_logout sample_store
             (sample_world 5000) req in
  store_of r = sample_store /\
  cookies (response_of r) = [logout_cookie (sample_world 5000)] /\
  protect sample_env (store_of r) (sample_world 9000) req
  = inr (set_user req (exclude_password jane)).
Proof.
  intros req r.
  destruct (logout_changes_nothing sample_lib sample_env sample_store
              (sample_world 5000) req (set_user req (exclude_password jane))
              eq_refl) as (Hs & _ & Hc & _ & Hl).
  split; [exact Hs|]. split; [exact Hc|].
  apply (Hl (sample_world 1000) 1 jane_token (exclude_password jane)
            (sample_world 9000) req);
    reflexivity.
Defined.

(** ** What the models return *)

Lemma User_create_saved L db w name email password u db' :
  User_create L db w name email password = Saved u db' ->
  exists row pw,
    u = instance_of row /\
    db' = {| users := users db ++ [row]; tasks := tasks db;
             users_seq := users_seq db + 1; tasks_seq := tasks_seq db |} /\
    u_id row = users_seq db /\
    name = Some (u_name row) /\ email = Some (u_email row) /\
    password = Some pw /\ u_password row = beforeCreate L w pw /\
    u_createdAt row = now w /\
    User_validate L name email password = [] /\
    (forall x, In x (users db) -> u_email x <> u_email row).
Proof.
  unfold User_create.
  destruct (User_validate L name email password) as [|x xs] eqn:Ev;
    [|discriminate].
  destruct name as [n|]; [|discriminate].
  destruct email as [e|]; [|discriminate].
  destruct password as [p|]; [|discriminate].
  destruct (existsb _ (users db)) eqn:Ex; [discriminate|].
  cbn [orb]. destruct (negb _); [discriminate|].
  intros H. inversion H; subst; clear H.
  eexists _, p. cbn [u_id u_name u_email u_password u_createdAt].
  repeat split.
  intros x Hx Heq.
  assert (C : existsb (fun u => (u_email u =? e)%string) (users db) = true).
  { apply existsb_exists. exists x. split; [exact Hx|].
    apply String.eqb_eq. exact Heq. }
  rewrite C in Ex. discriminate.
Qed.

Lemma Task_create_saved L db w uid title description priority endDate i db' :
  Task_create L db w uid title description priority endDate = Saved i db' ->
  exists t,
    i = loaded t /\
    db' = {| users := users db; tasks := tasks db ++ [t];
             users_seq := users_seq db; tasks_seq := tasks_seq db + 1 |} /\
    t_id t = tasks_seq db /\ t_userId t = uid /\
    title = Some (t_title t) /\ t_description t = description /\
    t_priority t = match priority with Some p => p | None => "medium" end /\
    (exists d, endDate = Some d /\ date_value L d = Some (t_endDate t)) /\
    t_createdAt t = now w /\ t_updatedAt t = now w /\
    (exists u, In u (users db) /\ u_id u = uid) /\
    storable_text (t_title t) = true /\ storable_opt description = true /\
    date_in_range L (t_endDate t) = true.
Proof.
  unfold Task_create.
  match goal with
  | |- context [match ?e with [] => _ | _ :: _ => _ end] =>
      destruct e as [|x xs]; [|discriminate]
  end.
  destruct title as [ti|]; [|discriminate].
  destruct endDate as [d|]; cbn [option_map]; [|discriminate].
  destruct (date_value L d) as [day|] eqn:Ed; [|discriminate].
  destruct (existsb _ (users db)) eqn:Ex; [|discriminate].
  destruct (storable_text ti) eqn:E1; [|discriminate].
  destruct (storable_opt description) eqn:E2; [|discriminate].
  destruct (date_in_range L day) eqn:E3; [|discriminate].
  cbn [andb]. intros H. inversion H; subst; clear H.
  eexists. split; [reflexivity|].
  cbn [t_id t_userId t_title t_description t_priority t_endDate t_createdAt
       t_updatedAt].
  repeat split; auto.
  - exists d. split; [reflexivity|exact Ed].
  - apply existsb_exists in Ex as (u & Hu & E). apply Z.eqb_eq in E.
    exists u. split; assumption.
Qed.

Lemma Task_save_saved L db w task v i db' :
  Task_save L db w task v = Saved i db' ->
  (i = loaded task /\ db' = db) \/
  exists day,
    i = saved_instance w v day task /\
    db' = {| users := users db;
             tasks := map (write_task w (t_id task) v day) (tasks db);
             users_seq := users_seq db; tasks_seq := tasks_seq db |}.
Proof.
  unfold Task_save. destruct (negb _).
  - intros H. inversion H. left. split; reflexivity.
  - match goal with
    | |- context [match ?e with [] => _ | _ :: _ => _ end] =>
        destruct e as [|x xs]; [|discriminate]
    end.
    destruct (date_value L (v_endDate v)) as [day|]; [|discriminate].
    match goal with
    | |- context [if ?c then OtherError else _] => destruct c; [discriminate|]
    end.
    intros H. inversion H. right. exists day. split; reflexivity.
Qed.

Lemma findOne_email_some db email u :
  User_findOne_email db email = Some u ->
  exists row, In row (users db) /\ u_email row = email /\ u = instance_of row.
Proof.
  unfold User_findOne_email.
  destruct (find _ (users db)) as [row|] eqn:E; [|discriminate].
  intros H. injection H as <-. apply find_some in E as [Hin Hb].
  apply String.eqb_eq in Hb. exists row. auto.
Qed.

Lemma findByPk_no_password db id u :
  User_findByPk db id = Some u ->
  ui_password u = None /\ ui_id u = id /\
  exists row, In row (users db) /\ u = exclude_password row.
Proof.
  unfold User_findByPk.
  destruct (find _ (users db)) as [row|] eqn:E; [|discriminate].
  intros H; inversion H; subst. apply find_some in E as [Hin Hb].
  apply Z.eqb_eq in Hb. repeat split; auto. exists row; auto.
Qed.

(** ** What responses contain *)

Ltac key_in := unfold response_keys; simpl; tauto.

Lemma subset_check_incl l m : subset_check l m = true -> incl l m.
Proof.
  unfold subset_check. intros H k Hk.
  rewrite forallb_forall in H. specialize (H k Hk).
  apply existsb_exists in H as (x & Hx & E).
  apply String.eqb_eq in E. subst. exact Hx.
Qed.

Lemma errors_json_keys errors :
  incl (json_keys (errors_json errors)) ["field"; "message"].
Proof.
  unfold errors_json. cbn [json_keys].
  induction errors as [|e es IH]; simpl; [intros k []|].
  intros k [<-|[<-|H]]; [left; reflexivity|right; left; reflexivity|].
  apply IH. exact H.
Qed.

Lemma task_attributes_keys t :
  json_keys (task_attributes t) =
    ["id"; "title"; "description"; "priority"; "endDate"; "createdAt"; "updatedAt"].
Proof. unfold task_attributes. destruct (t_description t); reflexivity. Qed.

Lemma task_json_keys t :
  json_keys (task_json t) =
    ["id"; "userId"; "title"; "description"; "priority"; "endDate"; "createdAt";
     "updatedAt"; "created_at"; "updated_at"].
Proof. unfold task_json. destruct (i_description t); reflexivity. Qed.

Lemma task_list_keys rows :
  incl (json_keys (JArr (map task_attributes rows))) response_keys.
Proof.
  cbn [json_keys]. induction rows as [|t r IH]; [intros k []|].
  cbn [map flat_map]. apply incl_app; [|exact IH].
  rewrite task_attributes_keys. apply subset_check_incl. reflexivity.
Qed.

Lemma failure_plain code message : plain (failure code message).
Proof.
  repeat split. unfold keys_within. apply subset_check_incl. reflexivity.
Qed.

Lemma errors_plain code message errors :
  plain (respond code (JObj [("success", JBool false);
                             ("message", JStr message);
                             ("errors", errors_json errors)])).
Proof.
  repeat split. unfold keys_within, respond. cbn [body].
  change (json_keys (JObj [("success", JBool false); ("message", JStr message);
                           ("errors", errors_json errors)]))
    with ("success" :: "message" :: "errors"
          :: (json_keys (errors_json errors) ++ []))%list.
  rewrite app_nil_r.
  intros k [<-|[<-|[<-|H]]]; [key_in|key_in|key_in|].
  apply errors_json_keys in H.
  destruct H as [<-|[<-|[]]]; key_in.
Qed.

Lemma validate_plain errors r : validate errors = Some r -> plain r.
Proof.
  destruct errors; [discriminate|]. intros H; inversion H; subst.
  apply errors_plain.
Qed.

Lemma validation_error_plain errors : plain (validation_error errors).
Proof. apply errors_plain. Qed.

Lemma protect_inl_plain env db w req r : protect env db w req = inl r -> plain r.
Proof.
  unfold protect.
  destruct (pick_token req) as [token|];
    [|intros H; inversion H; apply failure_plain].
  destruct (token_truthy token); simpl;
    [|intros H; inversion H; apply failure_plain].
  destruct (jwt_verify (now w) token (JWT_SECRET env)) as [id| |];
    try (intros H; inversion H; apply failure_plain).
  destruct (User_findByPk db id); intros H; inversion H; apply failure_plain.
Qed.

Lemma sendTokenResponse_summary env w token code db row :
  In row (users db) ->
  with_user user_summary db (sendTokenResponse env w token code (instance_of row)).
Proof.
  intros Hin. split; [|split].
  - unfold keys_within. apply subset_check_incl. reflexivity.
  - reflexivity.
  - exists row. split; [exact Hin|reflexivity].
Qed.

Lemma register_form L env db w req :
  answer_form POST_auth_register (snd (register L env db w req))
    (fst (register L env db w req)).
Proof.
  unfold register, answer_form.
  destruct (b_email (body_in req)) as [email|]; [|left; apply failure_plain].
  destruct (User_findOne_email db email); [left; apply failure_plain|].
  destruct (User_create L db w _ _ _) as [u db'|errors|] eqn:Ec; cbn [fst snd].
  - destruct (User_create_saved _ _ _ _ _ _ _ _ Ec) as (row & pw & -> & -> & _).
    destruct (generateToken env w _) as [token|]; cbn [fst snd];
      [|left; apply failure_plain].
    right. apply sendTokenResponse_summary.
    cbn [users]. apply in_or_app. right. left. reflexivity.
  - left. apply validation_error_plain.
  - left. apply failure_plain.
Qed.

Lemma login_form L env db w req :
  answer_form POST_auth_login db (login L env db w req).
Proof.
  unfold login, answer_form.
  destruct (b_email (body_in req)) as [email|]; [|left; apply failure_plain].
  destruct (User_findOne_email db email) as [u|] eqn:Ef; [|left; apply failure_plain].
  destruct (b_password (body_in req)) as [pw|]; [|left; apply failure_plain].
  destruct (comparePassword L u pw) as [[|]|]; try (left; apply failure_plain).
  destruct (generateToken env w _) as [token|]; [|left; apply failure_plain].
  destruct (findOne_email_some _ _ _ Ef) as (row & Hin & _ & ->).
  right. apply sendTokenResponse_summary. exact Hin.
Qed.

Lemma getMe_form db req : answer_form GET_auth_me db (getMe db req).
Proof.
  unfold getMe, answer_form.
  destruct (user req) as [requester|]; [|left; apply failure_plain].
  destruct (User_findByPk db (ui_id requester)) as [u|] eqn:Ef;
    [|left; apply failure_plain].
  destruct (findByPk_no_password _ _ _ Ef) as (_ & _ & row & Hin & ->).
  right. split; [|split].
  - unfold keys_within. apply subset_check_incl. reflexivity.
  - reflexivity.
  - exists row. split; [exact Hin|reflexivity].
Qed.

Lemma logout_plain w req : plain (logout w req).
Proof.
  repeat split. unfold keys_within. apply subset_check_incl. reflexivity.
Qed.

Lemma json_num_keys n : json_keys (json_num n) = [].
Proof. destruct n; reflexivity. Qed.

Lemma getTasks_form L db w req : answer_form GET_tasks db (getTasks L db w req).
Proof.
  unfold getTasks, answer_form.
  destruct (user req) as [u|]; [|left; apply failure_plain].
  destruct (getTasks_rows L db w (ui_id u) (query req)) as [[count rows]|] eqn:Er;
    [|left; apply failure_plain].
  right. split; [|split].
  - unfold keys_within, respond. cbn [body].
    cbn [json_keys flat_map fst snd app].
    rewrite !json_num_keys. cbn [app]. rewrite app_nil_r.
    intros k Hk.
    repeat (destruct Hk as [<-|Hk]; [key_in|]).
    apply (task_list_keys rows). cbn [json_keys]. exact Hk.
  - reflexivity.
  - exists rows. split; [|reflexivity].
    destruct (getTasks_rows_inv _ _ _ _ _ _ _ Er) as (_ & d & l & o & _ & _ & _ & ->).
    apply Forall_forall. intros t Ht.
    apply window_In, ordered_rows_In in Ht. unfold owned_rows in Ht.
    apply filter_In in Ht as [Hin _]. exact Hin.
Qed.

Lemma task_plain code fields t :
  incl (flat_map (fun kv => fst kv :: json_keys (snd kv)) fields) response_keys ->
  assoc "user" fields = None -> assoc "tasks" fields = None ->
  plain (respond code (JObj (fields ++ [("task", task_json t)]))).
Proof.
  intros Hk Hu Ht. unfold plain, keys_within, respond. cbn [body get].
  assert (A : forall k, k <> "task" -> assoc k fields = None ->
              assoc k (fields ++ [("task", task_json t)]) = None).
  { clear Hk Hu Ht. intros k Hne.
    induction fields as [|[k' v] r IH]; cbn [app assoc].
    - intros _. destruct (String.eqb_spec k "task"); [contradiction|reflexivity].
    - destruct (k =? k')%string; [discriminate|exact IH]. }
  split; [|split; [apply A; [discriminate|exact Hu]|apply A; [discriminate|exact Ht]]].
  cbn [json_keys]. rewrite flat_map_app. apply incl_app; [exact Hk|].
  cbn [flat_map fst snd]. rewrite app_nil_r, task_json_keys.
  apply subset_check_incl. reflexivity.
Qed.

Lemma getTask_plain db req : plain (getTask db req).
Proof.
  unfold getTask.
  destruct (user req) as [u|]; [|apply failure_plain].
  destruct (params_id req) as [id|]; [|apply failure_plain].
  destruct (Task_findOne db id (ui_id u)) as [task|]; [|apply failure_plain].
  apply (task_plain 200 [("success", JBool true)]);
    [apply subset_check_incl; reflexivity|reflexivity|reflexivity].
Qed.

Lemma createTask_plain L db w req : plain (fst (createTask L db w req)).
Proof.
  unfold createTask.
  destruct (user req) as [u|]; [|apply failure_plain].
  destruct (Task_create L db w _ _ _ _ _) as [task db'|errors|]; cbn [fst].
  - apply (task_plain 201 [("success", JBool true);
                           ("message", JStr "Task created successfully")]);
      [apply subset_check_incl; reflexivity|reflexivity|reflexivity].
  - apply validation_error_plain.
  - apply failure_plain.
Qed.

Lemma updateTask_plain L db w req : plain (fst (updateTask L db w req)).
Proof.
  unfold updateTask.
  destruct (user req) as [u|]; [|apply failure_plain].
  destruct (params_id req) as [id|]; [|apply failure_plain].
  destruct (Task_findOne db id (ui_id u)) as [task|]; [|apply failure_plain].
  destruct (Task_save L db w task _) as [task' db'|errors|]; cbn [fst].
  - apply (task_plain 200 [("success", JBool true);
                           ("message", JStr "Task updated successfully")]);
      [apply subset_check_incl; reflexivity|reflexivity|reflexivity].
  - apply validation_error_plain.
  - apply failure_plain.
Qed.

Lemma deleteTask_plain db req : plain (fst (deleteTask db req)).
Proof.
  unfold deleteTask.
  destruct (user req) as [u|]; [|apply failure_plain].
  destruct (params_id req) as [id|]; [|apply failure_plain].
  destruct (Task_findOne db id (ui_id u)) as [task|]; [|apply failure_plain].
  repeat split. unfold keys_within. apply subset_check_incl. reflexivity.
Qed.

Lemma plain_form e db r : plain r -> answer_form e db r.
Proof. destruct e; simpl; auto. Qed.

Lemma route_form L env e db w req :
  answer_form e (store_of (route L env e db w req))
    (response_of (route L env e db w req)).
Proof.
  unfold response_of, store_of.
  destruct e; unfold route, protected, validated.
  - destruct (registerValidation L (body_in req)) as [b errors].
    destruct (validate errors) as [r|] eqn:E.
    + apply plain_form. apply (validate_plain _ _ E).
    + apply register_form.
  - destruct (loginValidation L (body_in req)) as [b errors].
    destruct (validate errors) as [r|] eqn:E.
    + apply plain_form. apply (validate_plain _ _ E).
    + apply login_form.
  - destruct (protect env db w req) as [r|req'] eqn:E.
    + apply (protect_inl_plain _ _ _ _ _ E).
    + apply logout_plain.
  - destruct (protect env db w req) as [r|req'] eqn:E.
    + apply plain_form. apply (protect_inl_plain _ _ _ _ _ E).
    + apply getMe_form.
  - destruct (protect env db w req) as [r|req'] eqn:E.
    + apply plain_form. apply (protect_inl_plain _ _ _ _ _ E).
    + destruct (paginationValidation L (query req')) as [q errors].
      destruct (validate errors) as [r|] eqn:Ev.
      * apply plain_form. apply (validate_plain _ _ Ev).
      * apply getTasks_form.
  - destruct (protect env db w req) as [r|req'] eqn:E.
    + apply (protect_inl_plain _ _ _ _ _ E).
    + destruct (taskValidation L (body_in req')) as [b errors].
      destruct (validate errors) as [r|] eqn:Ev.
      * apply (validate_plain _ _ Ev).
      * apply createTask_plain.
  - destruct (protect env db w req) as [r|req'] eqn:E.
    + apply (protect_inl_plain _ _ _ _ _ E).
    + apply getTask_plain.
  - destruct (protect env db w req) as [r|req'] eqn:E.
    + apply (protect_inl_plain _ _ _ _ _ E).
    + destruct (taskValidation L (body_in req')) as [b errors].
      destruct (validate errors) as [r|] eqn:Ev.
      * apply (validate_plain _ _ Ev).
      * apply updateTask_plain.
  - destruct (protect env db w req) as [r|req'] eqn:E.
    + apply (protect_inl_plain _ _ _ _ _ E).
    + apply deleteTask_plain.
Qed.

Lemma keys_without_password : ~ In "password" response_keys.
Proof.
  unfold response_keys. simpl. intros H.
  repeat (destruct H as [H|H]; [discriminate|]). exact H.
Qed.

Lemma answer_keys e db r : answer_form e db r -> keys_within r.
Proof.
  destruct e; simpl; unfold plain, with_user, with_listing; tauto.
Qed.

(** ** Responses do not depend on the password column *)

Section Passwords.

Variables db1 db2 : Store.
Hypothesis same : differ_in_passwords_only db1 db2.

Lemma findByPk_same id : User_findByPk db1 id = User_findByPk db2 id.
Proof.
  destruct same as (Hu & _). unfold User_findByPk.
  induction Hu as [|a b l1 l2 (Hid & Hn & He & Hc) _ IH]; [reflexivity|].
  cbn [find]. rewrite Hid. destruct (u_id b =? id); [|exact IH].
  cbn [option_map]. unfold exclude_password. rewrite Hid, Hn, He, Hc. reflexivity.
Qed.

Lemma protect_same env w req : protect env db1 w req = protect env db2 w req.
Proof.
  unfold protect. destruct (pick_token req) as [t|]; [|reflexivity].
  destruct (negb (token_truthy t)); [reflexivity|].
  destruct (jwt_verify (now w) t (JWT_SECRET env)); try reflexivity.
  rewrite findByPk_same. reflexivity.
Qed.

(** The users with a given email: found in both stores or in neither, and
    then the same but for the password. *)
Lemma findOne_email_same email :
  match User_findOne_email db1 email, User_findOne_email db2 email with
  | Some u1, Some u2 =>
      ui_id u1 = ui_id u2 /\ ui_name u1 = ui_name u2 /\ ui_email u1 = ui_email u2
  | None, None => True
  | _, _ => False
  end.
Proof.
  destruct same as (Hu & _). unfold User_findOne_email.
  induction Hu as [|a b l1 l2 (Hid & Hn & He & Hc) _ IH]; [exact I|].
  cbn [find]. rewrite He. destruct (u_email b =? email)%string; [|exact IH].
  cbn [option_map instance_of ui_id ui_name ui_email]. auto.
Qed.

Lemma email_taken_same email :
  existsb (fun u => String.eqb (u_email u) email) (users db1)
  = existsb (fun u => String.eqb (u_email u) email) (users db2).
Proof.
  destruct same as (Hu & _).
  induction Hu as [|a b l1 l2 (Hid & Hn & He & Hc) _ IH]; [reflexivity|].
  cbn [existsb]. rewrite He, IH. reflexivity.
Qed.

Lemma user_exists_same id :
  existsb (fun u => u_id u =? id) (users db1)
  = existsb (fun u => u_id u =? id) (users db2).
Proof.
  destruct same as (Hu & _).
  induction Hu as [|a b l1 l2 (Hid & Hn & He & Hc) _ IH]; [reflexivity|].
  cbn [existsb]. rewrite Hid, IH. reflexivity.
Qed.

Lemma register_same L env w req :
  fst (register L env db1 w req) = fst (register L env db2 w req).
Proof.
  unfold register.
  destruct (b_email (body_in req)) as [email|]; [|reflexivity].
  pose proof (findOne_email_same email) as Hf.
  destruct (User_findOne_email db1 email), (User_findOne_email db2 email);
    try contradiction; [reflexivity|].
  unfold User_create. destruct same as (_ & _ & Hseq & _).
  destruct (User_validate L _ _ _); [|reflexivity].
  destruct (b_name (body_in req)) as [n|]; [|reflexivity].
  destruct (b_password (body_in req)) as [pw|]; [|reflexivity].
  rewrite (email_taken_same email), Hseq.
  destruct (existsb _ (users db2) || _); [reflexivity|].
  cbn [instance_of ui_id u_id].
  destruct (generateToken env w (users_seq db2)); reflexivity.
Qed.

Lemma sendTokenResponse_same env w token code u1 u2 :
  ui_id u1 = ui_id u2 -> ui_name u1 = ui_name u2 -> ui_email u1 = ui_email u2 ->
  sendTokenResponse env w token code u1 = sendTokenResponse env w token code u2.
Proof. intros H1 H2 H3. unfold sendTokenResponse. rewrite H1, H2, H3. reflexivity. Qed.

Lemma login_same L env w req :
  login_check L db1 req = login_check L db2 req ->
  login L env db1 w (set_body req (fst (loginValidation L (body_in req))))
  = login L env db2 w (set_body req (fst (loginValidation L (body_in req)))).
Proof.
  unfold login_check, login. cbn [body_in set_body].
  destruct (b_email (fst (loginValidation L (body_in req)))) as [email|];
    [|reflexivity].
  pose proof (findOne_email_same email) as Hf.
  destruct (User_findOne_email db1 email) as [u1|],
           (User_findOne_email db2 email) as [u2|];
    try contradiction; [|reflexivity].
  destruct Hf as (H1 & H2 & H3).
  destruct (b_password (fst (loginValidation L (body_in req)))) as [pw|];
    [|reflexivity].
  intros ->. destruct (comparePassword L u2 pw) as [[|]|]; try reflexivity.
  rewrite H1. destruct (generateToken env w (ui_id u2)); [|reflexivity].
  apply sendTokenResponse_same; assumption.
Qed.

Lemma getMe_same req : getMe db1 req = getMe db2 req.
Proof.
  unfold getMe. destruct (user req); [|reflexivity].
  rewrite findByPk_same. reflexivity.
Qed.

Lemma getTasks_same L w req : getTasks L db1 w req = getTasks L db2 w req.
Proof.
  destruct same as (_ & Ht & _).
  unfold getTasks, getTasks_rows, Task_findAndCountAll. rewrite Ht. reflexivity.
Qed.

Lemma findOne_same id uid : Task_findOne db1 id uid = Task_findOne db2 id uid.
Proof. destruct same as (_ & Ht & _). unfold Task_findOne. rewrite Ht. reflexivity. Qed.

Lemma getTask_same req : getTask db1 req = getTask db2 req.
Proof.
  unfold getTask. destruct (user req); [|reflexivity].
  destruct (params_id req); [|reflexivity]. rewrite findOne_same. reflexivity.
Qed.

Lemma createTask_same L w req :
  fst (createTask L db1 w req) = fst (createTask L db2 w req).
Proof.
  destruct same as (_ & _ & _ & Hseq).
  unfold createTask. destruct (user req) as [u|]; [|reflexivity].
  unfold Task_create. rewrite (user_exists_same (ui_id u)), Hseq.
  match goal with
  | |- context [match ?e with [] => _ | _ :: _ => _ end] => destruct e; [|reflexivity]
  end.
  destruct (b_title (body_in req)); [|reflexivity].
  destruct (option_map (date_value L) (b_endDate (body_in req))) as [[day|]|];
    try reflexivity.
  match goal with
  | |- context [if ?c then Saved _ _ else _] => destruct c; reflexivity
  end.
Qed.

Lemma updateTask_same L w req :
  fst (updateTask L db1 w req) = fst (updateTask L db2 w req).
Proof.
  unfold updateTask. destruct (user req) as [u|]; [|reflexivity].
  destruct (params_id req) as [id|]; [|reflexivity].
  rewrite findOne_same.
  destruct (Task_findOne db2 id (ui_id u)) as [task|]; [|reflexivity].
  unfold Task_save.
  destruct (negb _); [reflexivity|].
  match goal with
  | |- context [match ?e with [] => _ | _ :: _ => _ end] => destruct e; [|reflexivity]
  end.
  match goal with
  | |- context [date_value L ?d] => destruct (date_value L d); [|reflexivity]
  end.
  match goal with
  | |- context [if ?c then OtherError else _] => destruct c; reflexivity
  end.
Qed.

Lemma deleteTask_same req :
  fst (deleteTask db1 req) = fst (deleteTask db2 req).
Proof.
  unfold deleteTask. destruct (user req) as [u|]; [|reflexivity].
  destruct (params_id req) as [id|]; [|reflexivity].
  rewrite findOne_same.
  destruct (Task_findOne db2 id (ui_id u)); reflexivity.
Qed.

Lemma route_same L env e w req :
  (e = POST_auth_login -> login_check L db1 req = login_check L db2 req) ->
  response_of (route L env e db1 w req) = response_of (route L env e db2 w req).
Proof.
  intros Hlogin. unfold response_of.
  destruct e; unfold route, protected, validated; rewrite ?protect_same.
  - destruct (registerValidation L (body_in req)) as [b errors].
    destruct (validate errors); [reflexivity|apply register_same].
  - specialize (Hlogin eq_refl). pose proof (login_same L env w req Hlogin) as E.
    destruct (loginValidation L (body_in req)) as [b errors].
    destruct (validate errors); [reflexivity|]. cbn [fst] in E |- *. exact E.
  - destruct (protect env db2 w req); reflexivity.
  - destruct (protect env db2 w req); [reflexivity|]. cbn [fst]. apply getMe_same.
  - destruct (protect env db2 w req) as [|req']; [reflexivity|].
    destruct (paginationValidation L (query req')) as [q errors].
    destruct (validate errors); [reflexivity|]. cbn [fst]. apply getTasks_same.
  - destruct (protect env db2 w req) as [|req']; [reflexivity|].
    destruct (taskValidation L (body_in req')) as [b errors].
    destruct (validate errors); [reflexivity|apply createTask_same].
  - destruct (protect env db2 w req); [reflexivity|]. cbn [fst]. apply getTask_same.
  - destruct (protect env db2 w req) as [|req']; [reflexivity|].
    destruct (taskValidation L (body_in req')) as [b errors].
    destruct (validate errors); [reflexivity|apply updateTask_same].
  - destruct (protect env db2 w req); [reflexivity|apply deleteTask_same].
Qed.

End Passwords.



(** ** Passwords *)

Lemma substring_prefix a b : substring 0 (String.length a) (a ++ b) = a.
Proof.
  induction a as [|c r IH]; simpl.
  - destruct b; reflexivity.
  - rewrite IH. reflexivity.
Qed.

Lemma length_append a b :
  String.length (a ++ b) = (String.length a + String.length b)%nat.
Proof. induction a as [|c r IH]; simpl; [reflexivity|rewrite IH; reflexivity]. Qed.

Lemma genSalt_length text :
  String.length text = 22%nat -> String.length (bcrypt_genSalt 10 text) = 29%nat.
Proof.
  intros H. unfold bcrypt_genSalt.
  change (two_digits 10) with "10".
  rewrite !length_append, H. reflexivity.
Qed.

Lemma append_cancel a x y : (a ++ x = a ++ y)%string -> x = y.
Proof.
  induction a as [|c r IH]; simpl; intros H; [exact H|].
  inversion H. auto.
Qed.

(** [bcrypt.compare] accepts a candidate exactly when its digest under the
    stored salt is the stored digest. *)
Lemma compare_hash_iff L pw other salt :
  String.length salt = 29%nat ->
  bcrypt_compare L other (bcrypt_hash L pw salt) = true <->
  bcrypt_digest L salt (bcrypt_key other) = bcrypt_digest L salt (bcrypt_key pw).
Proof.
  intros H. unfold bcrypt_compare.
  assert (E : substring 0 29 (bcrypt_hash L pw salt) = salt).
  { unfold bcrypt_hash. rewrite <- H. apply substring_prefix. }
  rewrite E, String.eqb_eq. unfold bcrypt_hash. split.
  - apply append_cancel.
  - intros ->. reflexivity.
Qed.

Lemma hash_has_prefix L pw text :
  String.prefix "$2b$10$" (bcrypt_hash L pw (bcrypt_genSalt 10 text)) = true.
Proof.
  unfold bcrypt_hash, bcrypt_genSalt. change (two_digits 10) with "10".
  cbn [append]. simpl.
  destruct (text ++ _)%string; reflexivity.
Qed.

Lemma hash_differs L pw text :
  String.prefix "$2b$10$" pw = false ->
  bcrypt_hash L pw (bcrypt_genSalt 10 text) <> pw.
Proof.
  intros H E. rewrite <- E in H at 1. rewrite hash_has_prefix in H. discriminate.
Qed.

Lemma hash_form L pw text :
  bcrypt_hash L pw (bcrypt_genSalt 10 text) =
    "$2b$10$" ++ text ++ bcrypt_digest L ("$2b$10$" ++ text) (bcrypt_key pw).
Proof.
  unfold bcrypt_hash, bcrypt_genSalt. change (two_digits 10) with "10".
  reflexivity.
Qed.

(** A registration answered with 201 has appended one user row whose
    password column holds the result of the hashing hook. *)
Lemma register_201 L env db w req :
  status (response_of (route L env POST_auth_register db w req)) = 201 ->
  exists pw row,
    b_password (body_in req) = Some pw /\
    6 <= len pw /\
    u_password row = beforeCreate L w pw /\
    users (store_of (route L env POST_auth_register db w req)) = (users db ++ [row])%list /\
    tasks (store_of (route L env POST_auth_register db w req)) = tasks db.
Proof.
  unfold route, validated, response_of, store_of.
  destruct (registerValidation L (body_in req)) as [b errors] eqn:Ev.
  assert (Hb : b_password b = b_password (body_in req))
    by (unfold registerValidation in Ev; injection Ev as <- _; reflexivity).
  destruct errors as [|x xs]; [|cbn; discriminate].
  cbn [validate]. unfold register. cbn [body_in set_body].
  destruct (b_email b) as [email|]; [|cbn; discriminate].
  destruct (User_findOne_email db email); [cbn; discriminate|].
  destruct (User_create L db w _ _ _) as [u db'|errs|] eqn:Ec;
    [|cbn; discriminate|cbn; discriminate].
  destruct (generateToken env w (ui_id u)); [|cbn; discriminate].
  cbn [fst snd]. intros _.
  destruct (User_create_saved _ _ _ _ _ _ _ _ Ec)
    as (row & pw & _ & -> & _ & _ & _ & Hpw & Hrow & _ & Hval & _).
  exists pw, row. rewrite <- Hb. split; [exact Hpw|]. split.
  - rewrite Hpw in Hval. unfold User_validate in Hval.
    apply app_eq_nil in Hval as [_ Hval]. apply app_eq_nil in Hval as [_ Hval].
    apply check_nil, andb_true_iff in Hval as [Hval _].
    apply Z.leb_le in Hval. exact Hval.
  - split; [exact Hrow|]. split; reflexivity.
Qed.

Lemma beforeCreate_hashes L w pw :
  6 <= len pw ->
  beforeCreate L w pw = bcrypt_hash L pw (bcrypt_genSalt 10 (salt_text w)).
Proof.
  destruct pw; [unfold len; simpl; lia|reflexivity].
Qed.

(** X21. After a successful registration the password column holds the
    bcrypt string of cost 10, [$2b$10$] followed by the 22 characters of
    salt and the digest of the key of the submitted password; it differs
    from every plaintext that does not itself begin with [$2b$10$];
    [comparePassword] accepts the submitted plaintext, and accepts a
    string exactly when its digest under the stored salt is the stored
    digest, so also every string with the same 72-byte key. *)
Theorem password_stored_as_bcrypt_hash L env db w req :
  status (response_of (route L env POST_auth_register db w req)) = 201 ->
  String.length (salt_text w) = 22%nat ->
  let salt := "$2b$10$" ++ salt_text w in
  exists pw row,
    b_password (body_in req) = Some pw /\
    users (store_of (route L env POST_auth_register db w req))
      = (users db ++ [row])%list /\
    u_password row = salt ++ bcrypt_digest L salt (bcrypt_key pw) /\
    (String.prefix "$2b$10$" pw = false -> u_password row <> pw) /\
    comparePassword L (instance_of row) pw = Some true /\
    (forall other, bcrypt_key other = bcrypt_key pw ->
       comparePassword L (instance_of row) other = Some true) /\
    (forall other,
       comparePassword L (instance_of row) other = Some true <->
       bcrypt_digest L salt (bcrypt_key other) = bcrypt_digest L salt (bcrypt_key pw)).
Proof.
  intros H201 Hsalt salt.
  destruct (register_201 L env db w req H201) as (pw & row & Hpw & Hlen & Hrow & Hus & _).
  rewrite (beforeCreate_hashes L w pw Hlen) in Hrow.
  pose proof (genSalt_length _ Hsalt) as H29.
  assert (Hiff : forall other,
             comparePassword L (instance_of row) other = Some true <->
             bcrypt_digest L salt (bcrypt_key other) = bcrypt_digest L salt (bcrypt_key pw)).
  { intros other. unfold comparePassword, instance_of. cbn [ui_password].
    rewrite Hrow. split.
    - intros E. inversion E as [E'].
      apply (compare_hash_iff L pw other _ H29) in E'. exact E'.
    - intros E. f_equal.
      apply (compare_hash_iff L pw other _ H29). exact E. }
  exists pw, row. split; [exact Hpw|]. split; [exact Hus|].
  split; [rewrite Hrow; apply hash_form|].
  split; [intros Hn; rewrite Hrow; apply hash_differs; exact Hn|].
  split; [apply Hiff; reflexivity|].
  split; [|exact Hiff].
  intros other Hk. apply Hiff. rewrite Hk. reflexivity.
Qed.

Lemma password_stored_as_bcrypt_hash_witness :
  let w := sample_world 1000000 in
  let r := route sample_lib sample_env POST_auth_register empty_store w
             (registration "Jane" "jane@x.com" "secret1") in
  exists row,
    users (store_of r) = [row] /\
    u_password row <> "secret1" /\
    comparePassword sample_lib (instance_of row) "secret1" = Some true.
Proof.
  intros w r.
  destruct (password_stored_as_bcrypt_hash sample_lib sample_env empty_store w
              (registration "Jane" "jane@x.com" "secret1") eq_refl eq_refl)
    as (pw & row & Hpw & Hus & _ & Hne & Hok & _).
  inversion Hpw; subst pw.
  exists row. split; [exact Hus|]. split; [apply Hne; reflexivity|exact Hok].
Defined.

(** C8.  [comparePassword] is documented to return true if the passwords
    match, so that it would return false for any other string.  It
    does not: bcrypt hashes a key of at most 72 bytes, and neither the
    validation chain nor the model keeps passwords that short.  Whatever
    the digest function and the salt, a row whose password column was
    filled by the hashing hook from a password of 73 characters verifies a
    different password with the same first 72 characters; on the sample
    data that password registers and the other one then logs in. *)
Theorem other_password_accepted :
  long_password_c <> long_password_b /\
  (forall L w row,
     String.length (salt_text w) = 22%nat ->
     u_password row = beforeCreate L w long_password_b ->
     comparePassword L (instance_of row) long_password_c = Some true) /\
  let w := sample_world 1000000 in
  let r := route sample_lib sample_env POST_auth_register empty_store w
             (registration "Jane" "jane@x.com" long_password_b) in
  status (response_of r) = 201 /\
  (exists u, User_findOne_email (store_of r) "jane@x.com" = Some u /\
             comparePassword sample_lib u long_password_c = Some true) /\
  status (response_of (route sample_lib sample_env POST_auth_login (store_of r) w
                         (credentials "jane@x.com" long_password_c))) = 200.
Proof.
  split; [apply String.eqb_neq; reflexivity|]. split.
  - intros L w row Hsalt Hrow.
    unfold comparePassword, instance_of. cbn [ui_password]. rewrite Hrow.
    rewrite beforeCreate_hashes by (vm_compute; discriminate).
    f_equal. apply (compare_hash_iff L _ _ _ (genSalt_length _ Hsalt)).
    reflexivity.
  - intros w r. split; [reflexivity|].
    split; [eexists; split; reflexivity|reflexivity].
Qed.

(** ** Updating a task *)

Lemma option_string_eqb_eq a b : option_string_eqb a b = true <-> a = b.
Proof.
  destruct a, b; simpl; try (split; congruence).
  rewrite String.eqb_eq. split; congruence.
Qed.

Lemma if_nil {A} (c : bool) : (if c then @nil A else []) = [].
Proof. destruct c; reflexivity. Qed.

Lemma write_other w id v day t : t_id t <> id -> write_task w id v day t = t.
Proof.
  intros H. unfold write_task.
  destruct (t_id t =? id) eqn:E; [apply Z.eqb_eq in E; contradiction|reflexivity].
Qed.

(** After the UPDATE the lookup by id and owner finds the written row. *)
Lemma find_written w v day id uid l task :
  find (fun t => (t_id t =? id) && (t_userId t =? uid)) l = Some task ->
  find (fun t => (t_id t =? id) && (t_userId t =? uid))
       (map (write_task w id v day) l)
  = Some (write_task w id v day task).
Proof.
  induction l as [|t r IH]; simpl; [discriminate|].
  destruct ((t_id t =? id) && (t_userId t =? uid)) eqn:E.
  - intros H; injection H as <-.
    apply andb_true_iff in E as [E1 E2].
    unfold write_task. rewrite E1. cbn [t_id t_userId]. rewrite E1, E2.
    reflexivity.
  - intros H.
    assert (E' : (t_id (write_task w id v day t) =? id)
                 && (t_userId (write_task w id v day t) =? uid) = false).
    { unfold write_task. destruct (t_id t =? id) eqn:E1; cbn [t_id t_userId];
        rewrite ?E1; [exact E|reflexivity]. }
    rewrite E'. apply IH, H.
Qed.

(** [save()] after assignments that pass the model validators and that
    the database takes. *)
Lemma Task_save_result L db w task v day id uid :
  Task_findOne db id uid = Some task ->
  v_endDate v = DDate day ->
  title_errors (v_title v) = [] ->
  priority_errors (v_priority v) = [] ->
  storable_text (v_title v) = true ->
  storable_opt (v_description v) = true ->
  date_in_range L day = true ->
  exists inst task' db',
    Task_save L db w task v = Saved inst db' /\
    Task_findOne db' id uid = Some task' /\
    t_title task' = v_title v /\
    t_description task' = v_description v /\
    t_priority task' = v_priority v /\
    t_endDate task' = day /\
    t_id task' = t_id task /\
    t_userId task' = t_userId task /\
    t_createdAt task' = t_createdAt task /\
    (t_title task <> v_title v \/ t_description task <> v_description v \/
     t_priority task <> v_priority v \/ t_endDate task <> day ->
     t_updatedAt task' = db_now w) /\
    users db' = users db /\
    (forall t, In t (tasks db) -> t_id t <> id -> In t (tasks db')).
Proof.
  intros Hf Hd Ht Hp S1 S2 S3.
  destruct (findOne_some _ _ _ _ Hf) as (Hin & Hid & Huid).
  unfold Task_save. rewrite Hd, Ht, Hp.
  cbn [endDate_changed date_value endDate_errors].
  destruct (negb _) eqn:Hc.
  - apply negb_true_iff in Hc.
    apply orb_false_iff in Hc as [Hc E4].
    apply orb_false_iff in Hc as [Hc E3].
    apply orb_false_iff in Hc as [E1 E2].
    apply negb_false_iff in E1, E2, E3, E4.
    apply String.eqb_eq in E1. apply option_string_eqb_eq in E2.
    apply String.eqb_eq in E3. apply Z.eqb_eq in E4.
    exists (loaded task), task, db. repeat split; auto.
    intros [C|[C|[C|C]]]; congruence.
  - rewrite !if_nil. cbn [app]. rewrite S1, S2, S3.
    cbn [negb]. rewrite !andb_false_r. cbn [orb].
    exists (saved_instance w v day task),
           (write_task w (t_id task) v day task). eexists.
    split; [reflexivity|]. cbn [tasks users].
    split.
    { unfold Task_findOne in *. cbn [tasks]. rewrite Hid.
      apply find_written. exact Hf. }
    unfold write_task at 1 2 3 4 5 6 7 8. rewrite Z.eqb_refl.
    cbn [t_title t_description t_priority t_endDate t_id t_userId t_createdAt
         t_updatedAt].
    repeat split; auto.
    intros t Ht' Hne. rewrite <- (write_other w (t_id task) v day t) by congruence.
    apply in_map. exact Ht'.
Qed.

Lemma taskValidation_missing L b :
  b_title b = None \/ b_priority b = None \/ b_endDate b = None ->
  snd (taskValidation L b) <> [].
Proof.
  unfold taskValidation. cbn [snd]. intros [H|[H|H]] E; rewrite H in E.
  - discriminate E.
  - apply app_eq_nil in E as [_ E]. apply app_eq_nil in E as [_ E].
    discriminate E.
  - do 4 (apply app_eq_nil in E as [_ E]). discriminate E.
Qed.

Lemma taskValidation_accepts L b :
  snd (taskValidation L b) = [] ->
  exists title priority date,
    b_title b = Some title /\ b_priority b = Some priority /\
    b_endDate b = Some (DStr date) /\
    notEmpty (Js.trim title) = true /\ len (Js.trim title) <= 255 /\
    notEmpty priority = true /\ In priority priorities.
Proof.
  unfold taskValidation. cbn [snd]. intros E.
  apply app_eq_nil in E as [E1 E]. apply app_eq_nil in E as [E2 E].
  apply app_eq_nil in E as [E3 E]. apply app_eq_nil in E as [E4 E].
  apply app_eq_nil in E as [E5 E6].
  apply check_nil in E1, E2, E3, E4, E5.
  destruct (b_title b) as [title|]; [|discriminate E1].
  destruct (b_priority b) as [priority|]; [|discriminate E3].
  destruct (b_endDate b) as [[date| |]|]; try discriminate E5.
  exists title, priority, date. cbn [str_of] in *.
  repeat split; auto.
  - apply Z.leb_le. exact E2.
  - apply isIn_inv. exact E4.
Qed.

Lemma str_or_some s d : notEmpty s = true -> Js.str_or (Some s) d = s.
Proof. destruct s; [discriminate|reflexivity]. Qed.

Lemma title_errors_ok s :
  notEmpty (Js.trim s) = true -> len (Js.trim s) <= 255 ->
  title_errors (Js.trim s) = [].
Proof.
  intros H1 H2. unfold title_errors.
  rewrite (trim_not_blank _ H1). cbn [check app].
  assert (H3 : 1 <= len (Js.trim s)).
  { destruct (Js.trim s); [discriminate|]. unfold len. simpl String.length. lia. }
  destruct (1 <=? len (Js.trim s)) eqn:A; [|apply Z.leb_gt in A; lia].
  destruct (len (Js.trim s) <=? 255) eqn:B; [|apply Z.leb_gt in B; lia].
  reflexivity.
Qed.

Lemma priority_errors_ok p : In p priorities -> priority_errors p = [].
Proof. intros H. unfold priority_errors. rewrite (isIn_intro _ _ H). reflexivity. Qed.

Lemma route_PUT L env db w req req' :
  protect env db w req = inr req' ->
  route L env PUT_tasks_id db w req =
    validated db (snd (taskValidation L (body_in req)))
      (updateTask L db w (set_body req' (fst (taskValidation L (body_in req))))).
Proof.
  intros H. destruct (protect_inr _ _ _ _ _ H) as (t & id & u & _ & _ & _ & _ & ->).
  unfold route, protected. rewrite H. cbn [body_in set_user].
  destruct (taskValidation L (body_in req)); reflexivity.
Qed.

(** C3, as the code has it.  PUT /tasks/:id on a task of the requester
    goes through the validation chains of task creation.  A body that
    leaves out title, priority or endDate (a body with only a description,
    say) is answered with 400 and the store stays as it was.  A body that
    passes the chains, and whose values the database takes (no NUL
    character in title or description, a day within the range of DATE),
    replaces title (trimmed), priority and endDate by the supplied values
    (endDate keeps its stored value when [toDate] does not read the
    string), replaces description only if one is supplied, keeps id, owner
    and creation time, has the updated timestamp of the row set to the
    clock of the database when a field changed, and touches no task with
    another id. *)
Theorem update_replaces_validated_fields L env db w req req' u id task :
  protect env db w req = inr req' ->
  user req' = Some u ->
  params_id req = Some id ->
  Task_findOne db id (ui_id u) = Some task ->
  let r := route L env PUT_tasks_id db w req in
  let b := body_in req in
  (b_title b = None \/ b_priority b = None \/ b_endDate b = None ->
   status (response_of r) = 400 /\ store_of r = db) /\
  (snd (taskValidation L b) = [] ->
   exists title priority date,
     b_title b = Some title /\ b_priority b = Some priority /\
     b_endDate b = Some (DStr date) /\
     let title' := Js.trim title in
     let description' :=
       match b_description b with
       | Some d => Some (Js.trim d)
       | None => t_description task
       end in
     let day' := match toDate L date with Some d => d | None => t_endDate task end in
     (storable_text title' = true -> storable_opt description' = true ->
      date_in_range L day' = true ->
      exists task',
        status (response_of r) = 200 /\
        Task_findOne (store_of r) id (ui_id u) = Some task' /\
        t_title task' = title' /\
        t_priority task' = priority /\
        t_endDate task' = day' /\
        t_description task' = description' /\
        t_id task' = t_id task /\
        t_userId task' = t_userId task /\
        t_createdAt task' = t_createdAt task /\
        (t_title task <> t_title task' \/ t_description task <> t_description task' \/
         t_priority task <> t_priority task' \/ t_endDate task <> t_endDate task' ->
         t_updatedAt task' = db_now w) /\
        users (store_of r) = users db /\
        (forall t, In t (tasks db) -> t_id t <> id -> In t (tasks (store_of r))))).
Proof.
  intros Hp Hu Hid Hf r b.
  assert (Hr := route_PUT L env db w req req' Hp). fold r b in Hr.
  destruct (protect_inr _ _ _ _ _ Hp) as (tk & i & u' & _ & _ & _ & _ & Hreq').
  assert (u' = u) by (subst req'; simpl in Hu; congruence). subst u'.
  split.
  - intros Hm. pose proof (taskValidation_missing L b Hm) as Hne.
    rewrite Hr. unfold validated. rewrite (validate_some _ Hne).
    split; reflexivity.
  - intros Hv.
    destruct (taskValidation_accepts L b Hv)
      as (title & priority & date & Et & Epr & Ed & Hne & Hlen & Hpn & Hpi).
    exists title, priority, date.
    split; [exact Et|]. split; [exact Epr|]. split; [exact Ed|].
    intros title' description' day' S1 S2 S3.
    rewrite Hr. unfold validated. rewrite (validate_nil _ Hv).
    unfold updateTask.
    assert (Hu' : user (set_body req' (fst (taskValidation L b))) = Some u)
      by (subst req'; reflexivity).
    assert (Hid' : params_id (set_body req' (fst (taskValidation L b))) = Some id)
      by (subst req'; exact Hid).
    rewrite Hu', Hid', Hf.
    unfold taskValidation. cbn [fst body_in set_body b_title b_description
                                b_priority b_endDate].
    rewrite Et, Epr, Ed. cbn [str_of dval_str].
    rewrite (str_or_some _ _ Hne), (str_or_some _ _ Hpn).
    assert (Hdate : date_or (Some (toDate_sanitizer L date)) (t_endDate task)
                    = DDate day').
    { unfold toDate_sanitizer, day'. destruct (toDate L date); reflexivity. }
    rewrite Hdate.
    set (v := {| v_title := Js.trim title;
                 v_description :=
                   match option_map Js.trim (b_description b) with
                   | Some d => Some d
                   | None => t_description task
                   end;
                 v_priority := priority;
                 v_endDate := DDate day' |}).
    assert (Edesc : v_description v = description').
    { subst v description'. cbn [v_description].
      destruct (b_description b); reflexivity. }
    destruct (Task_save_result L db w task v day' id (ui_id u) Hf eq_refl
                (title_errors_ok _ Hne Hlen) (priority_errors_ok _ Hpi)
                S1 ltac:(rewrite Edesc; exact S2) S3)
      as (inst & task' & db' & Hs & Hf' & T1 & T2 & T3 & T4 & T5 & T6 & T7 & T8
          & T9 & T10).
    rewrite Hs. unfold response_of, store_of. cbn [fst snd].
    exists task'.
    cbn [v_title v_priority] in T1, T3, T8. rewrite Edesc in T2, T8.
    repeat split; auto.
    intros C. apply T8. rewrite <- T1, <- T2, <- T3, <- T4. exact C.
Qed.

Lemma update_replaces_validated_fields_witness :
  let nbsp := String (ascii_of_nat 160) EmptyString in
  let req := jane_updates (Some (nbsp ++ " T ")) None (Some "high")
               (Some "2025-12-31") in
  let r := route sample_lib sample_env PUT_tasks_id sample_store (sample_world 5000) req in
  exists task',
    status (response_of r) = 200 /\
    Task_findOne (store_of r) 1 1 = Some task' /\
    t_title task' = "T" /\ t_priority task' = "high" /\
    t_endDate task' = 20251231 /\ t_description task' = None /\
    t_updatedAt task' = 5007.
Proof.
  intros nbsp req r.
  destruct (update_replaces_validated_fields sample_lib sample_env sample_store
              (sample_world 5000) req (set_user req (exclude_password jane))
              (exclude_password jane) 1
              (mk_task 1 1 "low one" "low" 20250101 3000)
              eq_refl eq_refl eq_refl eq_refl) as [_ H].
  destruct (H eq_refl) as (title & priority & date & Et & Ep & Ed & H').
  injection Et as <-. injection Ep as <-. injection Ed as <-.
  destruct (H' eq_refl eq_refl eq_refl)
    as (task' & Hs & Hf & T1 & T2 & T3 & T4 & _ & _ & _ & T8 & _).
  exists task'. repeat split; auto.
  apply T8. left. rewrite T1. discriminate.
Defined.

(** C3 as written fails: a PUT that supplies only a description is not
    carried out.  The route answers 400 and the stored task keeps its
    description and its updated timestamp. *)
Lemma description_only_update_refused :
  let req := jane_updates None (Some "new text") None None in
  let r := route sample_lib sample_env PUT_tasks_id sample_store (sample_world 5000) req in
  Task_findOne sample_store 1 1 = Some (mk_task 1 1 "low one" "low" 20250101 3000) /\
  status (response_of r) = 400 /\
  get "message" (body (response_of r)) = Some (JStr "Validation failed") /\
  store_of r = sample_store /\
  Task_findOne (store_of r) 1 1 = Some (mk_task 1 1 "low one" "low" 20250101 3000).
Proof. repeat split. Qed.

(** The handler on its own, reached without the validation chains, does
    carry out such an update. *)
Lemma updateTask_alone_is_partial :
  let req := set_user (jane_updates None (Some "new text") None None)
               (exclude_password jane) in
  let r := updateTask sample_lib sample_store (sample_world 5000) req in
  status (response_of r) = 200 /\
  Task_findOne (store_of r) 1 1 =
    Some {| t_id := 1; t_userId := 1; t_title := "low one";
            t_description := Some "new text"; t_priority := "low";
            t_endDate := 20250101; t_createdAt := 3000; t_updatedAt := 5007 |}.
Proof. split; reflexivity. Qed.

(** * Further properties of the code *)

(** ** The auth gate on missing and bad tokens *)

Lemma presents_any req t :
  presents req t -> token_truthy t = true -> pick_token req = Some t.
Proof.
  unfold presents, pick_token, bearer. intros [H|[H1 H2]] Ht.
  - rewrite H, Ht. reflexivity.
  - rewrite H1, H2. reflexivity.
Qed.

(** X1. Without a usable token the gate answers 401 with the login
    message: the cookie is absent or empty, and the Authorization header
    is absent, does not start with [Bearer], or has no (or an empty)
    piece after its first space. *)
Theorem protect_without_token env db w req :
  cookies_token req = None \/ cookies_token req = Some (Opaque "") ->
  (headers_authorization req = None \/
   exists h, headers_authorization req = Some h /\
             (Js.startsWith (ah_first h) "Bearer" = false
              \/ ah_second h = None \/ ah_second h = Some (Opaque ""))) ->
  protect env db w req
  = inl (failure 401 "Not authorized to access this route. Please login.").
Proof.
  intros Hc Hh. unfold protect, pick_token.
  assert (E : match headers_authorization req with
              | Some h => if Js.startsWith (ah_first h) "Bearer"
                          then ah_second h else None
              | None => None
              end = None \/
              match headers_authorization req with
              | Some h => if Js.startsWith (ah_first h) "Bearer"
                          then ah_second h else None
              | None => None
              end = Some (Opaque "")).
  { destruct Hh as [->|(h & -> & [Hs|[Hn|He]])]; auto.
    - rewrite Hs; auto.
    - rewrite Hn. destruct (Js.startsWith _ _); auto.
    - rewrite He. destruct (Js.startsWith _ _); auto. }
  destruct Hc as [-> | ->]; cbn [token_truthy];
    destruct E as [-> | ->]; reflexivity.
Qed.

Lemma protect_without_token_witness :
  protect sample_env sample_store (sample_world 5000)
    (set_authorization (set_cookie_token blank_request (Some (Opaque "")))
       (Some {| ah_first := "Bearer"; ah_second := None |}))
  = inl (failure 401 "Not authorized to access this route. Please login.").
Proof.
  apply protect_without_token.
  - right. reflexivity.
  - right. eexists. split; [reflexivity|]. right. left. reflexivity.
Defined.

(** X2. A presented token that is not a JWT signed with the server secret
    is answered 401 "Invalid token", expired or not; one that is signed
    with the secret and whose expiry second has been reached is answered
    401 "Token has expired".  The store is not consulted in either
    case. *)
Theorem protect_rejects_bad_token env db w req t :
  presents req t ->
  token_truthy t = true ->
  ((forall id iat exp, t <> Jwt id iat exp (JWT_SECRET env)) ->
   protect env db w req = inl (failure 401 "Invalid token. Please login again."))
  /\
  (forall id iat exp,
     t = Jwt id iat exp (JWT_SECRET env) -> exp <= now w / 1000 ->
     protect env db w req
     = inl (failure 401 "Token has expired. Please login again.")).
Proof.
  intros Hp Ht. pose proof (presents_any req t Hp Ht) as Hpick.
  unfold protect. rewrite Hpick, Ht. cbn [negb]. split.
  - intros Hn. destruct t as [id iat exp key|s]; [|reflexivity].
    unfold jwt_verify. destruct (String.eqb key (JWT_SECRET env)) eqn:E;
      [|reflexivity].
    apply String.eqb_eq in E. subst key. exfalso. apply (Hn id iat exp eq_refl).
  - intros id iat exp -> He. unfold jwt_verify. rewrite String.eqb_refl.
    destruct (now w / 1000 >=? exp) eqn:E; [reflexivity|].
    rewrite Z.geb_leb in E. apply Z.leb_gt in E. lia.
Qed.

Lemma protect_rejects_bad_token_witness :
  protect sample_env sample_store (sample_world 5000)
    (with_bearer (Jwt 1 1 604801 "another key") blank_request)
  = inl (failure 401 "Invalid token. Please login again.")
  /\ protect sample_env sample_store (sample_world 604801000)
       (with_bearer jane_token blank_request)
     = inl (failure 401 "Token has expired. Please login again.").
Proof.
  destruct (protect_rejects_bad_token sample_env sample_store (sample_world 5000)
              (with_bearer (Jwt 1 1 604801 "another key") blank_request)
              (Jwt 1 1 604801 "another key")
              (or_intror (conj eq_refl eq_refl)) eq_refl) as [H1 _].
  destruct (protect_rejects_bad_token sample_env sample_store
              (sample_world 604801000) (with_bearer jane_token blank_request)
              jane_token (or_intror (conj eq_refl eq_refl)) eq_refl) as [_ H2].
  split.
  - apply H1. intros id iat exp E. inversion E.
  - apply (H2 1 1 604801); [reflexivity|discriminate].
Defined.

(** X3. The cookie wins over the header: when the request has a non-empty
    [token] cookie, the gate decides on it whatever the Authorization
    header holds.  So a request that carries the cookie [logout] has just
    set is refused as an invalid token even when its header holds a valid
    one. *)
Theorem cookie_takes_precedence env db w req t :
  cookies_token req = Some t ->
  token_truthy t = true ->
  (forall h,
     gate_outcome (protect env db w (set_authorization req h))
     = gate_outcome (protect env db w req))
  /\
  (forall w0, t = c_value (logout_cookie w0) ->
     protect env db w req = inl (failure 401 "Invalid token. Please login again.")).
Proof.
  intros Hc Ht. split.
  - intros h.
    assert (P1 : pick_token (set_authorization req h) = Some t).
    { unfold pick_token, set_authorization. cbn [cookies_token].
      rewrite Hc, Ht. reflexivity. }
    assert (P2 : pick_token req = Some t).
    { unfold pick_token. rewrite Hc, Ht. reflexivity. }
    unfold protect. rewrite P1, P2, Ht. cbn [negb].
    destruct (jwt_verify (now w) t (JWT_SECRET env)) as [id| |]; try reflexivity.
    destruct (User_findByPk db id); reflexivity.
  - intros w0 ->. unfold protect, pick_token. rewrite Hc. reflexivity.
Qed.

Lemma cookie_takes_precedence_witness :
  let req := set_cookie_token (with_bearer jane_token blank_request)
               (Some (Opaque "none")) in
  (exists req', protect sample_env sample_store (sample_world 5000)
                  (with_bearer jane_token blank_request) = inr req')
  /\ protect sample_env sample_store (sample_world 5000) req
     = inl (failure 401 "Invalid token. Please login again.").
Proof.
  intros req. split; [eexists; reflexivity|].
  destruct (cookie_takes_precedence sample_env sample_store (sample_world 5000)
              req (Opaque "none") eq_refl eq_refl) as [_ H].
  apply (H (sample_world 0)). reflexivity.
Defined.

(** X4. A token made by [generateToken] for an existing user, presented
    in the cookie or in a Bearer header, attaches exactly that user (read
    without the password) as long as the clock in seconds is below the
    second of issue plus the lifetime, and is answered 401 "Token has
    expired" from that second on.  Without [JWT_EXPIRE] the lifetime is
    seven days. *)
Theorem issued_token_round_trip env db w0 w id u req token :
  User_findByPk db id = Some u ->
  generateToken env w0 id = Some token ->
  presents req token ->
  (now w / 1000 < now w0 / 1000 + token_lifetime env ->
   protect env db w req = inr (set_user req u)) /\
  (now w0 / 1000 + token_lifetime env <= now w / 1000 ->
   protect env db w req
   = inl (failure 401 "Token has expired. Please login again.")) /\
  ui_id u = id /\ ui_password u = None /\
  (JWT_EXPIRE env = None -> token_lifetime env = 604800).
Proof.
  intros Hu Hg Hp.
  destruct (generateToken_some _ _ _ _ Hg) as (-> & _ & _).
  assert (Hpick := presents_any req _ Hp eq_refl).
  destruct (findByPk_no_password _ _ _ Hu) as (Hpw & Hid & _).
  split; [|split; [|split; [exact Hid|split; [exact Hpw|]]]].
  - intros Hlt. unfold protect. rewrite Hpick. cbn [token_truthy negb].
    rewrite verify_valid by exact Hlt. rewrite Hu. reflexivity.
  - intros Hge.
    destruct (protect_rejects_bad_token env db w req _ Hp eq_refl) as [_ H].
    apply (H id (now w0 / 1000) (now w0 / 1000 + token_lifetime env));
      [reflexivity|exact Hge].
  - intros E. unfold token_lifetime. rewrite E. reflexivity.
Qed.

Lemma issued_token_round_trip_witness :
  let t := Jwt 1 1 604801 "s3cret" in
  generateToken sample_env (sample_world 1000) 1 = Some t /\
  protect sample_env sample_store (sample_world 604800999)
    (set_cookie_token blank_request (Some t))
  = inr (set_user (set_cookie_token blank_request (Some t)) (exclude_password jane))
  /\ protect sample_env sample_store (sample_world 604801000)
       (set_cookie_token blank_request (Some t))
     = inl (failure 401 "Token has expired. Please login again.").
Proof.
  intros t.
  destruct (issued_token_round_trip sample_env sample_store (sample_world 1000)
              (sample_world 604800999) 1 (exclude_password jane)
              (set_cookie_token blank_request (Some t)) t eq_refl eq_refl
              (or_introl eq_refl)) as (H1 & _).
  destruct (issued_token_round_trip sample_env sample_store (sample_world 1000)
              (sample_world 604801000) 1 (exclude_password jane)
              (set_cookie_token blank_request (Some t)) t eq_refl eq_refl
              (or_introl eq_refl)) as (_ & H2 & _).
  split; [reflexivity|].
  split; [apply H1; reflexivity|apply H2; discriminate].
Defined.

(** ** CORS *)

Lemma includes_append p sub s : includes (p ++ sub ++ s) sub = true.
Proof.
  induction p as [|c r IH]; simpl.
  - assert (E : String.prefix sub (sub ++ s) = true).
    { clear. induction sub as [|a t IH]; simpl.
      - destruct s; reflexivity.
      - destruct (ascii_dec a a) as [_|C]; [exact IH|contradiction]. }
    destruct (sub ++ s)%string; simpl in *; rewrite E; reflexivity.
  - rewrite IH. apply orb_true_r.
Qed.

(** X17. The CORS origin function lets through every request without an
    Origin header, the two localhost origins whatever [FRONTEND_URL] is,
    the configured front-end URL, and every origin that has the text
    [netlify.app] anywhere in it; any other origin is refused. *)
Theorem cors_origin_decisions FRONTEND_URL :
  cors_origin FRONTEND_URL None = OriginAllowed /\
  cors_origin FRONTEND_URL (Some "http://localhost:5173") = OriginAllowed /\
  cors_origin FRONTEND_URL (Some "http://localhost:3000") = OriginAllowed /\
  (forall url, FRONTEND_URL = Some url ->
     cors_origin FRONTEND_URL (Some url) = OriginAllowed) /\
  (forall before after,
     cors_origin FRONTEND_URL (Some (before ++ "netlify.app" ++ after))
     = OriginAllowed) /\
  (forall o, o <> "" -> ~ In o (allowedOrigins FRONTEND_URL) ->
     includes o "netlify.app" = false ->
     cors_origin FRONTEND_URL (Some o) = NotAllowedByCORS).
Proof.
  assert (Hin : forall o, o <> "" -> In o (allowedOrigins FRONTEND_URL) ->
                cors_origin FRONTEND_URL (Some o) = OriginAllowed).
  { intros o Ho Hi. unfold cors_origin. destruct o as [|c r]; [congruence|].
    assert (E : existsb (String.eqb (String c r)) (allowedOrigins FRONTEND_URL)
                = true).
    { apply existsb_exists. exists (String c r). split; [exact Hi|].
      apply String.eqb_refl. }
    rewrite E. reflexivity. }
  split; [reflexivity|].
  split; [apply Hin; [discriminate|right; left; reflexivity]|].
  split; [apply Hin; [discriminate|right; right; left; reflexivity]|].
  split; [|split].
  - intros url ->. destruct url as [|c r]; [reflexivity|].
    apply Hin; [discriminate|left; reflexivity].
  - intros before after. unfold cors_origin.
    destruct (before ++ "netlify.app" ++ after)%string as [|c r] eqn:E;
      [reflexivity|].
    rewrite <- E, includes_append, orb_true_r. reflexivity.
  - intros o Ho Hn Hi. unfold cors_origin. destruct o as [|c r]; [congruence|].
    rewrite Hi, orb_false_r.
    destruct (existsb _ _) eqn:E; [|reflexivity].
    apply existsb_exists in E as (x & Hx & Ex). apply String.eqb_eq in Ex.
    subst x. contradiction.
Qed.

(** ** How requests change the store *)

Lemma acts_for_intro env db w req req' u :
  protect env db w req = inr req' -> user req' = Some u ->
  acts_for env db w req (ui_id u).
Proof. intros H1 H2. exists req', u. auto. Qed.

Lemma protect_user env db w req req' :
  protect env db w req = inr req' ->
  exists u, user req' = Some u /\ params_id req' = params_id req /\
            body_in req' = body_in req /\ query req' = query req.
Proof.
  intros H. destruct (protect_inr _ _ _ _ _ H) as (t & id & u & _ & _ & _ & _ & ->).
  exists u. repeat split.
Qed.

Lemma generateToken_signs env w id :
  signs env -> exists t, generateToken env w id = Some t.
Proof.
  unfold signs, generateToken. intros [H1 H2].
  destruct (JWT_SECRET env) as [|c s]; [congruence|].
  destruct (JWT_EXPIRE env) as [[x|]|]; try congruence; eexists; reflexivity.
Qed.

Lemma generateToken_none env w id :
  generateToken env w id = None -> ~ signs env.
Proof.
  intros H Hs. destruct (generateToken_signs env w id Hs) as [t Ht]. congruence.
Qed.

(** Every request changes the store in one of the listed ways, acts for
    the user the gate attached when it writes a task, and leaves the store
    alone unless its endpoint writes and its status is 200 or 201, or it is
    a registration whose token could not be signed. *)
Lemma route_effect L env e db w req :
  let r := route L env e db w req in
  exists who,
    effect db w who (store_of r) /\
    (forall uid, who = Some uid -> acts_for env db w req uid) /\
    (store_of r = db \/
     (~ read_only e /\
      (status (response_of r) = 200 \/ status (response_of r) = 201
       \/ (e = POST_auth_register /\ ~ signs env)))).
Proof.
  assert (Same : forall (x : Response),
            exists who, effect db w who (store_of (x, db)) /\
              (forall uid, who = Some uid -> acts_for env db w req uid) /\
              (store_of (x, db) = db \/
               (~ read_only e /\
                (status (response_of (x, db)) = 200
                 \/ status (response_of (x, db)) = 201
                 \/ (e = POST_auth_register /\ ~ signs env))))).
  { intros x. exists None. split; [apply no_effect|].
    split; [discriminate|left; reflexivity]. }
  cbv zeta. destruct e; unfold route, protected, validated.
  - destruct (registerValidation L (body_in req)) as [b errors].
    destruct (validate errors) as [r|]; [apply Same|].
    unfold register.
    destruct (b_email (body_in (set_body req b))) as [email|]; [|apply Same].
    destruct (User_findOne_email db email); [apply Same|].
    destruct (User_create L db w _ _ _) as [u db'|errs|] eqn:Ec;
      [|apply Same|apply Same].
    destruct (User_create_saved _ _ _ _ _ _ _ _ Ec)
      as (row & pw & _ & -> & Hid & _ & _ & _ & _ & _ & _ & Hfresh).
    destruct (generateToken env w (ui_id u)) as [token|] eqn:Eg.
    + exists None. split; [apply user_added; assumption|].
      split; [discriminate|]. right. split.
      * unfold read_only. intros [C|[C|[C|[C|C]]]]; discriminate.
      * right. left. reflexivity.
    + exists None. split; [apply user_added; assumption|].
      split; [discriminate|]. right. split.
      * unfold read_only. intros [C|[C|[C|[C|C]]]]; discriminate.
      * right. right. split; [reflexivity|].
        apply (generateToken_none _ _ _ Eg).
  - destruct (loginValidation L (body_in req)) as [b errors].
    destruct (validate errors) as [r|]; apply Same.
  - destruct (protect env db w req); apply Same.
  - destruct (protect env db w req); apply Same.
  - destruct (protect env db w req) as [r|req']; [apply Same|].
    destruct (paginationValidation L (query req')) as [q errors].
    destruct (validate errors) as [r|]; apply Same.
  - destruct (protect env db w req) as [r|req'] eqn:Hp; [apply Same|].
    destruct (taskValidation L (body_in req')) as [b errors].
    destruct (validate errors) as [r|]; [apply Same|].
    unfold createTask.
    destruct (protect_user _ _ _ _ _ Hp) as (u & Hu & _).
    assert (Hu' : user (set_body req' b) = Some u) by exact Hu.
    rewrite Hu'.
    destruct (Task_create L db w _ _ _ _ _) as [t db'|errs|] eqn:Ec;
      [|apply Same|apply Same].
    destruct (Task_create_saved _ _ _ _ _ _ _ _ _ _ Ec)
      as (row & _ & -> & Hid & Hown & _ & _ & _ & _ & _ & _ & Hex & _).
    exists (Some (ui_id u)). split; [apply task_added; assumption|].
    split.
    + intros uid E. inversion E; subst. apply (acts_for_intro _ _ _ _ _ _ Hp Hu).
    + right. split.
      * unfold read_only. intros [C|[C|[C|[C|C]]]]; discriminate.
      * right. left. reflexivity.
  - destruct (protect env db w req); apply Same.
  - destruct (protect env db w req) as [r|req'] eqn:Hp; [apply Same|].
    destruct (taskValidation L (body_in req')) as [b errors].
    destruct (validate errors) as [r|]; [apply Same|].
    unfold updateTask.
    destruct (protect_user _ _ _ _ _ Hp) as (u & Hu & _).
    assert (Hu' : user (set_body req' b) = Some u) by exact Hu.
    rewrite Hu'.
    destruct (params_id (set_body req' b)) as [id|]; [|apply Same].
    destruct (Task_findOne db id (ui_id u)) as [task|] eqn:Hf; [|apply Same].
    destruct (Task_save L db w task _) as [t db'|errs|] eqn:Es;
      [|apply Same|apply Same].
    destruct (Task_save_saved _ _ _ _ _ _ _ Es) as [[_ ->]|(day & _ & ->)];
      [apply Same|].
    destruct (findOne_some _ _ _ _ Hf) as (_ & Hid & _).
    exists (Some (ui_id u)). split.
    + apply task_written. rewrite Hid. exact Hf.
    + split.
      * intros uid E. inversion E; subst.
        apply (acts_for_intro _ _ _ _ _ _ Hp Hu).
      * right. split.
        -- unfold read_only. intros [C|[C|[C|[C|C]]]]; discriminate.
        -- left. reflexivity.
  - destruct (protect env db w req) as [r|req'] eqn:Hp; [apply Same|].
    unfold deleteTask.
    destruct (protect_user _ _ _ _ _ Hp) as (u & Hu & _).
    rewrite Hu.
    destruct (params_id req') as [id|]; [|apply Same].
    destruct (Task_findOne db id (ui_id u)) as [task|] eqn:Hf; [|apply Same].
    destruct (findOne_some _ _ _ _ Hf) as (_ & Hid & _).
    exists (Some (ui_id u)). split.
    + apply task_removed. rewrite Hid. exact Hf.
    + split.
      * intros uid E. inversion E; subst.
        apply (acts_for_intro _ _ _ _ _ _ Hp Hu).
      * right. split.
        -- unfold read_only. intros [C|[C|[C|[C|C]]]]; discriminate.
        -- left. reflexivity.
Qed.

Lemma NoDup_map_snoc {A B} (f : A -> B) l y :
  NoDup (map f l) -> (forall x, In x l -> f x <> f y) ->
  NoDup (map f (l ++ [y])).
Proof.
  intros Hn Hf. rewrite map_app. simpl.
  apply (Permutation_NoDup (Permutation_cons_append (map f l) (f y))).
  constructor; [|exact Hn].
  intros Hin. apply in_map_iff in Hin as (x & E & Hx). apply (Hf x Hx E).
Qed.

Lemma NoDup_map_filter {A B} (f : A -> B) (p : A -> bool) l :
  NoDup (map f l) -> NoDup (map f (filter p l)).
Proof.
  induction l as [|a r IH]; simpl; intros H; [constructor|].
  inversion H as [|? ? Hn Hr]; subst.
  destruct (p a); simpl; [|apply IH, Hr].
  constructor; [|apply IH, Hr].
  intros Hin. apply Hn. apply in_map_iff in Hin as (x & E & Hx).
  apply filter_In in Hx as [Hx _]. apply in_map_iff. exists x. auto.
Qed.

Lemma NoDup_map_same {A B} (f : A -> B) l a b :
  NoDup (map f l) -> In a l -> In b l -> f a = f b -> a = b.
Proof.
  induction l as [|x r IH]; simpl; intros Hn Ha Hb E; [contradiction|].
  inversion Hn as [|? ? Hx Hr]; subst.
  destruct Ha as [->|Ha], Hb as [->|Hb]; auto.
  - exfalso. apply Hx. rewrite E. apply in_map, Hb.
  - exfalso. apply Hx. rewrite <- E. apply in_map, Ha.
Qed.

Lemma write_task_id w id v day t : t_id (write_task w id v day t) = t_id t.
Proof. unfold write_task. destruct (t_id t =? id); reflexivity. Qed.

Lemma write_task_owner w id v day t :
  t_userId (write_task w id v day t) = t_userId t.
Proof. unfold write_task. destruct (t_id t =? id); reflexivity. Qed.

Lemma effect_well_formed db w who db' :
  effect db w who db' -> well_formed db -> well_formed db'.
Proof.
  intros He (U1 & U2 & U3 & T1 & T2 & T3).
  destruct He as [who|row Hid Hfresh|uid row Hid Hown Hex|uid task v day Hf
                  |uid task Hf]; unfold well_formed; cbn [users tasks users_seq tasks_seq].
  - repeat split; assumption.
  - repeat split; auto.
    + apply NoDup_map_snoc; [exact U1|]. intros x Hx.
      rewrite Hid. specialize (U3 x Hx). lia.
    + apply NoDup_map_snoc; [exact U2|]. exact Hfresh.
    + intros u Hu. apply in_app_or in Hu as [Hu|[<-|[]]].
      * specialize (U3 u Hu). lia.
      * lia.
    + intros t Ht. destruct (T3 t Ht) as (u & Hu & E).
      exists u. split; [apply in_or_app; left; exact Hu|exact E].
  - repeat split; auto.
    + apply NoDup_map_snoc; [exact T1|]. intros x Hx.
      rewrite Hid. specialize (T2 x Hx). lia.
    + intros t Ht. apply in_app_or in Ht as [Ht|[<-|[]]].
      * specialize (T2 t Ht). lia.
      * lia.
    + intros t Ht. apply in_app_or in Ht as [Ht|[<-|[]]].
      * apply T3, Ht.
      * rewrite Hown. exact Hex.
  - assert (Eids : map t_id (map (write_task w (t_id task) v day) (tasks db))
                   = map t_id (tasks db)).
    { rewrite map_map. apply map_ext. intros t. apply write_task_id. }
    repeat split; auto.
    + rewrite Eids. exact T1.
    + intros t Ht. apply in_map_iff in Ht as (t0 & <- & Ht0).
      rewrite write_task_id. apply T2, Ht0.
    + intros t Ht. apply in_map_iff in Ht as (t0 & <- & Ht0).
      rewrite write_task_owner. apply T3, Ht0.
  - unfold Task_destroy. cbn [users tasks users_seq tasks_seq].
    repeat split; auto.
    + apply NoDup_map_filter, T1.
    + intros t Ht. apply filter_In in Ht as [Ht _]. apply T2, Ht.
    + intros t Ht. apply filter_In in Ht as [Ht _]. apply T3, Ht.
Qed.

(** X8. Every request to every endpoint keeps the store within the
    constraints of the schema: user ids, emails and task ids stay unique,
    ids stay below their SERIAL counters, and every task keeps naming an
    existing user.  The removal of a user with its cascade keeps them
    too. *)
Theorem requests_keep_store_well_formed L env e db w req :
  well_formed db ->
  well_formed (store_of (route L env e db w req)) /\
  (forall id, well_formed (delete_user db id)).
Proof.
  intros Hw. split.
  - destruct (route_effect L env e db w req) as (who & He & _).
    apply (effect_well_formed _ _ _ _ He Hw).
  - intros id. destruct Hw as (U1 & U2 & U3 & T1 & T2 & T3).
    unfold well_formed, delete_user. cbn [users tasks users_seq tasks_seq].
    repeat split.
    + apply NoDup_map_filter, U1.
    + apply NoDup_map_filter, U2.
    + intros u Hu. apply filter_In in Hu as [Hu _]. apply U3, Hu.
    + apply NoDup_map_filter, T1.
    + intros t Ht. apply filter_In in Ht as [Ht _]. apply T2, Ht.
    + intros t Ht. apply filter_In in Ht as [Ht Hb].
      destruct (T3 t Ht) as (u & Hu & E). exists u. split; [|exact E].
      apply filter_In. split; [exact Hu|]. rewrite E. exact Hb.
Qed.

Lemma sample_store_well_formed : well_formed sample_store.
Proof.
  unfold well_formed, sample_store. cbn [users tasks users_seq tasks_seq map].
  repeat split.
  - repeat constructor; simpl; intuition discriminate.
  - repeat constructor; simpl; intuition discriminate.
  - intros u [<-|[<-|[]]]; reflexivity.
  - repeat constructor; simpl; intuition discriminate.
  - intros t [<-|[<-|[<-|[<-|[<-|[]]]]]]; reflexivity.
  - intros t [<-|[<-|[<-|[<-|[<-|[]]]]]];
      first [exists jane; split; [left; reflexivity|reflexivity]
            |exists bob; split; [right; left; reflexivity|reflexivity]].
Qed.

Lemma requests_keep_store_well_formed_witness :
  well_formed
    (store_of (route sample_lib sample_env POST_tasks sample_store
                 (sample_world 5000)
                 (set_body (with_bearer jane_token blank_request)
                    (task_body (Some "T") None (Some "low") (Some "2025-06-01")))))
  /\ tasks_seq
       (store_of (route sample_lib sample_env POST_tasks sample_store
                    (sample_world 5000)
                    (set_body (with_bearer jane_token blank_request)
                       (task_body (Some "T") None (Some "low") (Some "2025-06-01")))))
     = 7.
Proof.
  split; [|reflexivity].
  apply (requests_keep_store_well_formed sample_lib sample_env POST_tasks
           sample_store (sample_world 5000) _ sample_store_well_formed).
Defined.

(** X9. A request to an endpoint that only reads (login, logout, me, the
    listing, a single task) leaves the store exactly as it was, and so does
    a request to any endpoint but registration that is answered with a
    status other than 200 and 201.  For registration this needs an
    environment in which [jwt.sign] makes a token. *)
Theorem unsuccessful_requests_change_nothing L env e db w req :
  read_only e
  \/ (status (response_of (route L env e db w req)) <> 200
      /\ status (response_of (route L env e db w req)) <> 201
      /\ (e = POST_auth_register -> signs env)) ->
  store_of (route L env e db w req) = db.
Proof.
  intros H. destruct (route_effect L env e db w req) as (who & _ & _ & [E|[Hn Hs]]).
  - exact E.
  - destruct H as [H|(H1 & H2 & H3)]; [contradiction|].
    destruct Hs as [Hs|[Hs|[He Hs]]]; try contradiction.
    exfalso. apply Hs, H3, He.
Qed.

Lemma unsuccessful_requests_change_nothing_witness :
  let req := set_body (with_bearer jane_token blank_request)
               (task_body (Some "T") None (Some "urgent") (Some "2025-06-01")) in
  status (response_of (route sample_lib sample_env POST_tasks sample_store
                         (sample_world 5000) req)) = 400
  /\ store_of (route sample_lib sample_env POST_tasks sample_store
                 (sample_world 5000) req) = sample_store.
Proof.
  intros req. split; [reflexivity|].
  apply unsuccessful_requests_change_nothing. right.
  split; [discriminate|]. split; discriminate.
Defined.

Lemma effect_spares_others db w who db' t :
  effect db w who db' -> well_formed db ->
  (forall uid, who = Some uid -> t_userId t <> uid) ->
  (In t (tasks db) <-> In t (tasks db')) /\
  exists added, users db' = (users db ++ added)%list.
Proof.
  intros He (_ & _ & _ & T1 & _ & _) Hn.
  destruct He as [who|row Hid Hfresh|uid row Hid Hown Hex|uid task v day Hf
                  |uid task Hf]; cbn [users tasks].
  - split; [tauto|]. exists []. rewrite app_nil_r. reflexivity.
  - split; [tauto|]. exists [row]. reflexivity.
  - split; [|exists []; rewrite app_nil_r; reflexivity].
    split; intros H.
    + apply in_or_app. left. exact H.
    + apply in_app_or in H as [H|[<-|[]]]; [exact H|].
      exfalso. apply (Hn uid eq_refl). exact Hown.
  - split; [|exists []; rewrite app_nil_r; reflexivity].
    destruct (findOne_some _ _ _ _ Hf) as (Hin & _ & Hown).
    specialize (Hn uid eq_refl).
    split; intros H.
    + assert (Hid : t_id t <> t_id task).
      { intros E. apply Hn. rewrite (NoDup_map_same t_id _ t task T1 H Hin E).
        exact Hown. }
      rewrite <- (write_other w (t_id task) v day t Hid). apply in_map, H.
    + apply in_map_iff in H as (t0 & E & H0).
      destruct (Z.eq_dec (t_id t0) (t_id task)) as [Eid|Nid].
      * exfalso. apply Hn. rewrite <- E, write_task_owner.
        rewrite (NoDup_map_same t_id _ t0 task T1 H0 Hin Eid). exact Hown.
      * rewrite (write_other _ _ _ _ _ Nid) in E. subst t0. exact H0.
  - unfold Task_destroy. cbn [users tasks].
    split; [|exists []; rewrite app_nil_r; reflexivity].
    destruct (findOne_some _ _ _ _ Hf) as (Hin & _ & Hown).
    specialize (Hn uid eq_refl).
    split; intros H.
    + apply filter_In. split; [exact H|].
      apply negb_true_iff, Z.eqb_neq. intros E. apply Hn.
      rewrite (NoDup_map_same t_id _ t task T1 H Hin E). exact Hown.
    + apply filter_In in H. tauto.
Qed.

(** X10. In a well-formed store no request touches a task of somebody
    else: a task that does not belong to the user the request acts for
    (any task, when the request acts for nobody) is in the store after the
    request exactly if it was before, unaltered.  User rows are never
    changed or removed; at most new ones are appended. *)
Theorem others_tasks_untouched L env e db w req t :
  well_formed db ->
  (forall uid, acts_for env db w req uid -> t_userId t <> uid) ->
  (In t (tasks db) <-> In t (tasks (store_of (route L env e db w req)))) /\
  exists added,
    users (store_of (route L env e db w req)) = (users db ++ added)%list.
Proof.
  intros Hw Hn.
  destruct (route_effect L env e db w req) as (who & He & Hwho & _).
  apply (effect_spares_others _ _ _ _ t He Hw).
  intros uid E. apply Hn, Hwho, E.
Qed.

Lemma others_tasks_untouched_witness :
  let req := with_id 2 (set_body (with_bearer jane_token blank_request)
               (task_body (Some "mine now") None (Some "low") (Some "2025-06-01"))) in
  let bobs := mk_task 2 2 "bob's" "high" 20250102 3100 in
  In bobs (tasks sample_store) /\
  In bobs (tasks (store_of (route sample_lib sample_env PUT_tasks_id sample_store
                              (sample_world 5000) req))).
Proof.
  intros req bobs.
  assert (Hin : In bobs (tasks sample_store)) by (right; left; reflexivity).
  split; [exact Hin|].
  destruct (others_tasks_untouched sample_lib sample_env PUT_tasks_id sample_store
              (sample_world 5000) req bobs sample_store_well_formed) as [H _].
  - intros uid (req' & u & Hp & Hu & <-).
    assert (E : protect sample_env sample_store (sample_world 5000) req
                = inr (set_user req (exclude_password jane))) by reflexivity.
    rewrite E in Hp. inversion Hp; subst req'. simpl in Hu.
    inversion Hu; subst u. discriminate.
  - apply H, Hin.
Defined.

(** ** Registration and login *)

Lemma findOne_email_none db email :
  User_findOne_email db email = None <->
  (forall u, In u (users db) -> u_email u <> email).
Proof.
  unfold User_findOne_email. split.
  - intros H u Hu E.
    destruct (find (fun u => (u_email u =? email)%string) (users db)) eqn:F;
      [discriminate|].
    apply (find_none _ _ F) in Hu. apply String.eqb_neq in Hu. contradiction.
  - intros H.
    destruct (find (fun u => (u_email u =? email)%string) (users db)) as [u|] eqn:F;
      [|reflexivity].
    apply find_some in F as [Hu E]. apply String.eqb_eq in E.
    exfalso. apply (H u Hu E).
Qed.

Lemma findOne_email_appended db email row seq1 seq2 ts :
  User_findOne_email db email = None -> u_email row = email ->
  User_findOne_email
    {| users := users db ++ [row]; tasks := ts; users_seq := seq1; tasks_seq := seq2 |}
    email = Some (instance_of row).
Proof.
  intros Hn He. unfold User_findOne_email in *. cbn [users].
  destruct (find (fun u => (u_email u =? email)%string) (users db)) eqn:F;
    [discriminate|].
  assert (G : forall l, find (fun u => (u_email u =? email)%string) l = None ->
              find (fun u => (u_email u =? email)%string) (l ++ [row]) = Some row).
  { induction l as [|x r IH]; simpl.
    - intros _. rewrite He, String.eqb_refl. reflexivity.
    - destruct (u_email x =? email)%string; [discriminate|exact IH]. }
  rewrite (G _ F). reflexivity.
Qed.

(** What a registration answered with 201 has done. *)
Lemma register_created L env db w req :
  status (response_of (route L env POST_auth_register db w req)) = 201 ->
  exists row pw token,
    generateToken env w (u_id row) = Some token /\
    route L env POST_auth_register db w req
    = (sendTokenResponse env w token 201 (instance_of row),
       {| users := users db ++ [row]; tasks := tasks db;
          users_seq := users_seq db + 1; tasks_seq := tasks_seq db |}) /\
    snd (registerValidation L (body_in req)) = [] /\
    u_id row = users_seq db /\
    u_name row = Js.trim (str_of (b_name (body_in req))) /\
    u_email row = normalizeEmail L (Js.trim (str_of (b_email (body_in req)))) /\
    b_password (body_in req) = Some pw /\
    u_password row = beforeCreate L w pw /\
    u_createdAt row = now w /\
    User_findOne_email db (u_email row) = None.
Proof.
  unfold route, validated, response_of.
  destruct (registerValidation L (body_in req)) as [b errors] eqn:Ev.
  assert (Hb : b = fst (registerValidation L (body_in req))) by (rewrite Ev; reflexivity).
  destruct errors as [|x xs]; [|cbn; discriminate].
  cbn [validate]. unfold register.
  assert (Hemail : b_email (body_in (set_body req b))
                   = Some (normalizeEmail L (Js.trim (str_of (b_email (body_in req))))))
    by (rewrite Hb; reflexivity).
  assert (Hname : b_name (body_in (set_body req b))
                  = Some (Js.trim (str_of (b_name (body_in req)))))
    by (rewrite Hb; reflexivity).
  assert (Hpass : b_password (body_in (set_body req b)) = b_password (body_in req))
    by (rewrite Hb; reflexivity).
  rewrite Hemail.
  destruct (User_findOne_email db _) eqn:Hf; [cbn; discriminate|].
  destruct (User_create L db w _ _ _) as [u db'|errs|] eqn:Ec;
    [|cbn; discriminate|cbn; discriminate].
  destruct (User_create_saved _ _ _ _ _ _ _ _ Ec)
    as (row & pw & -> & -> & Hid & Hn & He & Hp & Hpw & Hc & _ & _).
  cbn [ui_id instance_of].
  destruct (generateToken env w (u_id row)) as [token|] eqn:Eg;
    [|cbn; discriminate].
  intros _.
  rewrite Hname in Hn. rewrite Hpass in Hp.
  inversion Hn as [Hn']. inversion He as [He'].
  exists row, pw, token.
  repeat split; auto.
  rewrite <- He'. exact Hf.
Qed.

(** X5. After a registration answered with 201, a login that submits the
    same email and password is answered with 200 for the user just
    created, with a fresh token for that user's id, and changes nothing.
    Both answers carry id, name and email of the new row. *)
Theorem register_then_login L env db w w' req req2 :
  status (response_of (route L env POST_auth_register db w req)) = 201 ->
  String.length (salt_text w) = 22%nat ->
  b_email (body_in req2) = b_email (body_in req) ->
  b_password (body_in req2) = b_password (body_in req) ->
  let db' := store_of (route L env POST_auth_register db w req) in
  exists row token token',
    users db' = (users db ++ [row])%list /\
    u_id row = users_seq db /\
    generateToken env w (u_id row) = Some token /\
    response_of (route L env POST_auth_register db w req)
    = sendTokenResponse env w token 201 (instance_of row) /\
    generateToken env w' (u_id row) = Some token' /\
    route L env POST_auth_login db' w' req2
    = (sendTokenResponse env w' token' 200 (instance_of row), db').
Proof.
  intros H201 Hsalt Hemail Hpass db'.
  destruct (register_created L env db w req H201)
    as (row & pw & token & Hg & Hr & Hv & Hid & Hn & He & Hp & Hpw & Hc & Hf).
  destruct (generateToken_clock env w w' (u_id row) token Hg) as [token' Hg'].
  subst db'. rewrite Hr. unfold store_of, response_of. cbn [fst snd users].
  exists row, token, token'.
  split; [reflexivity|]. split; [exact Hid|]. split; [exact Hg|].
  split; [reflexivity|]. split; [exact Hg'|].
  unfold registerValidation in Hv. cbn [snd] in Hv.
  apply app_eq_nil in Hv as [_ Hv]. apply app_eq_nil in Hv as [_ Hv].
  apply app_eq_nil in Hv as [V3 Hv]. apply app_eq_nil in Hv as [V4 Hv].
  apply app_eq_nil in Hv as [V5 V6].
  apply check_nil in V3, V4, V5, V6.
  unfold route, validated, loginValidation. cbv zeta.
  rewrite Hemail, Hpass, V3, V4, V5. cbn [check app validate].
  unfold login. cbn [body_in set_body b_email b_password].
  rewrite <- He.
  rewrite (findOne_email_appended db (u_email row) row _ _ _ Hf eq_refl).
  rewrite Hp. unfold comparePassword, instance_of. cbn [ui_password ui_id].
  rewrite Hpw.
  assert (Hlen : 6 <= len pw).
  { rewrite Hp in V6. cbn [str_of] in V6. apply Z.leb_le. exact V6. }
  rewrite (beforeCreate_hashes L w pw Hlen).
  assert (Hcmp : bcrypt_compare L pw
                   (bcrypt_hash L pw (bcrypt_genSalt 10 (salt_text w))) = true).
  { apply (compare_hash_iff L pw pw _ (genSalt_length _ Hsalt)). reflexivity. }
  rewrite Hcmp, Hg'. reflexivity.
Qed.

Lemma register_then_login_witness :
  let r := route sample_lib sample_env POST_auth_register sample_store
             (sample_world 7000) (registration " Ann " "ann@x.com" "letmein") in
  status (response_of r) = 201 /\
  status (response_of (route sample_lib sample_env POST_auth_login (store_of r)
                         (sample_world 9000) (credentials "ann@x.com" "letmein")))
  = 200.
Proof.
  intros r. split; [reflexivity|].
  destruct (register_then_login sample_lib sample_env sample_store
              (sample_world 7000) (sample_world 9000)
              (registration " Ann " "ann@x.com" "letmein")
              (credentials "ann@x.com" "letmein") eq_refl eq_refl eq_refl eq_refl)
    as (row & token & token' & _ & _ & _ & _ & _ & H).
  fold r in H. rewrite H. reflexivity.
Defined.

(** X6. A registration whose body passes the validation chains but whose
    normalized email is already the email of a user is answered with 400
    "Email already registered" and adds nothing. *)
Theorem register_duplicate_refused L env db w req :
  snd (registerValidation L (body_in req)) = [] ->
  (exists u, In u (users db) /\
             u_email u = normalizeEmail L (Js.trim (str_of (b_email (body_in req))))) ->
  route L env POST_auth_register db w req
  = (failure 400 "Email already registered. Please login instead.", db).
Proof.
  intros Hv (u & Hu & He).
  unfold route, validated.
  destruct (registerValidation L (body_in req)) as [b errors] eqn:Ev.
  cbn [snd] in Hv. subst errors. cbn [validate].
  assert (Hb : b = fst (registerValidation L (body_in req))) by (rewrite Ev; reflexivity).
  unfold register.
  assert (Hemail : b_email (body_in (set_body req b))
                   = Some (normalizeEmail L (Js.trim (str_of (b_email (body_in req))))))
    by (rewrite Hb; reflexivity).
  rewrite Hemail.
  destruct (User_findOne_email db _) eqn:Hf; [reflexivity|].
  exfalso. apply (proj1 (findOne_email_none _ _) Hf u Hu He).
Qed.

Lemma register_duplicate_refused_witness :
  route sample_lib sample_env POST_auth_register sample_store (sample_world 7000)
    (registration "Jane Again" " jane@x.com " "another1")
  = (failure 400 "Email already registered. Please login instead.", sample_store).
Proof.
  apply register_duplicate_refused; [reflexivity|].
  exists jane. split; [left; reflexivity|reflexivity].
Defined.

Lemma generateToken_unsigned env w id :
  ~ signs env -> generateToken env w id = None.
Proof.
  intros H. destruct (generateToken env w id) as [t|] eqn:E; [|reflexivity].
  exfalso. apply H. destruct (generateToken_some _ _ _ _ E) as (_ & H1 & H2).
  split; assumption.
Qed.

(** X20. When [jwt.sign] cannot make a token (an empty [JWT_SECRET], or a
    [JWT_EXPIRE] that is no time span), a registration that passes the
    validation chains and that the model saves is answered with 500 and
    the message of a server error, although the user row has been
    inserted: the store holds one more user, with the normalized email,
    and a second registration with that email is answered with 400 "Email
    already registered". *)
Theorem register_unsigned_keeps_row L env db w w' req u db' :
  ~ signs env ->
  snd (registerValidation L (body_in req)) = [] ->
  let b := fst (registerValidation L (body_in req)) in
  let email := normalizeEmail L (Js.trim (str_of (b_email (body_in req)))) in
  User_findOne_email db email = None ->
  User_create L db w (b_name b) (b_email b) (b_password b) = Saved u db' ->
  route L env POST_auth_register db w req
  = (failure 500 "Server error during registration. Please try again.", db') /\
  (exists row, users db' = (users db ++ [row])%list /\ u_email row = email) /\
  route L env POST_auth_register db' w' req
  = (failure 400 "Email already registered. Please login instead.", db').
Proof.
  intros Hs Hv b email Hf Hc.
  destruct (User_create_saved _ _ _ _ _ _ _ _ Hc)
    as (row & pw & -> & Edb & Hid & Hn & He & Hp & Hpw & Hcr & _ & _).
  assert (Hb : b_email b = Some email) by reflexivity.
  rewrite Hb in He. injection He as He.
  assert (R : forall d w0,
            route L env POST_auth_register d w0 req
            = register L env d w0 (set_body req b)).
  { intros d w0. unfold route, validated. subst b.
    destruct (registerValidation L (body_in req)) as [b0 errors].
    cbn [snd] in Hv. subst errors. reflexivity. }
  split; [|split].
  - rewrite R. unfold register. cbn [body_in set_body]. rewrite Hc, Hb, Hf.
    rewrite (generateToken_unsigned _ _ _ Hs). reflexivity.
  - exists row. rewrite Edb. split; [reflexivity|symmetry; exact He].
  - rewrite R. unfold register. cbn [body_in set_body]. rewrite Hb.
    rewrite Edb.
    rewrite (findOne_email_appended db email row _ _ _ Hf (eq_sym He)).
    reflexivity.
Qed.

Lemma register_unsigned_keeps_row_witness :
  let env := {| JWT_SECRET := ""; JWT_EXPIRE := None; NODE_ENV := None |} in
  let r := route sample_lib env POST_auth_register sample_store
             (sample_world 7000) (registration " Ann " "ann@x.com" "letmein") in
  status (response_of r) = 500 /\
  map u_email (users (store_of r)) = ["jane@x.com"; "bob@x.com"; "ann@x.com"] /\
  status (response_of (route sample_lib env POST_auth_register (store_of r)
                         (sample_world 9000)
                         (registration " Ann " "ann@x.com" "letmein"))) = 400.
Proof.
  intros env r.
  destruct (register_unsigned_keeps_row sample_lib env sample_store
              (sample_world 7000) (sample_world 9000)
              (registration " Ann " "ann@x.com" "letmein")
              _ _ ltac:(intros [H _]; apply H; reflexivity)
              eq_refl eq_refl eq_refl)
    as (H1 & _ & H2).
  fold r in H1. rewrite H1. unfold store_of, response_of. cbn [fst snd].
  rewrite H2. repeat split.
Defined.

(** X7. A login with an email nobody registered and a login with a
    registered email and a password that does not verify get the same
    answer, 401 with one message, so the answer does not tell whether the
    email is known. *)
Theorem login_failures_alike L env db w req :
  snd (loginValidation L (body_in req)) = [] ->
  let email := normalizeEmail L (Js.trim (str_of (b_email (body_in req)))) in
  let invalid :=
    (failure 401 "Invalid credentials. Please check your email and password.", db) in
  (User_findOne_email db email = None ->
   route L env POST_auth_login db w req = invalid) /\
  (forall u, User_findOne_email db email = Some u ->
     comparePassword L u (str_of (b_password (body_in req))) = Some false ->
     route L env POST_auth_login db w req = invalid).
Proof.
  intros Hv email invalid.
  assert (Hpw : exists pw, b_password (body_in req) = Some pw).
  { unfold loginValidation in Hv. cbn [snd] in Hv.
    apply app_eq_nil in Hv as [_ Hv]. apply app_eq_nil in Hv as [_ Hv].
    apply check_nil in Hv. destruct (b_password (body_in req)) as [pw|];
      [exists pw; reflexivity|discriminate]. }
  destruct Hpw as [pw Hpw].
  assert (Hr : route L env POST_auth_login db w req
               = (login L env db w
                    (set_body req (fst (loginValidation L (body_in req)))), db)).
  { unfold route, validated.
    destruct (loginValidation L (body_in req)) as [b errors].
    cbn [snd] in Hv. subst errors. reflexivity. }
  rewrite Hr. unfold login, loginValidation.
  cbn [fst body_in set_body b_email b_password]. fold email. rewrite Hpw.
  split.
  - intros ->. reflexivity.
  - intros u -> Hc. cbn [str_of] in Hc. rewrite Hc. reflexivity.
Qed.

Lemma login_failures_alike_witness :
  route sample_lib sample_env POST_auth_login sample_store (sample_world 5000)
    (credentials "nobody@x.com" "secret1")
  = route sample_lib sample_env POST_auth_login sample_store (sample_world 5000)
      (credentials "jane@x.com" "wrong-password").
Proof.
  destruct (login_failures_alike sample_lib sample_env sample_store
              (sample_world 5000) (credentials "nobody@x.com" "secret1") eq_refl)
    as [H1 _].
  destruct (login_failures_alike sample_lib sample_env sample_store
              (sample_world 5000) (credentials "jane@x.com" "wrong-password")
              eq_refl) as [_ H2].
  rewrite (H1 eq_refl), (H2 (instance_of jane) eq_refl eq_refl). reflexivity.
Defined.

(** X15. The validation chain of registration sets no upper bound on the
    password, the model does: a password of more than 255 characters in
    an otherwise acceptable registration with a new email is refused by
    the model with 400 "Validation error", under the message of the
    length rule, and no user is added. *)
Theorem overlong_password_refused L env db w req pw :
  snd (registerValidation L (body_in req)) = [] ->
  b_password (body_in req) = Some pw ->
  255 < len pw ->
  User_findOne_email db
    (normalizeEmail L (Js.trim (str_of (b_email (body_in req))))) = None ->
  let r := route L env POST_auth_register db w req in
  store_of r = db /\
  status (response_of r) = 400 /\
  get "message" (body (response_of r)) = Some (JStr "Validation error") /\
  exists entries,
    get "errors" (body (response_of r)) = Some (JArr entries) /\
    In (error_entry "password" "Password must be at least 6 characters") entries.
Proof.
  intros Hv Hp Hlen Hf r. subst r.
  unfold route, validated.
  destruct (registerValidation L (body_in req)) as [b errors] eqn:Ev.
  cbn [snd] in Hv. subst errors. cbn [validate].
  assert (Hb : b = fst (registerValidation L (body_in req))) by (rewrite Ev; reflexivity).
  unfold register.
  assert (Hemail : b_email (body_in (set_body req b))
                   = Some (normalizeEmail L (Js.trim (str_of (b_email (body_in req))))))
    by (rewrite Hb; reflexivity).
  assert (Hname : b_name (body_in (set_body req b))
                  = Some (Js.trim (str_of (b_name (body_in req)))))
    by (rewrite Hb; reflexivity).
  assert (Hpass : b_password (body_in (set_body req b)) = Some pw)
    by (rewrite Hb; exact Hp).
  rewrite Hemail, Hf, Hname, Hpass.
  assert (Hin : In ("password", "Password must be at least 6 characters")
                   (User_validate L (Some (Js.trim (str_of (b_name (body_in req)))))
                      (Some (normalizeEmail L (Js.trim (str_of (b_email (body_in req))))))
                      (Some pw))).
  { unfold User_validate. apply in_or_app. right. apply in_or_app. right.
    destruct (len pw <=? 255) eqn:E; [apply Z.leb_le in E; lia|].
    rewrite andb_false_r. left. reflexivity. }
  unfold User_create.
  destruct (User_validate L _ _ (Some pw)) as [|x xs] eqn:Eu; [destruct Hin|].
  unfold store_of, response_of. cbn [fst snd].
  split; [reflexivity|]. split; [reflexivity|]. split; [reflexivity|].
  eexists. split; [reflexivity|].
  apply (in_map (fun e => JObj [("field", JStr (fst e)); ("message", JStr (snd e))])
           _ _ Hin).
Qed.

Lemma overlong_password_refused_witness :
  let pw := string_of_list_ascii (repeat "p"%char 300) in
  let r := route sample_lib sample_env POST_auth_register sample_store
             (sample_world 7000) (registration "Ann" "ann@x.com" pw) in
  status (response_of r) = 400 /\ store_of r = sample_store.
Proof.
  intros pw r.
  destruct (overlong_password_refused sample_lib sample_env sample_store
              (sample_world 7000) (registration "Ann" "ann@x.com" pw) pw)
    as (Hs & Hst & _); try reflexivity.
  split; [exact Hst|exact Hs].
Defined.

(** X16. GET /auth/me for a request that passes the auth gate is always
    answered with 200 and id, name, email and creation time of the user
    the gate attached, who is the user row the token names; it is never
    answered with 500. *)
Theorem me_returns_token_user env L db w req req' u :
  protect env db w req = inr req' ->
  user req' = Some u ->
  route L env GET_auth_me db w req
  = (respond 200
       (JObj [("success", JBool true);
              ("user",
               JObj [("id", JNum (ui_id u)); ("name", JStr (ui_name u));
                     ("email", JStr (ui_email u));
                     ("createdAt", JNum (ui_createdAt u))])]), db)
  /\ exists row, In row (users db) /\ u = exclude_password row.
Proof.
  intros Hp Hu.
  destruct (protect_inr _ _ _ _ _ Hp) as (t & id & u' & _ & _ & _ & Hf & Hr).
  assert (u' = u) by (subst req'; simpl in Hu; congruence). subst u'.
  destruct (findByPk_no_password _ _ _ Hf) as (_ & Hid & row & Hin & Hrow).
  split; [|exists row; auto].
  rewrite <- Hid in Hf.
  unfold route, protected. rewrite Hp. unfold getMe. rewrite Hu, Hf.
  reflexivity.
Qed.

Lemma me_returns_token_user_witness :
  get2 "user" "email"
    (body (response_of (route sample_lib sample_env GET_auth_me sample_store
                          (sample_world 5000)
                          (with_bearer jane_token blank_request))))
  = Some (JStr "jane@x.com").
Proof.
  destruct (me_returns_token_user sample_env sample_lib sample_store
              (sample_world 5000) (with_bearer jane_token blank_request)
              _ (exclude_password jane) eq_refl eq_refl) as [H _].
  rewrite H. reflexivity.
Defined.

(** ** Creating, fetching and deleting a task *)

Lemma findOne_appended db id uid row seq1 seq2 us :
  (forall t, In t (tasks db) -> t_id t <> id) ->
  t_id row = id -> t_userId row = uid ->
  Task_findOne
    {| users := us; tasks := tasks db ++ [row]; users_seq := seq1; tasks_seq := seq2 |}
    id uid = Some row.
Proof.
  intros Hn Hid Hown. unfold Task_findOne. cbn [tasks].
  induction (tasks db) as [|x r IH]; simpl.
  - rewrite Hid, Hown, !Z.eqb_refl. reflexivity.
  - destruct (t_id x =? id) eqn:E.
    + apply Z.eqb_eq in E. exfalso. apply (Hn x); [left; reflexivity|exact E].
    + cbn [andb]. apply IH. intros t Ht. apply Hn. right. exact Ht.
Qed.

(** X11. A POST /tasks answered with 201 has appended one row: its id is
    the next value of the counter, its owner the user the request acts
    for, title and description are the trimmed submitted ones, the
    priority is the submitted one, both timestamps are the clock of the
    server.  The answer carries the instance of that row, with the
    timestamps under both of their names.  In a well-formed store a later
    GET /tasks/:id with that id by the same user is answered with 200 and
    the same task object. *)
Theorem created_task_can_be_fetched L env db w w' req :
  well_formed db ->
  status (response_of (route L env POST_tasks db w req)) = 201 ->
  let r := route L env POST_tasks db w req in
  exists task title priority,
    get "task" (body (response_of r)) = Some (task_json (loaded task)) /\
    tasks (store_of r) = (tasks db ++ [task])%list /\
    t_id task = tasks_seq db /\
    acts_for env db w req (t_userId task) /\
    b_title (body_in req) = Some title /\ t_title task = Js.trim title /\
    b_priority (body_in req) = Some priority /\ t_priority task = priority /\
    t_description task = option_map Js.trim (b_description (body_in req)) /\
    t_createdAt task = now w /\ t_updatedAt task = now w /\
    forall later later' u',
      protect env (store_of r) w' later = inr later' ->
      user later' = Some u' -> ui_id u' = t_userId task ->
      params_id later = Some (t_id task) ->
      route L env GET_tasks_id (store_of r) w' later
      = (respond 200
           (JObj [("success", JBool true); ("task", task_json (loaded task))]),
         store_of r).
Proof.
  intros Hw H201 r. subst r.
  remember (route L env POST_tasks db w req) as r eqn:Er.
  unfold route, protected in Er.
  destruct (protect env db w req) as [resp|req'] eqn:Hp.
  { destruct (protect_inl_401 _ _ _ _ _ Hp) as [H401 _].
    subst r. unfold response_of in H201. cbn [fst] in H201.
    rewrite H401 in H201. discriminate. }
  destruct (protect_user _ _ _ _ _ Hp) as (u & Hu & _ & Hbody & _).
  rewrite Hbody in Er.
  destruct (taskValidation L (body_in req)) as [b errors] eqn:Ev.
  assert (Hb : b = fst (taskValidation L (body_in req))) by (rewrite Ev; reflexivity).
  assert (He : errors = snd (taskValidation L (body_in req))) by (rewrite Ev; reflexivity).
  unfold validated in Er.
  destruct errors as [|x xs]; [|subst r; cbn in H201; discriminate].
  cbn [validate] in Er. unfold createTask in Er.
  assert (Hu' : user (set_body req' b) = Some u) by exact Hu.
  rewrite Hu' in Er.
  destruct (Task_create L db w _ _ _ _ _) as [inst db'|errs|] eqn:Ec;
    [|subst r; cbn in H201; discriminate|subst r; cbn in H201; discriminate].
  clear H201.
  destruct (Task_create_saved _ _ _ _ _ _ _ _ _ _ Ec)
    as (task & -> & -> & Hid & Hown & Hti & Hde & Hpr & _ & Hc & Hup & _).
  destruct (taskValidation_accepts L (body_in req) (eq_sym He))
    as (title & priority & date & Et & Epr & _).
  subst r. unfold store_of, response_of. cbn [fst snd tasks].
  exists task, title, priority.
  cbn [body_in set_body] in Hti, Hde, Hpr. rewrite Hb in Hti, Hde, Hpr.
  unfold taskValidation in Hti, Hde, Hpr.
  cbn [fst b_title b_description b_priority] in Hti, Hde, Hpr.
  rewrite Et in Hti. rewrite Epr in Hpr. cbn [str_of] in Hti.
  injection Hti as Hti'.
  split; [reflexivity|]. split; [reflexivity|]. split; [exact Hid|].
  split; [rewrite Hown; apply (acts_for_intro _ _ _ _ _ _ Hp Hu)|].
  split; [exact Et|]. split; [symmetry; exact Hti'|].
  split; [exact Epr|]. split; [exact Hpr|]. split; [exact Hde|].
  split; [exact Hc|]. split; [exact Hup|].
  intros later later' u' Hp' Hu'' Hui Hpid.
  unfold route, protected. rewrite Hp'. unfold getTask. rewrite Hu''.
  destruct (protect_user _ _ _ _ _ Hp') as (u2 & Hu2 & Hpid' & _).
  rewrite Hpid', Hpid, Hui.
  rewrite (findOne_appended db (t_id task) (t_userId task) task _ _ _);
    [reflexivity| |reflexivity|reflexivity].
  intros t Ht. destruct Hw as (_ & _ & _ & _ & T2 & _).
  specialize (T2 t Ht). rewrite Hid. lia.
Qed.

Lemma created_task_can_be_fetched_witness :
  let req := set_body (with_bearer jane_token blank_request)
               (task_body (Some " Write spec ") (Some " soon ") (Some "medium")
                  (Some "2025-01-01")) in
  let r := route sample_lib sample_env POST_tasks sample_store (sample_world 5000) req in
  status (response_of r) = 201 /\
  exists task,
    t_id task = 6 /\ t_title task = "Write spec" /\
    get "task" (body (response_of r)) = Some (task_json (loaded task)) /\
    route sample_lib sample_env GET_tasks_id (store_of r) (sample_world 9000)
      (with_id 6 (with_bearer jane_token blank_request))
    = (respond 200
         (JObj [("success", JBool true); ("task", task_json (loaded task))]),
       store_of r).
Proof.
  intros req r. split; [reflexivity|].
  destruct (created_task_can_be_fetched sample_lib sample_env sample_store
              (sample_world 5000) (sample_world 9000) req
              sample_store_well_formed eq_refl)
    as (task & title & priority & Hj & _ & Hid & (rq & uu & Hp & Hu & Hi)
        & Et & Hti & _ & _ & _ & _ & _ & H).
  injection Et as <-.
  exists task. split; [exact Hid|]. split; [exact Hti|]. split; [exact Hj|].
  assert (E : protect sample_env sample_store (sample_world 5000) req
              = inr (set_user req (exclude_password jane))) by reflexivity.
  rewrite E in Hp. injection Hp as <-. injection Hu as <-.
  apply (H (with_id 6 (with_bearer jane_token blank_request))
           (set_user (with_id 6 (with_bearer jane_token blank_request))
              (exclude_password jane))
           (exclude_password jane)).
  - reflexivity.
  - reflexivity.
  - exact Hi.
  - rewrite Hid. reflexivity.
Defined.

(** X12. A DELETE /tasks/:id answered with 200 removed a task of that id
    owned by the user the request acts for: the rows with that id are
    gone, every other task and all users are kept.  Afterwards a GET or a
    second DELETE of the same id, by any authenticated user, is answered
    with that endpoint's 404 and changes nothing. *)
Theorem deleted_task_is_gone L env db w w' req id :
  params_id req = Some id ->
  status (response_of (route L env DELETE_tasks_id db w req)) = 200 ->
  let db' := store_of (route L env DELETE_tasks_id db w req) in
  users db' = users db /\
  tasks db' = filter (fun t => negb (t_id t =? id)) (tasks db) /\
  (exists t, In t (tasks db) /\ t_id t = id /\
             acts_for env db w req (t_userId t)) /\
  forall e later later',
    e = GET_tasks_id \/ e = DELETE_tasks_id ->
    protect env db' w' later = inr later' ->
    params_id later = Some id ->
    route L env e db' w' later = (failure 404 (not_found_message e), db').
Proof.
  intros Hid H200 db'. subst db'.
  remember (route L env DELETE_tasks_id db w req) as r eqn:Er.
  unfold route, protected in Er.
  destruct (protect env db w req) as [resp|req'] eqn:Hp.
  { destruct (protect_inl_401 _ _ _ _ _ Hp) as [H401 _].
    subst r. unfold response_of in H200. cbn [fst] in H200.
    rewrite H401 in H200. discriminate. }
  destruct (protect_user _ _ _ _ _ Hp) as (u & Hu & Hpid & _).
  unfold deleteTask in Er. rewrite Hu, Hpid, Hid in Er.
  destruct (Task_findOne db id (ui_id u)) as [task|] eqn:Ef;
    [|subst r; cbn in H200; discriminate].
  clear H200.
  destruct (findOne_some _ _ _ _ Ef) as (Hin & Htid & Hown).
  subst r. unfold store_of. cbn [snd]. unfold Task_destroy at 1 2.
  cbn [users tasks]. rewrite Htid.
  split; [reflexivity|]. split; [reflexivity|].
  split.
  { exists task. split; [exact Hin|]. split; [exact Htid|].
    rewrite Hown. apply (acts_for_intro _ _ _ _ _ _ Hp Hu). }
  intros e later later' He Hp' Hpid'.
  destruct (protect_user _ _ _ _ _ Hp') as (u' & Hu' & _).
  assert (Hnone : Task_findOne (Task_destroy db task) id (ui_id u') = None).
  { apply findOne_none. intros t Ht E. exfalso.
    unfold Task_destroy in Ht. cbn [tasks] in Ht.
    apply filter_In in Ht as [_ Hb]. rewrite Htid, E, Z.eqb_refl in Hb.
    discriminate. }
  rewrite (single_task_not_found L env _ w' later later' u' id e);
    [|destruct He as [->| ->]; auto|exact Hp'|exact Hu'|exact Hpid'|exact Hnone].
  destruct He as [->| ->]; reflexivity.
Qed.

Lemma deleted_task_is_gone_witness :
  let req := with_id 3 (with_bearer jane_token blank_request) in
  let db' := store_of (route sample_lib sample_env DELETE_tasks_id sample_store
                         (sample_world 5000) req) in
  map t_id (tasks db') = [1; 2; 4; 5] /\
  route sample_lib sample_env GET_tasks_id db' (sample_world 9000) req
  = (failure 404 "Task not found or you do not have permission to view it.", db').
Proof.
  intros req db'. split; [reflexivity|].
  destruct (deleted_task_is_gone sample_lib sample_env sample_store
              (sample_world 5000) (sample_world 9000) req 3 eq_refl eq_refl)
    as (_ & _ & _ & H).
  apply (H GET_tasks_id req (set_user req (exclude_password jane))).
  - left. reflexivity.
  - reflexivity.
  - reflexivity.
Defined.

(** ** The listing: page metadata and date orders *)

Lemma ceil_quotient_bounds total l :
  1 <= l ->
  ((total + l - 1) / l - 1) * l < total <= (total + l - 1) / l * l.
Proof.
  intros Hl.
  pose proof (Z.div_mod (total + l - 1) l ltac:(lia)) as E.
  pose proof (Z.mod_pos_bound (total + l - 1) l ltac:(lia)) as B.
  nia.
Qed.

(** X13. The page metadata of an accepted GET /tasks whose page times
    limit is at most 2^53.  The answer is 200.  With [total] the number
    of the requester's tasks, [p] the page and [l] the limit: [tasks]
    holds tasks of the requester, [count] is their number, which is
    [min l (max 0 (total - (p-1)*l))]; [currentPage] is [p] and [limit]
    is [l]; [totalPages] is the least [tp] with [total <= tp * l];
    [hasNext] holds exactly when tasks remain after this page
    ([p * l < total]) and [hasPrev] exactly when [p > 1]. *)
Theorem pagination_metadata L env db w req req' page limit sortBy order :
  protect env db w req = inr req' ->
  query req = from_strings page limit sortBy order ->
  snd (paginationValidation L (query req)) = [] ->
  let r := response_of (route L env GET_tasks db w req) in
  let p := supplied page 1 in
  let l := supplied limit 10 in
  p * l <= Js.two53 ->
  exists u rows tp hasNext hasPrev,
    user req' = Some u /\
    let total := Z.of_nat (List.length (owned_rows db (ui_id u))) in
    status r = 200 /\
    (forall t, In t rows -> In t (owned_rows db (ui_id u))) /\
    get "tasks" (body r) = Some (JArr (map task_attributes rows)) /\
    get "count" (body r) = Some (JNum (Z.of_nat (List.length rows))) /\
    Z.of_nat (List.length rows) = Z.min l (Z.max 0 (total - (p - 1) * l)) /\
    get2 "pagination" "currentPage" (body r) = Some (JNum p) /\
    get2 "pagination" "limit" (body r) = Some (JNum l) /\
    get2 "pagination" "totalTasks" (body r) = Some (JNum total) /\
    get2 "pagination" "totalPages" (body r) = Some (JNum tp) /\
    (tp - 1) * l < total <= tp * l /\
    get2 "pagination" "hasNext" (body r) = Some (JBool hasNext) /\
    (hasNext = true <-> p * l < total) /\
    get2 "pagination" "hasPrev" (body r) = Some (JBool hasPrev) /\
    (hasPrev = true <-> 1 < p).
Proof.
  intros Hp Hq Hv r p l Hb.
  destruct (accepted_listing L env db w req req' page limit sortBy order
              Hp Hq Hv)
    as (u & sorted & Hu & [Hperm Hsorted] & _ & _ & Hexact).
  specialize (Hexact Hb). cbv zeta in Hexact. fold r p l in Hexact.
  pose proof Hv as Hv'. rewrite Hq in Hv'.
  destruct (accepted_page_limit L _ _ _ _ Hv') as (_ & _ & P3 & _ & _ & Q3 & _).
  fold p l in P3, Q3.
  set (total := Z.of_nat (List.length (owned_rows db (ui_id u)))) in *.
  exists u, (window l ((p - 1) * l) sorted), ((total + l - 1) / l),
         (p <? (total + l - 1) / l), (1 <? p).
  split; [exact Hu|]. cbv zeta.
  pose proof (ceil_quotient_bounds total l ltac:(lia)) as Hc.
  rewrite Hexact.
  split; [reflexivity|].
  split.
  { intros t Ht. apply window_In in Ht.
    apply (Permutation_in _ Hperm Ht). }
  split; [reflexivity|]. split; [reflexivity|].
  split.
  { rewrite window_length; [|lia|nia].
    rewrite (Permutation_length Hperm). reflexivity. }
  split; [reflexivity|]. split; [reflexivity|].
  split; [reflexivity|]. split; [reflexivity|]. split; [exact Hc|].
  split; [reflexivity|].
  split.
  { rewrite Z.ltb_lt. split; intros H; nia. }
  split; [reflexivity|].
  apply Z.ltb_lt.
Qed.

Lemma pagination_metadata_witness :
  let r := response_of (route sample_lib sample_env GET_tasks sample_store
                          (sample_world 5000)
                          (jane_lists (Some "2") (Some "3") None None)) in
  status r = 200 /\
  get "count" (body r) = Some (JNum 1) /\
  get2 "pagination" "currentPage" (body r) = Some (JNum 2) /\
  exists tp hasNext hasPrev,
    get2 "pagination" "totalPages" (body r) = Some (JNum tp) /\
    (tp - 1) * 3 < 4 <= tp * 3 /\
    get2 "pagination" "hasNext" (body r) = Some (JBool hasNext) /\
    (hasNext = true <-> 2 * 3 < 4) /\
    get2 "pagination" "hasPrev" (body r) = Some (JBool hasPrev) /\
    (hasPrev = true <-> 1 < 2).
Proof.
  intros r. split; [reflexivity|]. split; [reflexivity|].
  destruct (pagination_metadata sample_lib sample_env sample_store
              (sample_world 5000)
              (jane_lists (Some "2") (Some "3") None None)
              (set_user (jane_lists (Some "2") (Some "3") None None)
                 (exclude_password jane))
              (Some "2") (Some "3") None None eq_refl eq_refl eq_refl
              ltac:(vm_compute; discriminate))
    as (u & rows & tp & hasNext & hasPrev & Hu & _ & _ & _ & _ & _ & H0 & _ & _
        & H1 & H2 & H3 & H4 & H5 & H6).
  injection Hu as <-.
  split; [exact H0|].
  exists tp, hasNext, hasPrev.
  split; [exact H1|]. split; [exact H2|]. split; [exact H3|].
  split; [exact H4|]. split; [exact H5|exact H6].
Defined.

Lemma date_order_key sortBy d a b :
  sortBy <> Some "priority" ->
  order_leb (requested_expr sortBy) d a b = true ->
  match d with
  | Asc => sort_key sortBy a <= sort_key sortBy b
  | Desc => sort_key sortBy b <= sort_key sortBy a
  end.
Proof.
  intros Hs. unfold requested_expr, sort_key.
  destruct (optional_string_eqb sortBy "priority") eqn:E.
  { destruct sortBy as [s|]; [|discriminate]. cbn in E.
    apply String.eqb_eq in E. congruence. }
  destruct (optional_string_eqb sortBy "created_at"); destruct d; simpl;
    rewrite Z.leb_le; lia.
Qed.

(** X14. An accepted GET /tasks whose sortBy is absent, [end_date] or
    [created_at] lists a window of the requester's tasks put in the order
    of that date column (the end date when sortBy is absent; tasks of
    equal date in an order the database chooses): along it the dates never
    decrease for order asc or no order, and never increase for order desc.
    When page times limit is at most 2^53 the answer is 200 with the
    window that skips (page - 1) * limit tasks and takes limit. *)
Theorem date_listing_ordered L env db w req req' page limit sortBy order :
  protect env db w req = inr req' ->
  query req = from_strings page limit sortBy order ->
  snd (paginationValidation L (query req)) = [] ->
  sortBy <> Some "priority" ->
  let r := response_of (route L env GET_tasks db w req) in
  let p := supplied page 1 in
  let l := supplied limit 10 in
  exists u sorted,
    user req' = Some u /\
    Permutation sorted (owned_rows db (ui_id u)) /\
    (forall i j a b, (i < j)%nat -> at_index sorted i a -> at_index sorted j b ->
       (order <> Some "desc" -> sort_key sortBy a <= sort_key sortBy b) /\
       (order = Some "desc" -> sort_key sortBy b <= sort_key sortBy a)) /\
    (forall js, get "tasks" (body r) = Some (JArr js) ->
       exists l' o', js = map task_attributes (window l' o' sorted)) /\
    (p * l <= Js.two53 ->
     status r = 200 /\
     get "tasks" (body r)
     = Some (JArr (map task_attributes (window l ((p - 1) * l) sorted)))) /\
    (forall l' o' i j a b, (i < j)%nat ->
       at_index (window l' o' sorted) i a -> at_index (window l' o' sorted) j b ->
       (order <> Some "desc" -> sort_key sortBy a <= sort_key sortBy b) /\
       (order = Some "desc" -> sort_key sortBy b <= sort_key sortBy a)).
Proof.
  intros Hp Hq Hv Hs r p l.
  pose proof Hv as Hv'. rewrite Hq in Hv'.
  destruct (accepted_order L _ _ _ _ Hv') as (_ & _ & Horder).
  destruct (accepted_listing L _ _ _ _ _ _ _ _ _ Hp Hq Hv)
    as (u & sorted & Hu & [Hperm Hsorted] & _ & Hany & Hexact).
  destruct (requested_direction_cases order) as [Hasc Hdesc].
  assert (Hkey : forall rows,
            StronglySorted
              (fun a b => order_leb (requested_expr sortBy)
                            (requested_direction order) a b = true) rows ->
            forall i j a b, (i < j)%nat -> at_index rows i a -> at_index rows j b ->
              (order <> Some "desc" -> sort_key sortBy a <= sort_key sortBy b) /\
              (order = Some "desc" -> sort_key sortBy b <= sort_key sortBy a)).
  { intros rows Hrows i j a b Hij Hi Hj.
    pose proof (sorted_index _ _ Hrows i j a b Hij Hi Hj) as Hab.
    cbv beta in Hab. apply (date_order_key _ _ _ _ Hs) in Hab.
    split.
    - intros Hn.
      assert (Ho : order = None \/ order = Some "asc")
        by (destruct Horder as [E|[E|E]]; [auto|auto|congruence]).
      rewrite (Hasc Ho) in Hab. exact Hab.
    - intros Hd. rewrite (Hdesc Hd) in Hab. exact Hab. }
  exists u, sorted.
  split; [exact Hu|]. split; [exact Hperm|].
  split; [apply Hkey, Hsorted|]. split; [exact Hany|].
  split.
  { intros Hb. fold r in Hexact. rewrite (Hexact Hb). split; reflexivity. }
  intros l' o'. apply Hkey, window_sorted, Hsorted.
Qed.

Lemma date_listing_ordered_witness :
  let r := response_of (route sample_lib sample_env GET_tasks sample_store
                          (sample_world 5000)
                          (jane_lists None None (Some "created_at") (Some "desc"))) in
  exists rows,
    status r = 200 /\
    get "tasks" (body r) = Some (JArr (map task_attributes rows)) /\
    map t_id rows = [5; 4; 3; 1] /\
    forall i j a b, (i < j)%nat -> at_index rows i a -> at_index rows j b ->
      t_createdAt b <= t_createdAt a.
Proof.
  intros r.
  destruct (date_listing_ordered sample_lib sample_env sample_store
              (sample_world 5000)
              (jane_lists None None (Some "created_at") (Some "desc"))
              (set_user (jane_lists None None (Some "created_at") (Some "desc"))
                 (exclude_password jane))
              None None (Some "created_at") (Some "desc")
              eq_refl eq_refl eq_refl ltac:(discriminate))
    as (u & sorted & _ & _ & _ & _ & Hexact & H).
  destruct Hexact as [H200 Ht]; [vm_compute; discriminate|].
  exists (window 10 0 sorted).
  split; [exact H200|]. split; [exact Ht|].
  split.
  { assert (E : get "tasks" (body r)
                = Some (JArr (map task_attributes
                      [mk_task 5 1 "high two" "high" 20250105 3400;
                       mk_task 4 1 "medium one" "medium" 20250201 3300;
                       mk_task 3 1 "high one" "high" 20250301 3200;
                       mk_task 1 1 "low one" "low" 20250101 3000])))
      by reflexivity.
    fold r in Ht. rewrite Ht in E. injection E as E.
    apply (f_equal (map (fun j => get "id" j))) in E.
    rewrite !map_map in E. cbn [map task_attributes get assoc String.eqb] in E.
    revert E. generalize (window 10 0 sorted). intros rows E.
    destruct rows as [|a [|b [|c [|d [|e rest]]]]]; try discriminate E.
    cbn in E. injection E as E1 E2 E3 E4.
    cbn [map]. congruence. }
  intros i j a b Hij Hi Hj.
  destruct (H 10 0 i j a b Hij Hi Hj) as [_ Hd]. apply (Hd eq_refl).
Defined.

(** ** What the model still checks after the validation chains *)

Lemma findByPk_exists db id u :
  User_findByPk db id = Some u ->
  existsb (fun row => u_id row =? ui_id u) (users db) = true.
Proof.
  intros H. destruct (findByPk_no_password _ _ _ H) as (_ & Hid & row & Hin & ->).
  apply existsb_exists. exists row. split; [exact Hin|].
  apply Z.eqb_eq. reflexivity.
Qed.

(** X18. An authenticated POST /tasks whose body passes the validation
    chains.  If the end date string converts to a date, and the database
    takes the values (no NUL character in the trimmed title or
    description, the day within the range of DATE), the task is created
    (201, one task more, with that end date); if the database does not
    take them the answer is 500 and the store is unchanged.  If the string
    does not convert, [toDate()] has left null in the body, the model
    refuses it and the answer is 400 with the single error
    [Task.endDate cannot be null], the store unchanged.  Title and
    priority are never refused by the model once the chains have passed. *)
Theorem validated_task_is_created L env db w req req' :
  protect env db w req = inr req' ->
  snd (taskValidation L (body_in req)) = [] ->
  let r := route L env POST_tasks db w req in
  exists title date,
    b_title (body_in req) = Some title /\
    b_endDate (body_in req) = Some (DStr date) /\
    match toDate L date with
    | Some day =>
        if storable_text (Js.trim title)
           && storable_opt (option_map Js.trim (b_description (body_in req)))
           && date_in_range L day
        then
          status (response_of r) = 201 /\
          exists task, tasks (store_of r) = (tasks db ++ [task])%list /\
                       t_endDate task = day
        else r = (failure 500 "Server error. Could not create task.", db)
    | None =>
        r = (validation_error [("endDate", "Task.endDate cannot be null")], db)
    end.
Proof.
  intros Hp Hv r.
  destruct (taskValidation_accepts L (body_in req) Hv)
    as (title & priority & date & Et & Epr & Ed & Hne & Hlen & _ & Hin).
  exists title, date. split; [exact Et|]. split; [exact Ed|].
  destruct (protect_inr _ _ _ _ _ Hp) as (t & id & u & _ & _ & _ & Hf & Hr').
  pose proof (findByPk_exists _ _ _ Hf) as Hex.
  subst r. unfold route, protected. rewrite Hp.
  assert (Hbody : body_in req' = body_in req) by (subst req'; reflexivity).
  rewrite Hbody.
  destruct (taskValidation L (body_in req)) as [b errors] eqn:Ev.
  cbn [snd] in Hv. subst errors. unfold validated. cbn [validate].
  unfold taskValidation in Ev. rewrite Et, Epr, Ed in Ev. cbn [str_of dval_str] in Ev.
  injection Ev as <-.
  unfold createTask.
  assert (Hu : user (set_body req'
                       {| b_name := b_name (body_in req);
                          b_email := b_email (body_in req);
                          b_password := b_password (body_in req);
                          b_title := Some (Js.trim title);
                          b_description := option_map Js.trim
                                             (b_description (body_in req));
                          b_priority := Some priority;
                          b_endDate := Some (toDate_sanitizer L date) |})
               = Some u) by (subst req'; reflexivity).
  rewrite Hu. cbn [body_in set_body b_title b_description b_priority b_endDate].
  unfold Task_create.
  rewrite (title_errors_ok _ Hne Hlen), (priority_errors_ok _ Hin).
  cbn [app option_map]. unfold toDate_sanitizer.
  destruct (toDate L date) as [day|]; cbn [endDate_errors date_value].
  - rewrite Hex. cbn [andb].
    destruct (storable_text (Js.trim title) && _ && _).
    + unfold response_of, store_of. cbn [fst snd status respond tasks].
      split; [reflexivity|]. eexists. split; reflexivity.
    + reflexivity.
  - reflexivity.
Qed.

Lemma validated_task_is_created_witness :
  let req := set_body (with_bearer jane_token blank_request)
               (task_body (Some "Pay rent") None (Some "high") (Some "2025-02-01")) in
  let r := route sample_lib sample_env POST_tasks sample_store (sample_world 5000) req in
  status (response_of r) = 201 /\
  List.length (tasks (store_of r)) = 6%nat.
Proof.
  intros req r.
  destruct (validated_task_is_created sample_lib sample_env sample_store
              (sample_world 5000) req (set_user req (exclude_password jane))
              eq_refl eq_refl)
    as (title & date & Et & Ed & H).
  injection Et as <-. injection Ed as <-.
  split; [apply H|reflexivity].
Defined.

(** ** Repeating an update *)

(** What a [save()] that succeeded has left in the store and in the
    instance. *)
Lemma Task_save_values L db w task v inst db' id uid :
  Task_findOne db id uid = Some task ->
  Task_save L db w task v = Saved inst db' ->
  exists task',
    Task_findOne db' id uid = Some task' /\ users db' = users db /\
    t_title task' = v_title v /\ t_description task' = v_description v /\
    t_priority task' = v_priority v /\
    date_value L (v_endDate v) = Some (t_endDate task') /\
    i_title inst = t_title task' /\ i_description inst = t_description task' /\
    i_priority inst = t_priority task' /\ i_endDate inst = t_endDate task' /\
    ((inst = loaded task /\ task' = task /\ db' = db)
     \/ (i_updatedAt inst = t_updatedAt task /\ i_updated_at inst = now w /\
         t_updatedAt task' = db_now w)).
Proof.
  intros Hf. destruct (findOne_some _ _ _ _ Hf) as (_ & Hid & _).
  unfold Task_save. destruct (negb _) eqn:Hc.
  - intros H. injection H as <- <-.
    apply negb_true_iff in Hc.
    apply orb_false_iff in Hc as [Hc E4].
    apply orb_false_iff in Hc as [Hc E3].
    apply orb_false_iff in Hc as [E1 E2].
    apply negb_false_iff in E1, E2, E3.
    apply String.eqb_eq in E1. apply option_string_eqb_eq in E2.
    apply String.eqb_eq in E3.
    unfold endDate_changed in E4.
    destruct (date_value L (v_endDate v)) as [z|]; [|discriminate].
    apply negb_false_iff, Z.eqb_eq in E4. subst z.
    exists task. repeat split; auto.
  - match goal with
    | |- context [match ?e with [] => _ | _ :: _ => _ end] =>
        destruct e as [|x xs]; [|discriminate]
    end.
    destruct (date_value L (v_endDate v)) as [day|]; [|discriminate].
    match goal with
    | |- context [if ?c then OtherError else _] => destruct c; [discriminate|]
    end.
    intros H. injection H as <- <-.
    exists (write_task w (t_id task) v day task).
    split.
    { unfold Task_findOne in *. cbn [tasks]. rewrite Hid.
      apply find_written. exact Hf. }
    unfold write_task. rewrite Z.eqb_refl.
    cbn [users t_title t_description t_priority t_endDate t_updatedAt
         saved_instance i_title i_description i_priority i_endDate i_updatedAt
         i_updated_at].
    repeat split; auto.
Qed.

Lemma Task_save_unchanged L db w task v :
  v_title v = t_title task -> v_description v = t_description task ->
  v_priority v = t_priority task ->
  date_value L (v_endDate v) = Some (t_endDate task) ->
  Task_save L db w task v = Saved (loaded task) db.
Proof.
  intros E1 E2 E3 E4. unfold Task_save, endDate_changed.
  rewrite E1, E2, E3, E4, !String.eqb_refl, Z.eqb_refl.
  assert (E : option_string_eqb (t_description task) (t_description task) = true)
    by (apply option_string_eqb_eq; reflexivity).
  rewrite E. reflexivity.
Qed.

Lemma Task_save_refused_again L db w w' task v :
  (forall t d, Task_save L db w task v <> Saved t d) ->
  Task_save L db w' task v = Task_save L db w task v.
Proof.
  unfold Task_save. destruct (negb _).
  - reflexivity.
  - match goal with
    | |- context [match ?e with [] => _ | _ :: _ => _ end] =>
        destruct e as [|x xs]; [|reflexivity]
    end.
    destruct (date_value L (v_endDate v)) as [day|]; [|reflexivity].
    match goal with
    | |- context [if ?c then OtherError else _] => destruct c; [reflexivity|]
    end.
    intros H. exfalso. eapply H. reflexivity.
Qed.

Lemma str_or_again x d : Js.str_or x (Js.str_or x d) = Js.str_or x d.
Proof. destruct x as [[|c s]|]; reflexivity. Qed.

Lemma date_or_again L x old z :
  date_value L (date_or x old) = Some z ->
  date_value L (date_or x z) = Some z.
Proof.
  destruct x as [[[|c s]|d|]|]; cbn [date_or date_value]; intros H;
    first [exact H|reflexivity].
Qed.

(** The handler run a second time on the store the first run left. *)
Lemma updateTask_again L db w w' rq :
  let r1 := updateTask L db w rq in
  let r2 := updateTask L (store_of r1) w' rq in
  users (store_of r1) = users db /\
  store_of r2 = store_of r1 /\
  status (response_of r2) = status (response_of r1) /\
  (status (response_of r1) <> 200 -> r2 = r1) /\
  (status (response_of r1) = 200 ->
   exists u id task task' inst,
     user rq = Some u /\ params_id rq = Some id /\
     Task_findOne db id (ui_id u) = Some task /\
     Task_findOne (store_of r1) id (ui_id u) = Some task' /\
     get "task" (body (response_of r1)) = Some (task_json inst) /\
     get "task" (body (response_of r2)) = Some (task_json (loaded task')) /\
     i_title inst = t_title task' /\ i_description inst = t_description task' /\
     i_priority inst = t_priority task' /\ i_endDate inst = t_endDate task' /\
     ((inst = loaded task /\ task' = task /\ store_of r1 = db)
      \/ (i_updatedAt inst = t_updatedAt task /\ i_updated_at inst = now w /\
          t_updatedAt task' = db_now w))).
Proof.
  cbv zeta. unfold updateTask.
  destruct (user rq) as [u|];
    [|repeat split; try reflexivity; intros C; discriminate C].
  destruct (params_id rq) as [id|];
    [|repeat split; try reflexivity; intros C; discriminate C].
  destruct (Task_findOne db id (ui_id u)) as [task|] eqn:Ef.
  2:{ unfold store_of, response_of. cbn [fst snd]. rewrite Ef.
      repeat split; try reflexivity. intros C; discriminate C. }
  match goal with
  | |- context [Task_save L db w task ?v0] => set (v := v0)
  end.
  destruct (Task_save L db w task v) as [inst db'|errors|] eqn:Es.
  - destruct (Task_save_values _ _ _ _ _ _ _ _ _ Ef Es)
      as (task' & Hf' & Hu' & V1 & V2 & V3 & V4 & I1 & I2 & I3 & I4 & Hcase).
    unfold store_of, response_of. cbn [fst snd]. rewrite Hf'.
    rewrite Task_save_unchanged.
    + cbn [fst snd status respond].
      split; [exact Hu'|]. split; [reflexivity|]. split; [reflexivity|].
      split; [intros C; contradiction C; reflexivity|].
      intros _. exists u, id, task, task', inst.
      repeat split; auto.
    + cbn [v_title]. rewrite V1. subst v. cbn [v_title]. apply str_or_again.
    + cbn [v_description]. rewrite V2. subst v. cbn [v_description].
      destruct (b_description (body_in rq)); reflexivity.
    + cbn [v_priority]. rewrite V3. subst v. cbn [v_priority]. apply str_or_again.
    + cbn [v_endDate]. subst v. cbn [v_endDate] in V4.
      apply (date_or_again L _ _ _ V4).
  - unfold store_of, response_of. cbn [fst snd]. rewrite Ef. fold v.
    rewrite (Task_save_refused_again L db w w' task v);
      [|intros t d; rewrite Es; discriminate].
    rewrite Es. cbn [fst snd].
    repeat split; try reflexivity. intros C; discriminate C.
  - unfold store_of, response_of. cbn [fst snd]. rewrite Ef. fold v.
    rewrite (Task_save_refused_again L db w w' task v);
      [|intros t d; rewrite Es; discriminate].
    rewrite Es. cbn [fst snd].
    repeat split; try reflexivity. intros C; discriminate C.
Qed.

(** X19. PUT /tasks/:id sent twice.  When the same request is sent again,
    at any later clock at which the auth gate decides it as before, the
    store stays as the first request left it and the status is the
    status of the first answer; an answer other than 200 is repeated as it
    was.  After a 200 the second request writes nothing and answers with
    the stored row, whose updated timestamp is the clock of the database
    at the first request when that one changed a field.  The first answer
    shows the same title, description, priority and end date, but after a
    change its [updatedAt] is still the timestamp the row had before, and
    its [updated_at] the clock of the server. *)
Theorem repeated_update_changes_nothing L env db w w' req :
  protect env db w' req = protect env db w req ->
  let r1 := route L env PUT_tasks_id db w req in
  let r2 := route L env PUT_tasks_id (store_of r1) w' req in
  store_of r2 = store_of r1 /\
  status (response_of r2) = status (response_of r1) /\
  (status (response_of r1) <> 200 -> r2 = r1) /\
  (status (response_of r1) = 200 ->
   exists uid id task task' inst,
     acts_for env db w req uid /\ params_id req = Some id /\
     Task_findOne db id uid = Some task /\
     Task_findOne (store_of r1) id uid = Some task' /\
     get "task" (body (response_of r1)) = Some (task_json inst) /\
     get "task" (body (response_of r2)) = Some (task_json (loaded task')) /\
     i_title inst = t_title task' /\ i_description inst = t_description task' /\
     i_priority inst = t_priority task' /\ i_endDate inst = t_endDate task' /\
     ((inst = loaded task /\ task' = task /\ store_of r1 = db)
      \/ (i_updatedAt inst = t_updatedAt task /\ i_updated_at inst = now w /\
          t_updatedAt task' = db_now w))).
Proof.
  intros Hprot r1 r2. subst r1 r2.
  destruct (protect env db w req) as [resp|req'] eqn:Hp.
  - assert (E : route L env PUT_tasks_id db w req = (resp, db))
      by (unfold route, protected; rewrite Hp; reflexivity).
    rewrite E. unfold store_of. cbn [snd].
    assert (E2 : route L env PUT_tasks_id db w' req = (resp, db))
      by (unfold route, protected; rewrite Hprot; reflexivity).
    rewrite E2. unfold response_of. cbn [fst snd].
    destruct (protect_inl_401 _ _ _ _ _ Hp) as [H401 _]. rewrite H401.
    repeat split; try reflexivity. intros C; discriminate C.
  - rewrite (route_PUT L _ _ _ _ _ Hp). unfold validated.
    destruct (validate (snd (taskValidation L (body_in req)))) as [r|] eqn:Ev.
    + unfold store_of. cbn [snd].
      rewrite (route_PUT L _ _ _ _ _ Hprot). unfold validated. rewrite Ev.
      unfold response_of. cbn [fst snd].
      assert (H400 : status r = 400).
      { unfold validate in Ev.
        destruct (snd (taskValidation L (body_in req))); [discriminate|].
        injection Ev as <-. reflexivity. }
      rewrite H400.
      repeat split; try reflexivity. intros C; discriminate C.
    + set (rq := set_body req' (fst (taskValidation L (body_in req)))).
      destruct (updateTask_again L db w w' rq) as (Hu & Hst & Hstatus & Hne & H200).
      assert (Hp' : protect env (store_of (updateTask L db w rq)) w' req = inr req')
        by (rewrite (protect_users env _ db w' req Hu); exact Hprot).
      rewrite (route_PUT L _ _ _ _ _ Hp'). unfold validated. rewrite Ev.
      fold rq.
      split; [exact Hst|]. split; [exact Hstatus|]. split; [exact Hne|].
      intros Hs. destruct (H200 Hs)
        as (u & id & task & task' & inst & Hur & Hid & Hrest).
      exists (ui_id u), id, task, task', inst.
      split; [apply (acts_for_intro _ _ _ _ _ _ Hp); exact Hur|].
      split; [|exact Hrest].
      destruct (protect_user _ _ _ _ _ Hp) as (u0 & _ & Hpid & _).
      rewrite <- Hpid. exact Hid.
Qed.

Lemma repeated_update_changes_nothing_witness :
  let req := jane_updates (Some "renamed") None (Some "high") (Some "2025-04-01") in
  let r1 := route sample_lib sample_env PUT_tasks_id sample_store (sample_world 5000) req in
  let r2 := route sample_lib sample_env PUT_tasks_id (store_of r1) (sample_world 9000) req in
  status (response_of r1) = 200 /\
  store_of r1 <> sample_store /\
  store_of r2 = store_of r1 /\
  get2 "task" "updatedAt" (body (response_of r1)) = Some (JNum 3000) /\
  get2 "task" "updated_at" (body (response_of r1)) = Some (JNum 5000) /\
  get2 "task" "updatedAt" (body (response_of r2)) = Some (JNum 5007) /\
  get2 "task" "updated_at" (body (response_of r2)) = Some (JNum 5007).
Proof.
  intros req r1 r2. split; [reflexivity|]. split; [discriminate|].
  split; [|repeat split].
  apply (repeated_update_changes_nothing sample_lib sample_env sample_store
           (sample_world 5000) (sample_world 9000) req eq_refl).
Defined.
